(** * check_tv_compat: classification rules and suggested ffmpeg commands

    A shallow embedding of [check_tv_compat.c].  The program probes a media
    file with libavformat, classifies its container and its video, audio and
    subtitle streams against a fixed support matrix, and prints suggested
    [ffmpeg] command lines.

    Conventions of the embedding.
    - A C string is a [string]: the bytes before the terminating NUL.  A
      [const char *] that may be [NULL] is an [option string].
    - A C truth value ([int], 0 or 1) is a [bool].
    - [int] and [uint32_t] values are in [Z].  The stream index and the
      per-type output indices count the streams of one probed file and are
      kept unbounded.  The summary counters count files over a whole run:
      they are incremented with [int_incr], and an increment at [INT_MAX] is
      undefined behaviour, which the embedding reports as [SignedOverflow].
    - A fixed [char buf[N]] holds at most [N - 1] bytes of text.  [snprintf]
      truncates to that; [strcat] does not check, and writing past the end of
      the array is undefined behaviour, which the embedding reports as
      [BufferOverrun]. *)

From Stdlib Require Import ZArith List String Ascii Bool Lia DecimalString.
From Stdlib Require Import Permutation.
Import ListNotations.

#[local] Open Scope string_scope.
#[local] Open Scope list_scope.
#[local] Open Scope Z_scope.

(** ** Declarations of libavutil, libavcodec and libavformat *)

(** [enum AVMediaType] of libavutil. *)
Inductive AVMediaType : Set :=
| AVMEDIA_TYPE_UNKNOWN
| AVMEDIA_TYPE_VIDEO
| AVMEDIA_TYPE_AUDIO
| AVMEDIA_TYPE_DATA
| AVMEDIA_TYPE_SUBTITLE
| AVMEDIA_TYPE_ATTACHMENT.

(** [enum AVCodecID] of libavcodec: the identifiers the program names, a few
    of the many it does not name, and [AV_CODEC_ID_UNLISTED] for every other
    identifier of the enumeration (its argument is the enumerator's number). *)
Inductive AVCodecID : Set :=
| AV_CODEC_ID_NONE
(* video *)
| AV_CODEC_ID_MPEG1VIDEO
| AV_CODEC_ID_MPEG2VIDEO
| AV_CODEC_ID_MJPEG
| AV_CODEC_ID_MPEG4
| AV_CODEC_ID_MSMPEG4V3
| AV_CODEC_ID_H264
| AV_CODEC_ID_VC1
| AV_CODEC_ID_PNG
| AV_CODEC_ID_VP8
| AV_CODEC_ID_VP9
| AV_CODEC_ID_HEVC
| AV_CODEC_ID_AV1
(* audio *)
| AV_CODEC_ID_PCM_S16LE
| AV_CODEC_ID_MP2
| AV_CODEC_ID_MP3
| AV_CODEC_ID_AAC
| AV_CODEC_ID_AC3
| AV_CODEC_ID_DTS
| AV_CODEC_ID_VORBIS
| AV_CODEC_ID_WMAV2
| AV_CODEC_ID_FLAC
| AV_CODEC_ID_EAC3
| AV_CODEC_ID_TRUEHD
| AV_CODEC_ID_OPUS
(* subtitles *)
| AV_CODEC_ID_DVD_SUBTITLE
| AV_CODEC_ID_DVB_SUBTITLE
| AV_CODEC_ID_TEXT
| AV_CODEC_ID_XSUB
| AV_CODEC_ID_SSA
| AV_CODEC_ID_MOV_TEXT
| AV_CODEC_ID_HDMV_PGS_SUBTITLE
| AV_CODEC_ID_DVB_TELETEXT
| AV_CODEC_ID_MICRODVD
| AV_CODEC_ID_SUBRIP
| AV_CODEC_ID_WEBVTT
| AV_CODEC_ID_ASS
| AV_CODEC_ID_HDMV_TEXT_SUBTITLE
| AV_CODEC_ID_UNLISTED (n : Z).

Definition AVMediaType_eq_dec (a b : AVMediaType) : {a = b} + {a <> b}.
Proof. decide equality. Defined.

Definition AVCodecID_eq_dec (a b : AVCodecID) : {a = b} + {a <> b}.
Proof. decide equality. apply Z.eq_dec. Defined.

(** The C comparison [a == b] on an enumeration. *)
Definition type_eqb (a b : AVMediaType) : bool :=
  if AVMediaType_eq_dec a b then true else false.

Definition codec_eqb (a b : AVCodecID) : bool :=
  if AVCodecID_eq_dec a b then true else false.

(** Modelled from the spec: the [MKTAG] macro of libavutil, whose header is not
    part of the repository.  A codec tag is the "opaque 4-byte tag" of the
    data model; the macro packs four characters into a 32-bit value, the first
    character in the low byte. *)
Definition MKTAG (a b c d : ascii) : Z :=
  Z.lor (Z.lor (Z.lor (Z.of_N (N_of_ascii a))
                      (Z.shiftl (Z.of_N (N_of_ascii b)) 8))
               (Z.shiftl (Z.of_N (N_of_ascii c)) 16))
        (Z.shiftl (Z.of_N (N_of_ascii d)) 24).
Arguments MKTAG (a b c d)%_char.

(** Modelled from the spec: the two MPEG-4 part 2 profile constants of
    libavcodec ("advanced-simple" and "simple-studio"), whose header is not
    part of the repository. *)
Definition FF_PROFILE_MPEG4_SIMPLE_STUDIO : Z := 14.
Definition FF_PROFILE_MPEG4_ADVANCED_SIMPLE : Z := 15.

(** [AVCodecParameters]: the fields the program reads. *)
Record AVCodecParameters : Set := mkPar {
  codec_type : AVMediaType;
  codec_id : AVCodecID;
  codec_tag : Z;      (* uint32_t *)
  profile : Z         (* int *)
}.

(** [AVStream]: codec parameters and the "language" entry of the metadata
    dictionary ([None] when [av_dict_get] finds none). *)
Record AVStream : Set := mkStream {
  codecpar : AVCodecParameters;
  language : option string
}.

(** [AVFormatContext] after a successful probe: [iformat_name] is
    [fmt_ctx->iformat->name], [None] when either pointer is [NULL]. *)
Record AVFormatContext : Set := mkFmt {
  iformat_name : option string;
  streams : list AVStream
}.

(** ** The support matrix *)

Module Classify.

#[local] Infix "==" := codec_eqb (at level 70, no associativity).
#[local] Notation "a != b" := (negb (Z.eqb a b)) (at level 70, no associativity).

Definition is_video_codec_supported (par : AVCodecParameters) : bool :=
  let id := codec_id par in
  (id == AV_CODEC_ID_H264) ||
  (id == AV_CODEC_ID_HEVC) ||
  (id == AV_CODEC_ID_MPEG2VIDEO) ||
  (id == AV_CODEC_ID_VP9) ||
  (id == AV_CODEC_ID_AV1) ||
  (id == AV_CODEC_ID_MJPEG) ||
  (id == AV_CODEC_ID_PNG) ||
  ((id == AV_CODEC_ID_MPEG4) &&
   (codec_tag par != MKTAG "X" "V" "I" "D") &&
   (codec_tag par != MKTAG "x" "v" "i" "d") &&
   (codec_tag par != MKTAG "D" "I" "V" "X") &&
   (codec_tag par != MKTAG "d" "i" "v" "x") &&
   (codec_tag par != MKTAG "D" "X" "5" "0") &&
   (codec_tag par != MKTAG "M" "P" "4" "V") &&
   (codec_tag par != MKTAG "m" "p" "4" "v") &&
   (codec_tag par != MKTAG "F" "M" "P" "4") &&
   (codec_tag par != MKTAG "f" "m" "p" "4") &&
   negb ((profile par =? FF_PROFILE_MPEG4_ADVANCED_SIMPLE) ||
         (profile par =? FF_PROFILE_MPEG4_SIMPLE_STUDIO))).

Definition is_audio_codec_supported (id : AVCodecID) : bool :=
  (id == AV_CODEC_ID_AAC) ||
  (id == AV_CODEC_ID_AC3) ||
  (id == AV_CODEC_ID_EAC3) ||
  (id == AV_CODEC_ID_MP3) ||
  (id == AV_CODEC_ID_PCM_S16LE) ||
  (id == AV_CODEC_ID_FLAC) ||
  (id == AV_CODEC_ID_VORBIS) ||
  (id == AV_CODEC_ID_OPUS) ||
  (id == AV_CODEC_ID_WMAV2).

Definition is_subtitle_codec_supported (id : AVCodecID) : bool :=
  (id == AV_CODEC_ID_SUBRIP) ||
  (id == AV_CODEC_ID_ASS) ||
  (id == AV_CODEC_ID_SSA) ||
  (id == AV_CODEC_ID_WEBVTT) ||
  (id == AV_CODEC_ID_MOV_TEXT) ||
  (id == AV_CODEC_ID_MICRODVD) ||
  (id == AV_CODEC_ID_TEXT).

Definition is_text_subtitle (id : AVCodecID) : bool :=
  (id == AV_CODEC_ID_SUBRIP) ||
  (id == AV_CODEC_ID_ASS) ||
  (id == AV_CODEC_ID_SSA) ||
  (id == AV_CODEC_ID_WEBVTT) ||
  (id == AV_CODEC_ID_MOV_TEXT) ||
  (id == AV_CODEC_ID_MICRODVD) ||
  (id == AV_CODEC_ID_TEXT).

Definition is_bitmap_subtitle (id : AVCodecID) : bool :=
  (id == AV_CODEC_ID_HDMV_PGS_SUBTITLE) ||
  (id == AV_CODEC_ID_DVD_SUBTITLE).

Definition is_media_stream (type : AVMediaType) : bool :=
  type_eqb type AVMEDIA_TYPE_VIDEO ||
  type_eqb type AVMEDIA_TYPE_AUDIO ||
  type_eqb type AVMEDIA_TYPE_SUBTITLE.

End Classify.

Arguments Classify.is_video_codec_supported : simpl never.
Arguments Classify.is_audio_codec_supported : simpl never.
Arguments Classify.is_subtitle_codec_supported : simpl never.
Arguments Classify.is_text_subtitle : simpl never.
Arguments Classify.is_bitmap_subtitle : simpl never.

(** ** The C string functions the program calls *)

Module CString.

(** Undefined behaviour made explicit: a computation either yields a value,
    or has written past the end of a fixed array, or has incremented an [int]
    that held [INT_MAX]. *)
Inductive result (A : Type) : Type :=
| Ok (a : A)
| BufferOverrun
| SignedOverflow.
Arguments Ok {A} a.
Arguments BufferOverrun {A}.
Arguments SignedOverflow {A}.

Definition bind {A B : Type} (r : result A) (k : A -> result B) : result B :=
  match r with
  | Ok a => k a
  | BufferOverrun => BufferOverrun
  | SignedOverflow => SignedOverflow
  end.

(** The first [n] bytes of [s]. *)
Definition truncate (n : nat) (s : string) : string := substring 0 n s.

(** [snprintf(buf, size, fmt, ...)] where the format expands to [text]:
    at most [size - 1] bytes are stored. *)
Definition snprintf (size : nat) (text : string) : string :=
  truncate (size - 1) text.

(** [snprintf(buf + strlen(buf), size - strlen(buf), fmt, ...)]: formatted
    text appended to what [buf] holds, within the array's [size] bytes. *)
Definition snprintf_append (size : nat) (buf text : string) : string :=
  (buf ++ truncate (size - String.length buf - 1) text)%string.

(** [strcat(dest, src)] into an array of [size] bytes.  The copy is unchecked:
    it needs [strlen(dest) + strlen(src) + 1] bytes. *)
Definition strcat (size : nat) (dest src : string) : result string :=
  if (String.length dest + String.length src <? size)%nat
  then Ok (dest ++ src)%string
  else BufferOverrun.

(** [strstr(haystack, needle)]: the tail of [haystack] from the first
    occurrence of [needle], [None] for a [NULL] result. *)
Fixpoint starts_with (needle s : string) : bool :=
  match needle, s with
  | EmptyString, _ => true
  | String _ _, EmptyString => false
  | String a needle', String b s' => Ascii.eqb a b && starts_with needle' s'
  end.

Fixpoint strstr (haystack needle : string) : option string :=
  if starts_with needle haystack then Some haystack
  else match haystack with
       | EmptyString => None
       | String _ rest => strstr rest needle
       end.

(** [strrchr(s, c)]: the tail of [s] from the last occurrence of [c]. *)
Fixpoint strrchr (s : string) (c : ascii) : option string :=
  match s with
  | EmptyString => None
  | String a rest =>
      match strrchr rest c with
      | Some tail => Some tail
      | None => if Ascii.eqb a c then Some s else None
      end
  end.

(** [tolower] in the C locale, and [strcasecmp(a, b) == 0]. *)
Definition tolower (c : ascii) : ascii :=
  let n := nat_of_ascii c in
  if ((65 <=? n) && (n <=? 90))%nat then ascii_of_nat (n + 32) else c.

Fixpoint strcasecmp_eq (a b : string) : bool :=
  match a, b with
  | EmptyString, EmptyString => true
  | String x a', String y b' =>
      Ascii.eqb (tolower x) (tolower y) && strcasecmp_eq a' b'
  | _, _ => false
  end.

(** The [%d] conversion of [printf]. *)
Definition fmt_d (n : Z) : string := NilEmpty.string_of_int (Z.to_int n).

End CString.
Import CString.

Notation "x <- r ;; k" := (bind r (fun x => k))
  (at level 61, r at next level, right associativity).

(** ** Paths and shell quoting *)

Definition PATH_BUF_SIZE : nat := Z.to_nat 4096.

(** [sizeof] of the arrays [cmd], [remux_cmd] and [line] (8192 bytes) and of
    each of [v_opts], [a_opts] and [s_opts] (1024 bytes). *)
Definition CMD_BUF_SIZE : nat := Z.to_nat 8192.
Definition OPTS_BUF_SIZE : nat := Z.to_nat 1024.

Definition has_supported_extension (filename : string) : bool :=
  match strrchr filename "." with
  | None => false
  | Some dot =>
      existsb (fun ext => strcasecmp_eq dot ext)
              [".mkv"; ".mp4"; ".mov"; ".webm"; ".avi"]
  end.

Definition get_basename (path : string) : string :=
  match strrchr path "/" with
  | Some (String _ after) => after
  | _ => path
  end.

(** The body of the [for] loop of [shell_escape_single]: [out] is the text
    written so far, below the cursor [p]. *)
Fixpoint shell_escape_loop (input out : string) : string :=
  match input with
  | EmptyString => out
  | String c rest =>
      if Ascii.eqb c "'"
      then shell_escape_loop rest (out ++ "'\''")
      else shell_escape_loop rest (out ++ String c EmptyString)
  end.

Definition shell_escape_single (input : string) : string :=
  (shell_escape_loop input "'" ++ "'")%string.

(** The size handed to [malloc] in [shell_escape_single]. *)
Definition shell_escape_alloc (input : string) : nat :=
  (String.length input * 4 + 4)%nat.

Definition is_container_supported (format_name : option string) : bool :=
  match format_name with
  | None => false
  | Some name =>
      let found needle :=
        match strstr name needle with Some _ => true | None => false end in
      found "matroska" ||
      found "mp4" ||
      found "mov" ||
      found "mpegts" ||
      found "webm" ||
      found "avi" ||
      found "asf" ||
      found "wav" ||
      found "flac" ||
      found "mp3" ||
      found "ogg" ||
      found "wmv"
  end.

(** ** The analysis of one file *)

Import Classify.

(** The largest and the smallest [int] (32 bits), and [x++] on an [int]:
    the value is [x + 1] below [INT_MAX]; at [INT_MAX] the increment
    overflows, which C leaves undefined. *)
Definition INT_MAX : Z := 2147483647.
Definition INT_MIN : Z := -2147483648.

Definition int_incr (x : Z) : result Z :=
  if x <? INT_MAX then Ok (x + 1) else SignedOverflow.

(** The process-wide counters.  They are C [int]s, held in [Z] and
    incremented with [int_incr]. *)
Record Summary : Set := mkSummary {
  total : Z;
  ok : Z;
  not_supported : Z;
  errors : Z
}.

(** The global mode flags set by the command line. *)
Record Globals : Set := mkGlobals {
  brief_mode : bool;
  skip_ok : bool;
  skip_unfixable : bool
}.

(** What [avformat_open_input] and [avformat_find_stream_info] give for the
    file: a negative return code of either, or the probed context. *)
Inductive ProbeResult : Set :=
| OpenInputFailed (ret : Z)
| FindStreamInfoFailed (ret : Z)
| Probed (fmt_ctx : AVFormatContext).

(** Standard output: what [check_file] prints, one constructor per kind of
    line.  [OutHeader] is the rule, the file name and the container line;
    [OutRemux] and [OutTranscode] carry the command text. *)
Inductive Output : Set :=
| OutOpenError (filename : string) (ret : Z)
| OutStreamInfoError (filename : string) (ret : Z)
| OutBriefLine (filename line : string)
| OutHeader (filename container : string) (container_ok : bool)
| OutStream (i : Z) (type : AVMediaType) (codec : AVCodecID) (lang : string)
            (supported : bool)
| OutBitmapNote (i : Z) (codec : AVCodecID)
| OutOverall (all_supported : bool)
| OutRemux (remux_cmd : string)
| OutTranscode (cmd : string)
| OutNewline.

(** The flags of the first pass over the streams. *)
Record Flags : Set := mkFlags {
  all_supported : bool;
  has_video : bool;
  has_audio : bool;
  can_transcode : bool;
  has_unsupported_bitmap_subtitle : bool
}.

(** The local variables of the loop that builds the transcode command. *)
Record Builder : Set := mkBuilder {
  cmd : string;                                   (* char cmd[8192] *)
  v_cnt : Z; a_cnt : Z; s_cnt : Z;
  v_opts : string; a_opts : string; s_opts : string;   (* char [1024] each *)
  had_video : bool; had_audio : bool; had_sub : bool
}.

Definition COLOR_GREEN : string := String (ascii_of_nat 27) "[32m".
Definition COLOR_RED : string := String (ascii_of_nat 27) "[31m".
Definition COLOR_RESET : string := String (ascii_of_nat 27) "[0m".

Definition is_video (par : AVCodecParameters) : bool :=
  type_eqb (codec_type par) AVMEDIA_TYPE_VIDEO.
Definition is_audio (par : AVCodecParameters) : bool :=
  type_eqb (codec_type par) AVMEDIA_TYPE_AUDIO.
Definition is_subtitle (par : AVCodecParameters) : bool :=
  type_eqb (codec_type par) AVMEDIA_TYPE_SUBTITLE.

(** The [if]/[else if] chain that sets [supported] (initially 1) in the two
    printing loops. *)
Definition stream_supported (par : AVCodecParameters) : bool :=
  if is_video par then is_video_codec_supported par
  else if is_audio par then is_audio_codec_supported (codec_id par)
  else if is_subtitle par then is_subtitle_codec_supported (codec_id par)
  else true.

Definition stream_lang (st : AVStream) : string :=
  match language st with
  | Some value => value
  | None => "und"
  end.

(** One iteration of the first pass. *)
Definition first_pass_step (f : Flags) (st : AVStream) : Flags :=
  let par := codecpar st in
  if negb (is_media_stream (codec_type par)) then f
  else
    let '(supported, f) :=
      if is_video par then
        let supported := is_video_codec_supported par in
        (supported,
         mkFlags (all_supported f) true (has_audio f)
                 (if negb supported then true else can_transcode f)
                 (has_unsupported_bitmap_subtitle f))
      else if is_audio par then
        let supported := is_audio_codec_supported (codec_id par) in
        (supported,
         mkFlags (all_supported f) (has_video f) true
                 (if negb supported then true else can_transcode f)
                 (has_unsupported_bitmap_subtitle f))
      else if is_subtitle par then
        let supported := is_subtitle_codec_supported (codec_id par) in
        (supported,
         if negb supported then
           if is_bitmap_subtitle (codec_id par)
           then mkFlags (all_supported f) (has_video f) (has_audio f)
                        (can_transcode f) true
           else mkFlags (all_supported f) (has_video f) (has_audio f)
                        true (has_unsupported_bitmap_subtitle f)
         else f)
      else (true, f) in
    if negb supported
    then mkFlags false (has_video f) (has_audio f) (can_transcode f)
                 (has_unsupported_bitmap_subtitle f)
    else f.

Definition first_pass (container_ok : bool) (ss : list AVStream) : Flags :=
  fold_left first_pass_step ss (mkFlags container_ok false false false false).

(** The per-stream rows of the verbose report. *)
Fixpoint print_streams (i : Z) (ss : list AVStream) : list Output :=
  match ss with
  | [] => []
  | st :: rest =>
      let par := codecpar st in
      if negb (is_media_stream (codec_type par)) then print_streams (i + 1) rest
      else
        let supported := stream_supported par in
        OutStream i (codec_type par) (codec_id par) (stream_lang st) supported
        :: (if negb supported && is_subtitle par
               && is_bitmap_subtitle (codec_id par)
            then [OutBitmapNote i (codec_id par)] else [])
        ++ print_streams (i + 1) rest
  end.

(** The suggested remuxing command ([remux_cmd], 8192 bytes). *)
Definition remux_command (filepath : string) : string :=
  let remuxed_basename :=
    snprintf PATH_BUF_SIZE ("remuxed_" ++ get_basename filepath ++ ".mkv") in
  let escaped_in := shell_escape_single filepath in
  let escaped_out := shell_escape_single remuxed_basename in
  snprintf CMD_BUF_SIZE ("ffmpeg -i " ++ escaped_in ++ " -map 0 -c copy " ++ escaped_out).

(** One iteration of the loop over the streams that fills [cmd] with the
    [-map] selectors and the three option buffers with codec selections. *)
Definition transcode_step (b : Builder) (st : AVStream) : result Builder :=
  let par := codecpar st in
  if negb (is_media_stream (codec_type par)) then Ok b
  else if is_video par then
    let supported := is_video_codec_supported par in
    c <- (if negb (had_video b) then strcat CMD_BUF_SIZE (cmd b) " -map 0:v"
          else Ok (cmd b)) ;;
    Ok (mkBuilder c (v_cnt b + 1) (a_cnt b) (s_cnt b)
          (snprintf_append OPTS_BUF_SIZE (v_opts b)
             (" -c:v:" ++ fmt_d (v_cnt b) ++ " "
              ++ (if supported then "copy" else "libx264")))
          (a_opts b) (s_opts b)
          true (had_audio b) (had_sub b))
  else if is_audio par then
    let supported := is_audio_codec_supported (codec_id par) in
    c <- (if negb (had_audio b) then strcat CMD_BUF_SIZE (cmd b) " -map 0:a"
          else Ok (cmd b)) ;;
    Ok (mkBuilder c (v_cnt b) (a_cnt b + 1) (s_cnt b)
          (v_opts b)
          (snprintf_append OPTS_BUF_SIZE (a_opts b)
             (" -c:a:" ++ fmt_d (a_cnt b) ++ " "
              ++ (if supported then "copy" else "aac")))
          (s_opts b)
          (had_video b) true (had_sub b))
  else if is_subtitle par then
    let supported := is_subtitle_codec_supported (codec_id par) in
    c <- (if negb (had_sub b) then strcat CMD_BUF_SIZE (cmd b) " -map 0:s"
          else Ok (cmd b)) ;;
    Ok (mkBuilder c (v_cnt b) (a_cnt b) (s_cnt b + 1)
          (v_opts b) (a_opts b)
          (if negb supported then
             if is_text_subtitle (codec_id par)
             then snprintf_append OPTS_BUF_SIZE (s_opts b)
                    (" -c:s:" ++ fmt_d (s_cnt b) ++ " srt")
             else snprintf_append OPTS_BUF_SIZE (s_opts b)
                    (" -c:s:" ++ fmt_d (s_cnt b) ++ " copy")
           else snprintf_append OPTS_BUF_SIZE (s_opts b)
                  (" -c:s:" ++ fmt_d (s_cnt b) ++ " copy"))
          (had_video b) (had_audio b) true)
  else Ok b.

Fixpoint transcode_loop (ss : list AVStream) (b : Builder) : result Builder :=
  match ss with
  | [] => Ok b
  | st :: rest => b' <- transcode_step b st ;; transcode_loop rest b'
  end.

(** The name of the transcoded file: the base name up to its last dot. *)
Definition fixed_basename (filepath : string) : string :=
  let base := get_basename filepath in
  match strrchr base "." with
  | Some dot =>
      snprintf PATH_BUF_SIZE
        ("fixed_" ++ truncate (String.length base - String.length dot) base
         ++ ".mkv")
  | None => snprintf PATH_BUF_SIZE ("fixed_" ++ base ++ ".mkv")
  end.

(** The suggested transcoding command ([cmd], 8192 bytes). *)
Definition transcode_command (filepath : string) (ss : list AVStream)
  : result string :=
  let escaped_in := shell_escape_single filepath in
  let escaped_out := shell_escape_single (fixed_basename filepath) in
  let cmd0 := snprintf CMD_BUF_SIZE ("ffmpeg -i " ++ escaped_in) in
  b <- transcode_loop ss (mkBuilder cmd0 0 0 0 "" "" "" false false false) ;;
  c <- strcat CMD_BUF_SIZE (cmd b) (v_opts b) ;;
  c <- strcat CMD_BUF_SIZE c (a_opts b) ;;
  c <- strcat CMD_BUF_SIZE c (s_opts b) ;;
  Ok (snprintf_append CMD_BUF_SIZE c (" " ++ escaped_out)).

(** [container]: the format name, or "unknown" when the context has none. *)
Definition container_name (fmt_ctx : AVFormatContext) : string :=
  match iformat_name fmt_ctx with
  | Some name => name
  | None => "unknown"
  end.

(** The outcome flags of a probed file, as the verbose path computes them. *)
Definition file_flags (fmt_ctx : AVFormatContext) : Flags :=
  first_pass (is_container_supported (Some (container_name fmt_ctx)))
             (streams fmt_ctx).

Section Analysis.

(** [avcodec_get_name] of libavcodec: the printable name of a codec. *)
Variable avcodec_get_name : AVCodecID -> string.

(** The brief line: [line] is what the array holds, [linelen] the running sum
    of what [snprintf] returned (the untruncated lengths).  Once [linelen]
    exceeds the array, the next [snprintf] is handed a pointer past its end. *)
Record Brief : Set := mkBrief {
  line : string;
  linelen : nat;
  has_unsupported : bool
}.

Definition brief_snprintf (b : Brief) (text : string) (unsupported : bool)
  : result Brief :=
  if (linelen b <=? CMD_BUF_SIZE)%nat
  then Ok (mkBrief (line b ++ truncate (CMD_BUF_SIZE - linelen b - 1) text)
                   (linelen b + String.length text)
                   unsupported)
  else BufferOverrun.

Definition type_label (par : AVCodecParameters) : string :=
  if is_video par then "video"
  else if is_audio par then "audio"
  else if is_subtitle par then "subtitle"
  else "(null)".

Fixpoint brief_loop (i : Z) (ss : list AVStream) (b : Brief) : result Brief :=
  match ss with
  | [] => Ok b
  | st :: rest =>
      let par := codecpar st in
      if negb (is_media_stream (codec_type par)) then brief_loop (i + 1) rest b
      else
        let supported := stream_supported par in
        b' <- brief_snprintf b
                ((if supported then COLOR_GREEN else COLOR_RED)
                 ++ "[" ++ fmt_d i ++ ":" ++ type_label par ++ ":"
                 ++ avcodec_get_name (codec_id par) ++ ":" ++ stream_lang st
                 ++ "]" ++ COLOR_RESET)
                (if negb supported then true else has_unsupported b) ;;
        brief_loop (i + 1) rest b'
  end.

(** [summary->ok++; summary->total++;], [summary->not_supported++;
    summary->total++;] and [summary->errors++;]. *)
Definition count_ok (s : Summary) : result Summary :=
  ok' <- int_incr (ok s) ;;
  total' <- int_incr (total s) ;;
  Ok (mkSummary total' ok' (not_supported s) (errors s)).
Definition count_not_supported (s : Summary) : result Summary :=
  not_supported' <- int_incr (not_supported s) ;;
  total' <- int_incr (total s) ;;
  Ok (mkSummary total' (ok s) not_supported' (errors s)).
Definition count_error (s : Summary) : result Summary :=
  errors' <- int_incr (errors s) ;;
  Ok (mkSummary (total s) (ok s) (not_supported s) errors').

Definition check_file (g : Globals) (probe : ProbeResult)
    (filepath : string) (show_full_path : bool) (summary : Summary)
  : result (list Output * Summary) :=
  let filename := if show_full_path then filepath else get_basename filepath in
  if negb (has_supported_extension filepath) then Ok ([], summary)
  else
  match probe with
  | OpenInputFailed ret =>
      summary' <- count_error summary ;;
      Ok ([OutOpenError filename ret], summary')
  | FindStreamInfoFailed ret =>
      summary' <- count_error summary ;;
      Ok ([OutStreamInfoError filename ret], summary')
  | Probed fmt_ctx =>
      let container := container_name fmt_ctx in
      let container_ok := is_container_supported (Some container) in
      if brief_mode g then
        b <- (if negb container_ok
              then brief_snprintf (mkBrief "" 0 false)
                     (COLOR_RED ++ "[container:" ++ container ++ "]"
                      ++ COLOR_RESET) true
              else Ok (mkBrief "" 0 false)) ;;
        b <- brief_loop 0 (streams fmt_ctx) b ;;
        if has_unsupported b
        then summary' <- count_not_supported summary ;;
             Ok ([OutBriefLine filename (line b)], summary')
        else summary' <- count_ok summary ;; Ok ([], summary')
      else
        let f := first_pass container_ok (streams fmt_ctx) in
        if skip_ok g && all_supported f
        then summary' <- count_ok summary ;; Ok ([], summary')
        else if skip_unfixable g && negb (all_supported f)
                && negb (can_transcode f) && has_unsupported_bitmap_subtitle f
        then summary' <- count_not_supported summary ;; Ok ([], summary')
        else
          let report :=
            OutHeader filename container container_ok
            :: print_streams 0 (streams fmt_ctx)
            ++ [OutOverall (all_supported f)] in
          let remux :=
            if negb (all_supported f) && (has_video f || has_audio f)
            then [OutRemux (remux_command filepath)] else [] in
          transcode <-
            (if negb (all_supported f) && (has_video f || has_audio f)
                && can_transcode f
             then c <- transcode_command filepath (streams fmt_ctx) ;;
                  Ok [OutTranscode c]
             else Ok []) ;;
          summary' <- (if all_supported f then count_ok summary
                       else count_not_supported summary) ;;
          Ok (report ++ remux ++ transcode ++ [OutNewline], summary')
  end.

End Analysis.

(** ** The traversal and the entry point *)

(** What the program asks of the system it runs on: [stat] (the kind of a
    path, [None] for -1), the names [readdir] yields for a directory
    ([None] when [opendir] fails), [fnmatch(pattern, path, 0) == 0], the
    prober and [avcodec_get_name]. *)
Inductive FileKind : Set := IsDirectory | IsRegular | IsOther.

Record Host : Type := mkHost {
  host_stat : string -> option FileKind;
  host_readdir : string -> option (list string);
  host_fnmatch : string -> string -> bool;
  host_probe : string -> ProbeResult;
  host_codec_name : AVCodecID -> string
}.

(** Standard error, one constructor per [fprintf(stderr, ...)]. *)
Inductive Diagnostic : Set :=
| ErrUsage
| ErrNoInput
| ErrStat (input : string)
| ErrNotFileOrDirectory (input : string)
| ErrOpendir (dirpath : string).

(** What a run has printed and counted so far. *)
Record Report : Set := mkReport {
  printed : list Output;
  diagnostics : list Diagnostic;
  counters : Summary
}.

Definition is_excluded (h : Host) (path : string) (excludes : list string)
  : bool :=
  existsb (fun pattern => host_fnmatch h pattern path) excludes.

(** [check_file] called from the traversal: its output follows what was
    printed, its summary replaces the counters. *)
Definition check_into (h : Host) (g : Globals) (path : string)
    (show_full_path : bool) (r : Report) : result Report :=
  res <- check_file (host_codec_name h) g (host_probe h path) path
                    show_full_path (counters r) ;;
  Ok (mkReport (printed r ++ fst res) (diagnostics r) (snd res)).

(** The [while] loop of [scan_dir] over the names [readdir] yields;
    [recurse] is the recursive call.  [None] stands for a recursion that
    does not come back. *)
Fixpoint scan_entries
    (recurse : string -> Report -> option (result Report))
    (h : Host) (g : Globals) (dirpath : string) (excludes : list string)
    (show_full_path : bool) (names : list string) (r : Report)
  : option (result Report) :=
  match names with
  | [] => Some (Ok r)
  | d_name :: rest =>
      let continue_with r' :=
        scan_entries recurse h g dirpath excludes show_full_path rest r' in
      if String.eqb d_name "." || String.eqb d_name ".." then continue_with r
      else
        let path := snprintf PATH_BUF_SIZE (dirpath ++ "/" ++ d_name) in
        match host_stat h path with
        | None => continue_with r
        | Some IsDirectory =>
            if is_excluded h path excludes then continue_with r
            else
              match recurse path r with
              | Some (Ok r') => continue_with r'
              | stopped => stopped
              end
        | Some IsRegular =>
            match check_into h g path show_full_path r with
            | Ok r' => continue_with r'
            | BufferOverrun => Some BufferOverrun
            | SignedOverflow => Some SignedOverflow
            end
        | Some IsOther => continue_with r
        end
  end.

(** [scan_dir], with the depth of the recursion bounded by [fuel]. *)
Fixpoint scan_dir (fuel : nat) (h : Host) (g : Globals) (dirpath : string)
    (excludes : list string) (show_full_path : bool) (r : Report)
  : option (result Report) :=
  match fuel with
  | O => None
  | S fuel' =>
      match host_readdir h dirpath with
      | None =>
          Some (Ok (mkReport (printed r)
                             (diagnostics r ++ [ErrOpendir dirpath])
                             (counters r)))
      | Some names =>
          scan_entries
            (fun path r' => scan_dir fuel' h g path excludes show_full_path r')
            h g dirpath excludes show_full_path names r
      end
  end.

(** The command line as the [for] loop of [main] reads it. *)
Record CommandLine : Set := mkCommandLine {
  cl_excludes : list string;
  cl_show_full_path : bool;
  cl_modes : Globals;
  cl_input : option string
}.

Definition no_arguments : CommandLine :=
  mkCommandLine [] false (mkGlobals false false false) None.

Fixpoint parse_arguments (args : list string) (c : CommandLine) : CommandLine :=
  match args with
  | [] => c
  | arg :: rest =>
      let otherwise :=
        if String.eqb arg "--fullpath" then
          parse_arguments rest
            (mkCommandLine (cl_excludes c) true (cl_modes c) (cl_input c))
        else if String.eqb arg "--brief" then
          parse_arguments rest
            (mkCommandLine (cl_excludes c) (cl_show_full_path c)
               (mkGlobals true (skip_ok (cl_modes c))
                          (skip_unfixable (cl_modes c)))
               (cl_input c))
        else if String.eqb arg "--skip-ok" then
          parse_arguments rest
            (mkCommandLine (cl_excludes c) (cl_show_full_path c)
               (mkGlobals (brief_mode (cl_modes c)) true
                          (skip_unfixable (cl_modes c)))
               (cl_input c))
        else if String.eqb arg "--skip-unfixable" then
          parse_arguments rest
            (mkCommandLine (cl_excludes c) (cl_show_full_path c)
               (mkGlobals (brief_mode (cl_modes c)) (skip_ok (cl_modes c))
                          true)
               (cl_input c))
        else
          match cl_input c with
          | None =>
              parse_arguments rest
                (mkCommandLine (cl_excludes c) (cl_show_full_path c)
                               (cl_modes c) (Some arg))
          | Some _ => parse_arguments rest c
          end in
      if String.eqb arg "--exclude" then
        match rest with
        | pattern :: rest' =>
            parse_arguments rest'
              (mkCommandLine (cl_excludes c ++ [pattern])
                             (cl_show_full_path c) (cl_modes c) (cl_input c))
        | [] => otherwise
        end
      else otherwise
  end.

(** What [main] leaves behind: the exit code, standard output (the files'
    lines, then the summary block unless in brief mode) and standard error. *)
Record Exit : Set := mkExit {
  exit_code : Z;
  exit_printed : list Output;
  exit_summary : option Summary;
  exit_diagnostics : list Diagnostic
}.

Definition finish (c : CommandLine) (r : Report) : Exit :=
  mkExit 0 (printed r)
         (if brief_mode (cl_modes c) then None else Some (counters r))
         (diagnostics r).

(** [main] on [argv] (the program name first). *)
Definition main (fuel : nat) (h : Host) (argv : list string)
  : option (result Exit) :=
  if (List.length argv <? 2)%nat then Some (Ok (mkExit 1 [] None [ErrUsage]))
  else
    let c := parse_arguments (tl argv) no_arguments in
    match cl_input c with
    | None => Some (Ok (mkExit 1 [] None [ErrNoInput]))
    | Some input =>
        let start := mkReport [] [] (mkSummary 0 0 0 0) in
        match host_stat h input with
        | None => Some (Ok (mkExit 1 [] None [ErrStat input]))
        | Some IsDirectory =>
            match scan_dir fuel h (cl_modes c) input (cl_excludes c)
                           (cl_show_full_path c) start with
            | Some (Ok r) => Some (Ok (finish c r))
            | Some BufferOverrun => Some BufferOverrun
            | Some SignedOverflow => Some SignedOverflow
            | None => None
            end
        | Some IsRegular =>
            match check_into h (cl_modes c) input (cl_show_full_path c) start
            with
            | Ok r => Some (Ok (finish c r))
            | BufferOverrun => Some BufferOverrun
            | SignedOverflow => Some SignedOverflow
            end
        | Some IsOther =>
            Some (Ok (mkExit 1 [] None [ErrNotFileOrDirectory input]))
        end
    end.

(** ** The properties, stated on their own terms *)

Module Spec.

(** The video allow-list, the excluded FourCCs and the excluded profiles. *)
Definition video_allow_list : list AVCodecID :=
  [AV_CODEC_ID_H264; AV_CODEC_ID_HEVC; AV_CODEC_ID_MPEG2VIDEO; AV_CODEC_ID_VP9;
   AV_CODEC_ID_AV1; AV_CODEC_ID_MJPEG; AV_CODEC_ID_PNG].

Definition excluded_tags : list Z :=
  [MKTAG "X" "V" "I" "D"; MKTAG "x" "v" "i" "d";
   MKTAG "D" "I" "V" "X"; MKTAG "d" "i" "v" "x";
   MKTAG "D" "X" "5" "0";
   MKTAG "M" "P" "4" "V"; MKTAG "m" "p" "4" "v";
   MKTAG "F" "M" "P" "4"; MKTAG "f" "m" "p" "4"].

Definition excluded_profiles : list Z :=
  [FF_PROFILE_MPEG4_ADVANCED_SIMPLE; FF_PROFILE_MPEG4_SIMPLE_STUDIO].

(** The subtitle codecs that are text. *)
Definition text_subtitle_codecs : list AVCodecID :=
  [AV_CODEC_ID_SUBRIP; AV_CODEC_ID_ASS; AV_CODEC_ID_SSA; AV_CODEC_ID_WEBVTT;
   AV_CODEC_ID_MOV_TEXT; AV_CODEC_ID_MICRODVD; AV_CODEC_ID_TEXT].

(** The subtitle codecs that are bitmaps. *)
Definition bitmap_subtitle_codecs : list AVCodecID :=
  [AV_CODEC_ID_HDMV_PGS_SUBTITLE; AV_CODEC_ID_DVD_SUBTITLE].

(** The container allow-list and the substring relation. *)
Definition container_allow_list : list string :=
  ["matroska"; "mp4"; "mov"; "mpegts"; "webm"; "avi"; "asf"; "wav"; "flac";
   "mp3"; "ogg"; "wmv"].

Definition contains (s needle : string) : Prop :=
  exists before after, s = (before ++ needle ++ after)%string.

(** A stream counts when it is video, audio or subtitle. *)
Definition media (st : AVStream) : bool :=
  is_media_stream (codec_type (codecpar st)).

(** A stream that is unsupported for another reason than being a bitmap
    subtitle: an unsupported video or audio stream, or an unsupported
    subtitle that is not a bitmap. *)
Definition needs_reencoding (par : AVCodecParameters) : bool :=
  negb (stream_supported par)
  && negb (is_subtitle par && is_bitmap_subtitle (codec_id par)).

(** A subtitle stream of a bitmap codec. *)
Definition bitmap_subtitle_stream (par : AVCodecParameters) : Prop :=
  codec_type par = AVMEDIA_TYPE_SUBTITLE /\
  In (codec_id par) bitmap_subtitle_codecs.

(** A stream that requires re-encoding: an unsupported video or audio
    stream, or an unsupported subtitle that is not a bitmap. *)
Definition requires_reencoding (par : AVCodecParameters) : Prop :=
  (codec_type par = AVMEDIA_TYPE_VIDEO /\ is_video_codec_supported par = false)
  \/ (codec_type par = AVMEDIA_TYPE_AUDIO /\
      is_audio_codec_supported (codec_id par) = false)
  \/ (codec_type par = AVMEDIA_TYPE_SUBTITLE /\
      is_subtitle_codec_supported (codec_id par) = false /\
      is_bitmap_subtitle (codec_id par) = false).

(** A video or an audio stream. *)
Definition audio_or_video (par : AVCodecParameters) : Prop :=
  codec_type par = AVMEDIA_TYPE_VIDEO \/ codec_type par = AVMEDIA_TYPE_AUDIO.




(** *** Shell quoting *)

(** What replaces one character inside the quotes. *)
Definition quote_char (c : ascii) : string :=
  if Ascii.eqb c "'" then "'\''" else String c EmptyString.

Fixpoint quote_body (s : string) : string :=
  match s with
  | EmptyString => EmptyString
  | String c rest => (quote_char c ++ quote_body rest)%string
  end.

(** How a POSIX shell reads one word.  Outside quotes, a single quote opens a
    quoted part, a backslash makes the next character literal (and removes a
    following newline), any other character with a meaning to the shell ends
    the word's being one plain token; inside single quotes every character
    is literal up to the closing quote. *)
Inductive Quoting : Set := Unquoted | Escaped | SingleQuoted.

Definition sh_special (c : ascii) : bool :=
  let n := nat_of_ascii c in
  existsb (Nat.eqb n)
    [9; 10; 32; 33; 34; 35; 36; 37; 38; 40; 41; 42; 59; 60; 61; 62; 63; 91;
     96; 123; 124; 125; 126]%nat.

Fixpoint sh_word (q : Quoting) (token : string) : option string :=
  match token with
  | EmptyString =>
      match q with
      | Unquoted => Some EmptyString
      | _ => None
      end
  | String c rest =>
      match q with
      | Unquoted =>
          if Ascii.eqb c "'" then sh_word SingleQuoted rest
          else if Ascii.eqb c "\" then sh_word Escaped rest
          else if sh_special c then None
          else option_map (String c) (sh_word Unquoted rest)
      | Escaped =>
          if Ascii.eqb c (ascii_of_nat 10) then sh_word Unquoted rest
          else option_map (String c) (sh_word Unquoted rest)
      | SingleQuoted =>
          if Ascii.eqb c "'" then sh_word Unquoted rest
          else option_map (String c) (sh_word SingleQuoted rest)
      end
  end.

(** *** The transcode command *)

Definition type_letter (t : AVMediaType) : string :=
  match t with
  | AVMEDIA_TYPE_VIDEO => "v"
  | AVMEDIA_TYPE_AUDIO => "a"
  | AVMEDIA_TYPE_SUBTITLE => "s"
  | _ => ""
  end.

(** The media types of the video, audio and subtitle streams, in stream
    order. *)
Definition media_types (ss : list AVStream) : list AVMediaType :=
  map (fun st => codec_type (codecpar st)) (filter media ss).

(** The members of [ts] not in [seen], each once, at its first occurrence. *)
Fixpoint first_seen (seen ts : list AVMediaType) : list AVMediaType :=
  match ts with
  | [] => []
  | t :: rest =>
      if in_dec AVMediaType_eq_dec t seen then first_seen seen rest
      else t :: first_seen (t :: seen) rest
  end.

Definition join (l : list string) : string :=
  fold_right String.append EmptyString l.

(** One [-map 0:<letter>] per media type present, in first-seen order. *)
Definition map_selectors (ss : list AVStream) : string :=
  join (map (fun t => (" -map 0:" ++ type_letter t)%string)
            (first_seen [] (media_types ss))).

(** Whether the type [t] is among [seen]. *)
Definition met (t : AVMediaType) (seen : list AVMediaType) : bool :=
  if in_dec AVMediaType_eq_dec t seen then true else false.

(** The selectors still to come when [hv], [ha] and [hs] tell which types
    the earlier streams had. *)
Fixpoint selectors_from (hv ha hs : bool) (ss : list AVStream) : string :=
  match ss with
  | [] => EmptyString
  | st :: rest =>
      match codec_type (codecpar st) with
      | AVMEDIA_TYPE_VIDEO =>
          ((if hv then "" else " -map 0:v")
           ++ selectors_from true ha hs rest)%string
      | AVMEDIA_TYPE_AUDIO =>
          ((if ha then "" else " -map 0:a")
           ++ selectors_from hv true hs rest)%string
      | AVMEDIA_TYPE_SUBTITLE =>
          ((if hs then "" else " -map 0:s")
           ++ selectors_from hv ha true rest)%string
      | _ => selectors_from hv ha hs rest
      end
  end.

(** The codec chosen for a stream of each type. *)
Definition video_choice (par : AVCodecParameters) : string :=
  if is_video_codec_supported par then "copy" else "libx264".
Definition audio_choice (par : AVCodecParameters) : string :=
  if is_audio_codec_supported (codec_id par) then "copy" else "aac".
Definition subtitle_choice (par : AVCodecParameters) : string :=
  if is_subtitle_codec_supported (codec_id par) then "copy"
  else if is_text_subtitle (codec_id par) then "srt"
  else "copy".

Definition codec_flag (letter : string) (n : Z) (choice : string) : string :=
  (" -c:" ++ letter ++ ":" ++ fmt_d n ++ " " ++ choice)%string.

(** The flags of the streams [ps] of one type, numbered from [n]. *)
Fixpoint numbered_flags (letter : string) (choice : AVCodecParameters -> string)
    (n : Z) (ps : list AVCodecParameters) : string :=
  match ps with
  | [] => EmptyString
  | p :: rest =>
      (codec_flag letter n (choice p)
       ++ numbered_flags letter choice (n + 1) rest)%string
  end.

Definition of_type (t : AVMediaType) (ss : list AVStream)
  : list AVCodecParameters :=
  filter (fun par => type_eqb (codec_type par) t) (map codecpar ss).

Definition video_flags (ss : list AVStream) : string :=
  numbered_flags "v" video_choice 0 (of_type AVMEDIA_TYPE_VIDEO ss).
Definition audio_flags (ss : list AVStream) : string :=
  numbered_flags "a" audio_choice 0 (of_type AVMEDIA_TYPE_AUDIO ss).
Definition subtitle_flags (ss : list AVStream) : string :=
  numbered_flags "s" subtitle_choice 0 (of_type AVMEDIA_TYPE_SUBTITLE ss).

(** Subtitle flags that all say [copy]. *)
Definition subtitle_copy_flags (ss : list AVStream) : string :=
  numbered_flags "s" (fun _ => "copy") 0 (of_type AVMEDIA_TYPE_SUBTITLE ss).

(** The flags as the specification words them: one flag appended per stream,
    in stream order, each stream numbered within its own type (the three
    counters are [nv], [na] and [ns]). *)
Fixpoint flags_in_stream_order (nv na ns : Z) (ss : list AVStream) : string :=
  match ss with
  | [] => EmptyString
  | st :: rest =>
      let par := codecpar st in
      match codec_type par with
      | AVMEDIA_TYPE_VIDEO =>
          (codec_flag "v" nv (video_choice par)
           ++ flags_in_stream_order (nv + 1) na ns rest)%string
      | AVMEDIA_TYPE_AUDIO =>
          (codec_flag "a" na (audio_choice par)
           ++ flags_in_stream_order nv (na + 1) ns rest)%string
      | AVMEDIA_TYPE_SUBTITLE =>
          (codec_flag "s" ns (subtitle_choice par)
           ++ flags_in_stream_order nv na (ns + 1) rest)%string
      | _ => flags_in_stream_order nv na ns rest
      end
  end.

(** The transcode command with its flags grouped by type: the selectors,
    then the video flags, the audio flags and the subtitle flags. *)
Definition transcode_text (filepath : string) (ss : list AVStream) : string :=
  ("ffmpeg -i " ++ shell_escape_single filepath
   ++ map_selectors ss
   ++ video_flags ss ++ audio_flags ss ++ subtitle_flags ss
   ++ " " ++ shell_escape_single (fixed_basename filepath))%string.

(** What the arrays hold when texts are cut to the arrays' sizes: the three
    option buffers, and [cmd] before the output name is appended. *)
Definition options_held (ss : list AVStream) : string :=
  (map_selectors ss
   ++ snprintf OPTS_BUF_SIZE (video_flags ss)
   ++ snprintf OPTS_BUF_SIZE (audio_flags ss)
   ++ snprintf OPTS_BUF_SIZE (subtitle_flags ss))%string.

Definition command_held (filepath : string) (ss : list AVStream) : string :=
  (snprintf CMD_BUF_SIZE ("ffmpeg -i " ++ shell_escape_single filepath)
   ++ options_held ss)%string.

(** A path of nine directories, each named by 250 single quotes, to a file
    [a.mkv]: 2265 bytes. *)
Fixpoint quotes (n : nat) : string :=
  match n with
  | O => EmptyString
  | S n' => String "'" (quotes n')
  end.

Fixpoint nested (k : nat) (dir : string) : string :=
  match k with
  | O => EmptyString
  | S k' => ("/" ++ dir ++ nested k' dir)%string
  end.

Definition long_quoted_path : string :=
  (nested 9 (quotes 250) ++ "/a.mkv")%string.

(** Whether the character [c] occurs in [s]. *)
Fixpoint occurs (c : ascii) (s : string) : bool :=
  match s with
  | EmptyString => false
  | String a rest => Ascii.eqb a c || occurs c rest
  end.

(** The transcode command as the specification words it, with the flags in
    stream order. *)
Definition transcode_text_stream_order (filepath : string) (ss : list AVStream)
  : string :=
  ("ffmpeg -i " ++ shell_escape_single filepath
   ++ map_selectors ss
   ++ flags_in_stream_order 0 0 0 ss
   ++ " " ++ shell_escape_single (fixed_basename filepath))%string.

(** The remux command as the specification words it. *)
Definition remux_text (filepath : string) : string :=
  ("ffmpeg -i " ++ shell_escape_single filepath ++ " -map 0 -c copy "
   ++ shell_escape_single ("remuxed_" ++ get_basename filepath ++ ".mkv"))%string.

(** The room the escaped input path may take for [cmd] to hold it behind
    "ffmpeg -i " together with three selectors and three full option buffers,
    whatever the streams: 8191 - 10 - 27 - 3 * 1023. *)
Definition escaped_input_room : nat := Z.to_nat 5085.

(** A file with an Xvid video stream and eighty SRT subtitles. *)
Definition eighty_subtitles : list AVStream :=
  mkStream (mkPar AVMEDIA_TYPE_VIDEO AV_CODEC_ID_MPEG4 (MKTAG "X" "V" "I" "D") 0)
           None
  :: repeat (mkStream (mkPar AVMEDIA_TYPE_SUBTITLE AV_CODEC_ID_SUBRIP 0 0)
                      (Some "eng")) 80.

(** Whether the output of a run offers a remux or a transcode command. *)
Definition offers_remux (out : list Output) : Prop :=
  exists c, In (OutRemux c) out.
Definition offers_transcode (out : list Output) : Prop :=
  exists c, In (OutTranscode c) out.

End Spec.
Import Spec.

(** ** Further definitions for the properties of the remaining code *)

Module Cover.

Definition audio_allow_list : list AVCodecID :=
  [AV_CODEC_ID_AAC; AV_CODEC_ID_AC3; AV_CODEC_ID_EAC3; AV_CODEC_ID_MP3;
   AV_CODEC_ID_PCM_S16LE; AV_CODEC_ID_FLAC; AV_CODEC_ID_VORBIS;
   AV_CODEC_ID_OPUS; AV_CODEC_ID_WMAV2].

(** The extensions [check_file] lets through, and a string in lower case. *)
Definition supported_extensions : list string :=
  [".mkv"; ".mp4"; ".mov"; ".webm"; ".avi"].

Fixpoint lowercase (s : string) : string :=
  match s with
  | EmptyString => EmptyString
  | String c rest => String (tolower c) (lowercase rest)
  end.

(** How often the character [c] occurs in [s]. *)
Fixpoint count_char (c : ascii) (s : string) : nat :=
  match s with
  | EmptyString => O
  | String a rest => ((if Ascii.eqb a c then 1 else 0) + count_char c rest)%nat
  end.

(** The counters after [check_file], by what the file is: turned away by
    the extension filter, failed to probe, fully supported or not. *)
Definition counted (probe : ProbeResult) (filepath : string) (s : Summary)
  : Summary :=
  if has_supported_extension filepath then
    match probe with
    | OpenInputFailed _ | FindStreamInfoFailed _ =>
        mkSummary (total s) (ok s) (not_supported s) (errors s + 1)
    | Probed fmt_ctx =>
        if all_supported (file_flags fmt_ctx)
        then mkSummary (total s + 1) (ok s + 1) (not_supported s) (errors s)
        else mkSummary (total s + 1) (ok s) (not_supported s + 1) (errors s)
    end
  else s.

(** Some stream of [ss] is video, audio or subtitle and not supported. *)
Definition some_unsupported (ss : list AVStream) : bool :=
  existsb (fun st => media st && negb (stream_supported (codecpar st))) ss.

(** The tags of the brief line: one for an unsupported container, one per
    video, audio or subtitle stream, numbered by the stream's position. *)
Definition container_tag (container : string) : string :=
  (COLOR_RED ++ "[container:" ++ container ++ "]" ++ COLOR_RESET)%string.

Definition stream_tag (codec_name : AVCodecID -> string) (i : Z)
    (st : AVStream) : string :=
  ((if stream_supported (codecpar st) then COLOR_GREEN else COLOR_RED)
   ++ "[" ++ fmt_d i ++ ":" ++ type_label (codecpar st) ++ ":"
   ++ codec_name (codec_id (codecpar st)) ++ ":" ++ stream_lang st
   ++ "]" ++ COLOR_RESET)%string.

Fixpoint stream_tags (codec_name : AVCodecID -> string) (i : Z)
    (ss : list AVStream) : string :=
  match ss with
  | [] => EmptyString
  | st :: rest =>
      ((if media st then stream_tag codec_name i st else "")
       ++ stream_tags codec_name (i + 1) rest)%string
  end.

Definition brief_text (codec_name : AVCodecID -> string)
    (fmt_ctx : AVFormatContext) : string :=
  ((if is_container_supported (Some (container_name fmt_ctx)) then ""
    else container_tag (container_name fmt_ctx))
   ++ stream_tags codec_name 0 (streams fmt_ctx))%string.

(** *** The command line *)

(** What the user means by an argument, and the words of [argv] it takes. *)
Inductive Argument : Set :=
| ArgExclude (pattern : string)
| ArgFullpath
| ArgBrief
| ArgSkipOk
| ArgSkipUnfixable
| ArgPath (path : string).

Definition words (a : Argument) : list string :=
  match a with
  | ArgExclude pattern => ["--exclude"; pattern]
  | ArgFullpath => ["--fullpath"]
  | ArgBrief => ["--brief"]
  | ArgSkipOk => ["--skip-ok"]
  | ArgSkipUnfixable => ["--skip-unfixable"]
  | ArgPath path => [path]
  end.

Definition is_option_word (s : string) : bool :=
  existsb (String.eqb s)
    ["--exclude"; "--fullpath"; "--brief"; "--skip-ok"; "--skip-unfixable"].

(** A path argument is any word that is not an option's name. *)
Definition plain (a : Argument) : Prop :=
  match a with
  | ArgPath path => is_option_word path = false
  | _ => True
  end.

Definition patterns (l : list Argument) : list string :=
  flat_map (fun a => match a with ArgExclude p => [p] | _ => [] end) l.

Definition paths (l : list Argument) : list string :=
  flat_map (fun a => match a with ArgPath p => [p] | _ => [] end) l.

Definition given (a : Argument) (l : list Argument) : bool :=
  existsb (fun b =>
             match a, b with
             | ArgFullpath, ArgFullpath | ArgBrief, ArgBrief
             | ArgSkipOk, ArgSkipOk | ArgSkipUnfixable, ArgSkipUnfixable => true
             | _, _ => false
             end) l.

(** The command line [l] stands for. *)
Definition meaning (l : list Argument) : CommandLine :=
  mkCommandLine (patterns l) (given ArgFullpath l)
    (mkGlobals (given ArgBrief l) (given ArgSkipOk l)
               (given ArgSkipUnfixable l))
    (hd_error (paths l)).

(** One argument's effect on what was read so far. *)
Definition read_argument (c : CommandLine) (a : Argument) : CommandLine :=
  match a with
  | ArgExclude pattern =>
      mkCommandLine (cl_excludes c ++ [pattern]) (cl_show_full_path c)
                    (cl_modes c) (cl_input c)
  | ArgFullpath =>
      mkCommandLine (cl_excludes c) true (cl_modes c) (cl_input c)
  | ArgBrief =>
      mkCommandLine (cl_excludes c) (cl_show_full_path c)
        (mkGlobals true (skip_ok (cl_modes c)) (skip_unfixable (cl_modes c)))
        (cl_input c)
  | ArgSkipOk =>
      mkCommandLine (cl_excludes c) (cl_show_full_path c)
        (mkGlobals (brief_mode (cl_modes c)) true (skip_unfixable (cl_modes c)))
        (cl_input c)
  | ArgSkipUnfixable =>
      mkCommandLine (cl_excludes c) (cl_show_full_path c)
        (mkGlobals (brief_mode (cl_modes c)) (skip_ok (cl_modes c)) true)
        (cl_input c)
  | ArgPath path =>
      match cl_input c with
      | None =>
          mkCommandLine (cl_excludes c) (cl_show_full_path c) (cl_modes c)
                        (Some path)
      | Some _ => c
      end
  end.

(** Codec names for the examples. *)
Definition sample_codec_name (id : AVCodecID) : string :=
  match id with
  | AV_CODEC_ID_H264 => "h264"
  | AV_CODEC_ID_MP3 => "mp3"
  | AV_CODEC_ID_HDMV_PGS_SUBTITLE => "hdmv_pgs_subtitle"
  | _ => "other"
  end.

(** *** The traversal *)

(** Counters that are [int]s. *)
Definition int_counters (s : Summary) : Prop :=
  INT_MIN <= total s <= INT_MAX /\ INT_MIN <= ok s <= INT_MAX /\
  INT_MIN <= not_supported s <= INT_MAX /\ INT_MIN <= errors s <= INT_MAX.

(** A counter that stays, or that was below [INT_MAX] and went up by one;
    counters that each did one or the other. *)
Definition stays_or_steps (x x' : Z) : Prop :=
  x' = x \/ (x < INT_MAX /\ x' = x + 1).

Definition steps (s s' : Summary) : Prop :=
  stays_or_steps (total s) (total s') /\ stays_or_steps (ok s) (ok s') /\
  stays_or_steps (not_supported s) (not_supported s') /\
  stays_or_steps (errors s) (errors s').

(** The counters only grow, the total by as much as ok and not-supported
    together. *)
Definition grows (s s' : Summary) : Prop :=
  total s <= total s' /\ ok s <= ok s' /\
  not_supported s <= not_supported s' /\ errors s <= errors s' /\
  total s' - total s = (ok s' - ok s) + (not_supported s' - not_supported s).

(** A report that continues another: more output, more diagnostics, larger
    counters, nothing taken back. *)
Definition extends (r r' : Report) : Prop :=
  (exists out, printed r' = (printed r ++ out)%list) /\
  (exists more, diagnostics r' = (diagnostics r ++ more)%list) /\
  grows (counters r) (counters r').

(** A report that continues another and keeps its counters [int]s. *)
Definition continues (r r' : Report) : Prop :=
  extends r r' /\
  (int_counters (counters r) -> int_counters (counters r')).

(** The entries the loop of [scan_dir] passes over without a word: [.] and
    [..], what [stat] fails on, what is neither a directory nor a regular
    file, and the excluded directories. *)
Definition passed_over (h : Host) (excludes : list string)
    (dirpath d_name : string) : Prop :=
  d_name = "." \/ d_name = ".." \/
  let path := snprintf PATH_BUF_SIZE (dirpath ++ "/" ++ d_name) in
  host_stat h path = None \/ host_stat h path = Some IsOther \/
  (host_stat h path = Some IsDirectory /\ is_excluded h path excludes = true).

(** A small tree for the examples: [/media] holds [a.mkv], a directory
    [tmp] with [b.avi], and [notes.txt]; a pattern matches the path equal
    to it. *)
Definition sample_fmt : AVFormatContext :=
  mkFmt (Some "matroska,webm")
    [mkStream (mkPar AVMEDIA_TYPE_VIDEO AV_CODEC_ID_H264 0 100) None;
     mkStream (mkPar AVMEDIA_TYPE_AUDIO AV_CODEC_ID_MP3 0 0) (Some "eng")].

Definition sample_host : Host :=
  mkHost
    (fun path =>
       if String.eqb path "/media" then Some IsDirectory
       else if String.eqb path "/media/tmp" then Some IsDirectory
       else if String.eqb path "/media/a.mkv" then Some IsRegular
       else if String.eqb path "/media/tmp/b.avi" then Some IsRegular
       else if String.eqb path "/media/notes.txt" then Some IsRegular
       else None)
    (fun dirpath =>
       if String.eqb dirpath "/media"
       then Some ["."; ".."; "a.mkv"; "tmp"; "notes.txt"]
       else if String.eqb dirpath "/media/tmp" then Some ["."; ".."; "b.avi"]
       else None)
    String.eqb
    (fun path =>
       if String.eqb path "/media/a.mkv" then Probed sample_fmt
       else OpenInputFailed (-2))
    sample_codec_name.

End Cover.
Import Cover.

(** ** Facts about strings *)

Lemma append_nil_r (s : string) : (s ++ "")%string = s.
Proof. induction s as [|c s IH]; simpl; [reflexivity | now rewrite IH]. Qed.

Lemma append_assoc (a b c : string) :
  ((a ++ b) ++ c)%string = (a ++ (b ++ c))%string.
Proof. induction a as [|x a IH]; simpl; [reflexivity | now rewrite IH]. Qed.

Lemma length_append (a b : string) :
  String.length (a ++ b) = (String.length a + String.length b)%nat.
Proof. induction a as [|x a IH]; simpl; [reflexivity | now rewrite IH]. Qed.

Lemma truncate_nil (n : nat) : truncate n "" = "".
Proof. destruct n; reflexivity. Qed.

Lemma truncate_0 (s : string) : truncate 0 s = "".
Proof. destruct s; reflexivity. Qed.

Lemma truncate_cons (n : nat) (c : ascii) (s : string) :
  truncate (S n) (String c s) = String c (truncate n s).
Proof. reflexivity. Qed.

Lemma truncate_all (n : nat) (s : string) :
  (String.length s <= n)%nat -> truncate n s = s.
Proof.
  revert n; induction s as [|c s IH]; intros n Hn.
  - apply truncate_nil.
  - destruct n as [|n]; simpl in Hn; [lia|].
    rewrite truncate_cons, IH by lia. reflexivity.
Qed.

Lemma length_truncate (n : nat) (s : string) :
  String.length (truncate n s) = Nat.min n (String.length s).
Proof.
  revert n; induction s as [|c s IH]; intros n.
  - rewrite truncate_nil. simpl. lia.
  - destruct n as [|n]; [reflexivity|].
    rewrite truncate_cons. simpl. now rewrite IH.
Qed.

Lemma truncate_append (n : nat) (a b : string) :
  truncate n (a ++ b) = (truncate n a ++ truncate (n - String.length a) b)%string.
Proof.
  revert n; induction a as [|c a IH]; intros n; simpl.
  - rewrite truncate_nil, Nat.sub_0_r. reflexivity.
  - destruct n as [|n].
    + rewrite !truncate_0. reflexivity.
    + rewrite !truncate_cons, IH. reflexivity.
Qed.

(** ** The stream classifier *)

Lemma codec_eqb_eq (a b : AVCodecID) : codec_eqb a b = true <-> a = b.
Proof. unfold codec_eqb. destruct (AVCodecID_eq_dec a b); split; congruence. Qed.

Lemma type_eqb_eq (a b : AVMediaType) : type_eqb a b = true <-> a = b.
Proof. unfold type_eqb. destruct (AVMediaType_eq_dec a b); split; congruence. Qed.

(** The nine excluded tags are nine different 32-bit values: the comparison
    is on the bytes, so upper and lower case differ. *)
Lemma excluded_tags_distinct : NoDup excluded_tags.
Proof.
  unfold excluded_tags.
  repeat (constructor; [vm_compute; intuition discriminate|]).
  constructor.
Qed.

Ltac bool_to_prop :=
  repeat rewrite ?orb_true_iff, ?andb_true_iff, ?negb_true_iff, ?orb_false_iff,
    ?andb_false_iff, ?negb_false_iff, ?codec_eqb_eq, ?type_eqb_eq,
    ?Z.eqb_eq, ?Z.eqb_neq in *.

(** C1.  A video stream is classified supported exactly when its codec is on
    the allow-list, or it is MPEG4 with a tag outside the excluded FourCCs and
    a profile outside the two excluded ones; an MPEG4 stream with an excluded
    tag is unsupported whatever its profile. *)
Theorem video_classification_exact :
  forall par : AVCodecParameters,
    (is_video_codec_supported par = true <->
       In (codec_id par) video_allow_list \/
       (codec_id par = AV_CODEC_ID_MPEG4 /\
        ~ In (codec_tag par) excluded_tags /\
        ~ In (profile par) excluded_profiles))
    /\ (codec_id par = AV_CODEC_ID_MPEG4 ->
        In (codec_tag par) excluded_tags ->
        is_video_codec_supported par = false).
Proof.
  intros [ty id tag prof]; simpl.
  assert (Hiff : is_video_codec_supported (mkPar ty id tag prof) = true <->
       In id video_allow_list \/
       (id = AV_CODEC_ID_MPEG4 /\ ~ In tag excluded_tags /\
        ~ In prof excluded_profiles)).
  { unfold is_video_codec_supported, video_allow_list, excluded_tags,
      excluded_profiles; simpl In; simpl codec_id; simpl codec_tag;
      simpl profile.
    bool_to_prop.
    split.
    - intros H. 
      repeat (destruct H as [H|H]; [left; intuition congruence|]).
      right. intuition congruence.
    - intros [H|H].
      + intuition congruence.
      + right. intuition congruence. }
  split; [exact Hiff|].
  intros Hid Htag.
  apply not_true_is_false; intros E.
  apply Hiff in E. destruct E as [E|[_ [E _]]].
  - subst id. unfold video_allow_list in E. cbn [In] in E.
    repeat (destruct E as [E|E]; [discriminate E|]). exact E.
  - contradiction.
Qed.

(** C8.  The text-subtitle predicate and the subtitle-supported predicate
    agree on every codec identifier, and both hold exactly on SRT, ASS, SSA,
    WEBVTT, MOV-TEXT, MICRODVD and plain TEXT. *)
Theorem text_subtitle_same_as_supported :
  forall id : AVCodecID,
    is_text_subtitle id = is_subtitle_codec_supported id /\
    (is_text_subtitle id = true <-> In id text_subtitle_codecs) /\
    (is_subtitle_codec_supported id = true <-> In id text_subtitle_codecs).
Proof.
  intros id.
  assert (H : is_subtitle_codec_supported id = true <->
              In id text_subtitle_codecs).
  { unfold is_subtitle_codec_supported, text_subtitle_codecs; simpl In.
    bool_to_prop. intuition congruence. }
  assert (E : is_text_subtitle id = is_subtitle_codec_supported id)
    by reflexivity.
  split; [exact E|]. split; [rewrite E|]; exact H.
Qed.

Lemma bitmap_subtitle_iff (id : AVCodecID) :
  is_bitmap_subtitle id = true <-> In id bitmap_subtitle_codecs.
Proof.
  unfold is_bitmap_subtitle, bitmap_subtitle_codecs; simpl In.
  bool_to_prop. intuition congruence.
Qed.

Lemma bitmap_subtitle_unsupported (id : AVCodecID) :
  In id bitmap_subtitle_codecs -> is_subtitle_codec_supported id = false.
Proof.
  unfold bitmap_subtitle_codecs; simpl In.
  intros [<-|[<-|[]]]; reflexivity.
Qed.

(** ** The container classifier *)

Lemma starts_with_iff (needle s : string) :
  starts_with needle s = true <-> exists after, s = (needle ++ after)%string.
Proof.
  revert s; induction needle as [|a needle IH]; intros s; simpl.
  - split; [intros _; now exists s | reflexivity].
  - destruct s as [|b s].
    + split; [discriminate | intros [after H]; discriminate].
    + rewrite andb_true_iff, Ascii.eqb_eq, IH. split.
      * intros [-> [after ->]]. now exists after.
      * intros [after H]. injection H as -> ->. split; [reflexivity|now exists after].
Qed.

Lemma strstr_found (haystack needle : string) :
  (exists tail, strstr haystack needle = Some tail) <-> contains haystack needle.
Proof.
  unfold contains. induction haystack as [|c h IH]; simpl.
  - destruct (starts_with needle "") eqn:E.
    + split; [intros _|intros _; now exists ""].
      apply starts_with_iff in E. destruct E as [after E].
      now exists "", after.
    + split; [intros [tail H]; discriminate|].
      intros [before [after H]].
      destruct before; simpl in H; [|discriminate].
      assert (starts_with needle "" = true)
        by (apply starts_with_iff; now exists after).
      congruence.
  - destruct (starts_with needle (String c h)) eqn:E.
    + split; [intros _|intros _; now exists (String c h)].
      apply starts_with_iff in E. destruct E as [after E].
      now exists "", after.
    + rewrite IH. split.
      * intros [before [after ->]]. now exists (String c before), after.
      * intros [before [after H]].
        destruct before as [|b before]; simpl in H.
        -- assert (starts_with needle (String c h) = true)
             by (apply starts_with_iff; now exists after).
           congruence.
        -- injection H as _ ->. now exists before, after.
Qed.

Lemma found_iff (name needle : string) :
  match strstr name needle with Some _ => true | None => false end = true
  <-> contains name needle.
Proof.
  rewrite <- strstr_found.
  destruct (strstr name needle) as [tail|].
  - split; [intros _; now exists tail | reflexivity].
  - split; [discriminate | intros [tail H]; discriminate].
Qed.

(** C9.  A container is classified supported exactly when its format name is
    present and has one of the twelve names of the allow-list as a
    substring; "mov,mp4,m4a,3gp" is supported and the empty name is not. *)
Theorem container_classification_exact :
  (forall format_name : option string,
     is_container_supported format_name = true <->
     exists name, format_name = Some name /\
       exists needle, In needle container_allow_list /\ contains name needle)
  /\ is_container_supported (Some "mov,mp4,m4a,3gp") = true
  /\ is_container_supported (Some "") = false
  /\ is_container_supported None = false.
Proof.
  split; [|repeat split; reflexivity].
  intros [name|]; simpl.
  - repeat rewrite orb_true_iff. repeat rewrite found_iff.
    unfold container_allow_list. split.
    + intros H. exists name. split; [reflexivity|].
      repeat match goal with
             | D : _ \/ _ |- _ => destruct D as [D|D]
             end;
        (eexists; split; [|exact H]; simpl; tauto).
    + intros [name' [[= <-] [needle [Hin H]]]].
      simpl in Hin.
      repeat (destruct Hin as [<-|Hin]; [tauto|]).
      contradiction.
  - split; [discriminate|]. intros [name [H _]]. discriminate.
Qed.

(** ** Shell quoting *)

Lemma shell_escape_loop_spec (input out : string) :
  shell_escape_loop input out = (out ++ quote_body input)%string.
Proof.
  revert out; induction input as [|c rest IH]; intros out; simpl.
  - now rewrite append_nil_r.
  - unfold quote_char.
    destruct (Ascii.eqb c "'"); rewrite IH, append_assoc; reflexivity.
Qed.

Lemma shell_escape_single_spec (input : string) :
  shell_escape_single input = ("'" ++ quote_body input ++ "'")%string.
Proof.
  unfold shell_escape_single.
  rewrite shell_escape_loop_spec, append_assoc. reflexivity.
Qed.

Lemma length_quote_body (s : string) :
  (String.length s <= String.length (quote_body s) <= 4 * String.length s)%nat.
Proof.
  induction s as [|c s IH]; simpl; [lia|].
  rewrite length_append. unfold quote_char.
  destruct (Ascii.eqb c "'"); simpl; lia.
Qed.

(** The escaped text and its terminating NUL fit the allocated block. *)
Lemma shell_escape_single_fits (input : string) :
  (String.length (shell_escape_single input) + 1 <= shell_escape_alloc input)%nat.
Proof.
  rewrite shell_escape_single_spec. unfold shell_escape_alloc.
  simpl. rewrite length_append. simpl.
  pose proof (length_quote_body input). lia.
Qed.

Lemma sh_word_quote_body (s : string) :
  sh_word SingleQuoted (quote_body s ++ "'") = Some s.
Proof.
  induction s as [|c rest IH]; [reflexivity|].
  simpl quote_body. unfold quote_char.
  destruct (Ascii.eqb c "'") eqn:E.
  - apply Ascii.eqb_eq in E; subst c. simpl. now rewrite IH.
  - simpl. now rewrite E, IH.
Qed.

(** C5.  Escaping wraps the text in single quotes and writes each single
    quote of the input as the four characters quote, backslash, quote, quote;
    a POSIX shell reads the escaped token back as the input. *)
Theorem shell_escape_round_trip :
  forall input : string,
    shell_escape_single input = ("'" ++ quote_body input ++ "'")%string /\
    sh_word Unquoted (shell_escape_single input) = Some input.
Proof.
  intros input. split; [apply shell_escape_single_spec|].
  rewrite shell_escape_single_spec. simpl. apply sh_word_quote_body.
Qed.

(** ** The outcome flags *)

Lemma first_pass_step_spec (f : Flags) (st : AVStream) :
  let par := codecpar st in
  first_pass_step f st =
  mkFlags (all_supported f && (negb (media st) || stream_supported par))
          (has_video f || is_video par)
          (has_audio f || is_audio par)
          (can_transcode f || (media st && needs_reencoding par))
          (has_unsupported_bitmap_subtitle f
           || (negb (stream_supported par) && is_subtitle par
               && is_bitmap_subtitle (codec_id par))).
Proof.
  destruct f as [al hv ha ct hb], st as [[ty id tag prof] lang].
  unfold first_pass_step, media, needs_reencoding, stream_supported,
    is_video, is_audio, is_subtitle, is_media_stream.
  cbn [codecpar codec_type codec_id all_supported has_video has_audio
       can_transcode has_unsupported_bitmap_subtitle].
  destruct ty; cbn [type_eqb AVMediaType_eq_dec AVMediaType_rec
                    AVMediaType_rect orb andb negb];
    rewrite ?andb_true_r, ?orb_false_r; try reflexivity.
  - destruct (is_video_codec_supported _); cbn [negb andb];
      now rewrite ?andb_true_r, ?andb_false_r, ?orb_false_r, ?orb_true_r.
  - destruct (is_audio_codec_supported _); cbn [negb andb];
      now rewrite ?andb_true_r, ?andb_false_r, ?orb_false_r, ?orb_true_r.
  - destruct (is_subtitle_codec_supported _), (is_bitmap_subtitle _);
      cbn [negb andb];
      now rewrite ?andb_true_r, ?andb_false_r, ?orb_false_r, ?orb_true_r.
Qed.

Lemma first_pass_fold (ss : list AVStream) (f : Flags) :
  let g := fold_left first_pass_step ss f in
  all_supported g
    = all_supported f
      && forallb (fun st => negb (media st) || stream_supported (codecpar st)) ss
  /\ has_video g = has_video f || existsb (fun st => is_video (codecpar st)) ss
  /\ has_audio g = has_audio f || existsb (fun st => is_audio (codecpar st)) ss
  /\ can_transcode g
    = can_transcode f
      || existsb (fun st => media st && needs_reencoding (codecpar st)) ss
  /\ has_unsupported_bitmap_subtitle g
    = has_unsupported_bitmap_subtitle f
      || existsb (fun st => negb (stream_supported (codecpar st))
                            && is_subtitle (codecpar st)
                            && is_bitmap_subtitle (codec_id (codecpar st))) ss.
Proof.
  revert f; induction ss as [|st ss IH]; intros f; simpl.
  - rewrite andb_true_r, !orb_false_r. repeat split.
  - specialize (IH (first_pass_step f st)). simpl in IH.
    destruct IH as (Ha & Hv & Hu & Hc & Hb).
    rewrite Ha, Hv, Hu, Hc, Hb, first_pass_step_spec; simpl.
    rewrite <- !andb_assoc, <- !orb_assoc. repeat split.
Qed.

Lemma first_pass_spec (container_ok : bool) (ss : list AVStream) :
  let f := first_pass container_ok ss in
  all_supported f
    = container_ok
      && forallb (fun st => negb (media st) || stream_supported (codecpar st)) ss
  /\ has_video f = existsb (fun st => is_video (codecpar st)) ss
  /\ has_audio f = existsb (fun st => is_audio (codecpar st)) ss
  /\ can_transcode f
    = existsb (fun st => media st && needs_reencoding (codecpar st)) ss
  /\ has_unsupported_bitmap_subtitle f
    = existsb (fun st => negb (stream_supported (codecpar st))
                         && is_subtitle (codecpar st)
                         && is_bitmap_subtitle (codec_id (codecpar st))) ss.
Proof.
  exact (first_pass_fold ss (mkFlags container_ok false false false false)).
Qed.

Lemma needs_reencoding_cases (par : AVCodecParameters) :
  is_media_stream (codec_type par) = true ->
  (needs_reencoding par = true <->
   (codec_type par = AVMEDIA_TYPE_VIDEO /\ is_video_codec_supported par = false)
   \/ (codec_type par = AVMEDIA_TYPE_AUDIO /\
       is_audio_codec_supported (codec_id par) = false)
   \/ (codec_type par = AVMEDIA_TYPE_SUBTITLE /\
       is_subtitle_codec_supported (codec_id par) = false /\
       is_bitmap_subtitle (codec_id par) = false)).
Proof.
  destruct par as [ty id tag prof].
  unfold needs_reencoding, stream_supported, is_video, is_audio, is_subtitle,
    is_media_stream; cbn [codec_type codec_id].
  destruct ty; cbn [type_eqb AVMediaType_eq_dec AVMediaType_rec
                    AVMediaType_rect orb andb negb];
    try discriminate; intros _.
  - destruct (is_video_codec_supported _); simpl;
      intuition (discriminate || auto).
  - destruct (is_audio_codec_supported _); simpl;
      intuition (discriminate || auto).
  - destruct (is_subtitle_codec_supported _), (is_bitmap_subtitle _); simpl;
      intuition (discriminate || auto).
Qed.

(** C2.  For a probed file, [all_supported] holds exactly when the container
    is supported and every video, audio and subtitle stream is classified
    supported; [can_transcode] holds exactly when some stream is an
    unsupported video or audio stream or an unsupported subtitle that is not a
    bitmap. *)
Theorem outcome_flags_invariant :
  forall fmt_ctx : AVFormatContext,
    let f := file_flags fmt_ctx in
    (all_supported f = true <->
       is_container_supported (Some (container_name fmt_ctx)) = true /\
       forall st, In st (streams fmt_ctx) -> media st = true ->
                  stream_supported (codecpar st) = true)
    /\ (can_transcode f = true <->
       exists st, In st (streams fmt_ctx) /\ media st = true /\
         ((codec_type (codecpar st) = AVMEDIA_TYPE_VIDEO /\
           is_video_codec_supported (codecpar st) = false)
          \/ (codec_type (codecpar st) = AVMEDIA_TYPE_AUDIO /\
              is_audio_codec_supported (codec_id (codecpar st)) = false)
          \/ (codec_type (codecpar st) = AVMEDIA_TYPE_SUBTITLE /\
              is_subtitle_codec_supported (codec_id (codecpar st)) = false /\
              is_bitmap_subtitle (codec_id (codecpar st)) = false))).
Proof.
  intros fmt_ctx f. unfold f, file_flags.
  destruct (first_pass_spec
              (is_container_supported (Some (container_name fmt_ctx)))
              (streams fmt_ctx)) as (Ha & _ & _ & Hc & _).
  rewrite Ha, Hc. clear Ha Hc. split.
  - rewrite andb_true_iff, forallb_forall. split.
    + intros [Hk Hs]. split; [exact Hk|]. intros st Hin Hm.
      specialize (Hs st Hin). rewrite Hm in Hs. exact Hs.
    + intros [Hk Hs]. split; [exact Hk|]. intros st Hin.
      destruct (media st) eqn:Hm; [|reflexivity]. simpl. now apply Hs.
  - rewrite existsb_exists. split.
    + intros [st [Hin H]]. apply andb_true_iff in H. destruct H as [Hm Hn].
      exists st. split; [exact Hin|]. split; [exact Hm|].
      now apply needs_reencoding_cases.
    + intros [st [Hin [Hm H]]]. exists st. split; [exact Hin|].
      rewrite Hm. simpl. now apply needs_reencoding_cases.
Qed.

(** ** The counters *)

Lemma int_incr_below (x : Z) : x < INT_MAX -> int_incr x = Ok (x + 1).
Proof.
  intros H. unfold int_incr. destruct (Z.ltb_spec x INT_MAX); [reflexivity|lia].
Qed.

Lemma int_incr_returns (x y : Z) :
  int_incr x = Ok y -> x < INT_MAX /\ y = x + 1.
Proof.
  unfold int_incr. destruct (Z.ltb_spec x INT_MAX); [|discriminate].
  intros [= <-]. now split.
Qed.

Lemma count_ok_below (s : Summary) :
  ok s < INT_MAX -> total s < INT_MAX ->
  count_ok s
  = Ok (mkSummary (total s + 1) (ok s + 1) (not_supported s) (errors s)).
Proof.
  intros Ho Ht. unfold count_ok. now rewrite !int_incr_below.
Qed.

Lemma count_not_supported_below (s : Summary) :
  not_supported s < INT_MAX -> total s < INT_MAX ->
  count_not_supported s
  = Ok (mkSummary (total s + 1) (ok s) (not_supported s + 1) (errors s)).
Proof.
  intros Hn Ht. unfold count_not_supported. now rewrite !int_incr_below.
Qed.

Lemma count_error_below (s : Summary) :
  errors s < INT_MAX ->
  count_error s
  = Ok (mkSummary (total s) (ok s) (not_supported s) (errors s + 1)).
Proof.
  intros He. unfold count_error. now rewrite int_incr_below.
Qed.

Lemma count_ok_returns (s s' : Summary) :
  count_ok s = Ok s' ->
  ok s < INT_MAX /\ total s < INT_MAX /\
  s' = mkSummary (total s + 1) (ok s + 1) (not_supported s) (errors s).
Proof.
  unfold count_ok.
  destruct (int_incr (ok s)) as [o| |] eqn:Eo; try discriminate.
  destruct (int_incr (total s)) as [t| |] eqn:Et; try discriminate.
  cbn [bind]. intros [= <-].
  apply int_incr_returns in Eo, Et. destruct Eo as [Ho ->], Et as [Ht ->].
  now repeat split.
Qed.

Lemma count_not_supported_returns (s s' : Summary) :
  count_not_supported s = Ok s' ->
  not_supported s < INT_MAX /\ total s < INT_MAX /\
  s' = mkSummary (total s + 1) (ok s) (not_supported s + 1) (errors s).
Proof.
  unfold count_not_supported.
  destruct (int_incr (not_supported s)) as [n| |] eqn:En; try discriminate.
  destruct (int_incr (total s)) as [t| |] eqn:Et; try discriminate.
  cbn [bind]. intros [= <-].
  apply int_incr_returns in En, Et. destruct En as [Hn ->], Et as [Ht ->].
  now repeat split.
Qed.

Lemma count_error_returns (s s' : Summary) :
  count_error s = Ok s' ->
  errors s < INT_MAX /\
  s' = mkSummary (total s) (ok s) (not_supported s) (errors s + 1).
Proof.
  unfold count_error.
  destruct (int_incr (errors s)) as [e| |] eqn:Ee; try discriminate.
  cbn [bind]. intros [= <-].
  apply int_incr_returns in Ee. destruct Ee as [He ->]. now split.
Qed.

(** ** Bitmap subtitles *)

Lemma bitmap_subtitle_stream_facts (par : AVCodecParameters) :
  bitmap_subtitle_stream par ->
  is_media_stream (codec_type par) = true /\
  is_subtitle par = true /\
  stream_supported par = false /\
  is_subtitle_codec_supported (codec_id par) = false /\
  is_bitmap_subtitle (codec_id par) = true /\
  needs_reencoding par = false.
Proof.
  destruct par as [ty id tag prof]. intros [Hty Hid]; simpl in Hty, Hid.
  subst ty.
  pose proof (bitmap_subtitle_unsupported id Hid) as Hu.
  pose proof (proj2 (bitmap_subtitle_iff id) Hid) as Hb.
  unfold needs_reencoding, stream_supported, is_subtitle, is_video, is_audio;
    simpl. rewrite Hu, Hb. repeat split.
Qed.

(** C7.  A PGS or DVD subtitle stream is classified unsupported and flagged
    as a bitmap, and processing it leaves [can_transcode] as it was.  A file
    whose unsupported streams are all such subtitles, with at least one, has
    [all_supported] false, [can_transcode] false and
    [has_unsupported_bitmap_subtitle] true; in verbose mode with
    [--skip-unfixable] it prints nothing and adds one to [not_supported] and
    to [total] (two [int]s, which must be below [INT_MAX] for the increments
    to be defined). *)
Theorem bitmap_subtitle_unfixable :
  (forall par : AVCodecParameters,
     bitmap_subtitle_stream par ->
     is_subtitle_codec_supported (codec_id par) = false /\
     stream_supported par = false /\
     is_bitmap_subtitle (codec_id par) = true)
  /\ (forall (f : Flags) (st : AVStream),
        bitmap_subtitle_stream (codecpar st) ->
        can_transcode (first_pass_step f st) = can_transcode f)
  /\ (forall fmt_ctx : AVFormatContext,
        (exists st, In st (streams fmt_ctx) /\
                    bitmap_subtitle_stream (codecpar st)) ->
        (forall st, In st (streams fmt_ctx) -> media st = true ->
                    stream_supported (codecpar st) = false ->
                    bitmap_subtitle_stream (codecpar st)) ->
        all_supported (file_flags fmt_ctx) = false /\
        can_transcode (file_flags fmt_ctx) = false /\
        has_unsupported_bitmap_subtitle (file_flags fmt_ctx) = true /\
        forall (avcodec_get_name : AVCodecID -> string) (g : Globals)
               (filepath : string) (show_full_path : bool) (summary : Summary),
          has_supported_extension filepath = true ->
          brief_mode g = false ->
          skip_unfixable g = true ->
          not_supported summary < INT_MAX ->
          total summary < INT_MAX ->
          check_file avcodec_get_name g (Probed fmt_ctx) filepath
                     show_full_path summary
          = Ok ([], mkSummary (total summary + 1) (ok summary)
                              (not_supported summary + 1) (errors summary))).
Proof.
  split; [|split].
  - intros par H. apply bitmap_subtitle_stream_facts in H. tauto.
  - intros f st H. apply bitmap_subtitle_stream_facts in H.
    destruct H as (Hm & _ & _ & _ & _ & Hn).
    rewrite first_pass_step_spec. simpl. unfold media.
    rewrite Hm, Hn. simpl. apply orb_false_r.
  - intros fmt_ctx [b [Hin Hb]] Honly.
    assert (Hflags : all_supported (file_flags fmt_ctx) = false /\
                     can_transcode (file_flags fmt_ctx) = false /\
                     has_unsupported_bitmap_subtitle (file_flags fmt_ctx) = true).
    { unfold file_flags.
      destruct (first_pass_spec
                  (is_container_supported (Some (container_name fmt_ctx)))
                  (streams fmt_ctx)) as (Ha & _ & _ & Hc & Hu).
      rewrite Ha, Hc, Hu. clear Ha Hc Hu.
      pose proof (bitmap_subtitle_stream_facts _ Hb)
        as (Hm & Hs & Hsup & _ & Hbit & _).
      split; [|split].
      - apply andb_false_iff. right.
        apply not_true_is_false. intros Hall.
        rewrite forallb_forall in Hall. specialize (Hall b Hin).
        unfold media in Hall. rewrite Hm, Hsup in Hall. discriminate.
      - apply not_true_is_false. intros Hex.
        apply existsb_exists in Hex. destruct Hex as [st [Hst H]].
        apply andb_true_iff in H. destruct H as [Hmst Hn].
        assert (Hunsup : stream_supported (codecpar st) = false).
        { unfold needs_reencoding in Hn. apply andb_true_iff in Hn.
          destruct Hn as [Hn _]. now apply negb_true_iff in Hn. }
        pose proof (bitmap_subtitle_stream_facts _ (Honly st Hst Hmst Hunsup))
          as (_ & _ & _ & _ & _ & Hno).
        congruence.
      - apply existsb_exists. exists b. split; [exact Hin|].
        now rewrite Hsup, Hs, Hbit. }
    destruct Hflags as (Ha & Hc & Hu).
    repeat (split; [assumption|]).
    intros name g filepath show_full_path summary Hext Hbrief Hskip Hn Ht.
    unfold check_file. rewrite Hext, Hbrief. cbn [negb].
    fold (file_flags fmt_ctx).
    rewrite Ha, Hc, Hu, Hskip, andb_false_r. cbn [negb andb].
    now rewrite count_not_supported_below.
Qed.

(** A file with an H.264 video stream and a PGS subtitle, in a Matroska
    container, checked with [--skip-unfixable]. *)
Lemma bitmap_subtitle_unfixable_witness :
  let fmt_ctx :=
    mkFmt (Some "matroska,webm")
      [mkStream (mkPar AVMEDIA_TYPE_VIDEO AV_CODEC_ID_H264 0 100) None;
       mkStream (mkPar AVMEDIA_TYPE_SUBTITLE AV_CODEC_ID_HDMV_PGS_SUBTITLE 0 0)
                (Some "eng")] in
  all_supported (file_flags fmt_ctx) = false /\
  can_transcode (file_flags fmt_ctx) = false /\
  has_unsupported_bitmap_subtitle (file_flags fmt_ctx) = true /\
  check_file (fun _ => "") (mkGlobals false false true) (Probed fmt_ctx)
             "/media/film.mkv" false (mkSummary 4 3 1 0)
  = Ok ([], mkSummary 5 3 2 0).
Proof.
  intros fmt_ctx.
  destruct bitmap_subtitle_unfixable as (_ & _ & H).
  destruct (H fmt_ctx) as (Ha & Hc & Hu & Hrun).
  - eexists. split; [right; left; reflexivity|].
    split; [reflexivity | simpl; tauto].
  - intros st [<-|[<-|[]]] _ Hs.
    + discriminate Hs.
    + split; [reflexivity | simpl; tauto].
  - repeat (split; [assumption|]).
    apply (Hrun (fun _ => "") (mkGlobals false false true) "/media/film.mkv"
                false (mkSummary 4 3 1 0)); reflexivity.
Defined.

(** ** The fixed arrays *)

Lemma strcat_ok (size : nat) (dest src : string) :
  (String.length dest + String.length src < size)%nat ->
  strcat size dest src = Ok (dest ++ src)%string.
Proof.
  intros H. unfold strcat.
  destruct (Nat.ltb_spec (String.length dest + String.length src) size);
    [reflexivity | lia].
Qed.

Lemma snprintf_fits (size : nat) (text : string) :
  (String.length text < size)%nat -> snprintf size text = text.
Proof. intros H. apply truncate_all. lia. Qed.

Lemma length_snprintf (size : nat) (text : string) :
  (0 < size)%nat -> (String.length (snprintf size text) < size)%nat.
Proof. intros H. unfold snprintf. rewrite length_truncate. lia. Qed.

Lemma snprintf_append_fits (size : nat) (buf text : string) :
  (String.length buf + String.length text < size)%nat ->
  snprintf_append size buf text = (buf ++ text)%string.
Proof.
  intros H. unfold snprintf_append. rewrite truncate_all by lia. reflexivity.
Qed.

Lemma length_snprintf_append (size : nat) (buf text : string) :
  (String.length buf < size)%nat ->
  (String.length (snprintf_append size buf text) < size)%nat.
Proof.
  intros H. unfold snprintf_append.
  rewrite length_append, length_truncate. lia.
Qed.

(** Appending twice amounts to appending the two texts at once. *)
Lemma snprintf_append_twice (size : nat) (buf t1 t2 : string) :
  (String.length buf < size)%nat ->
  snprintf_append size (snprintf_append size buf t1) t2
  = snprintf_append size buf (t1 ++ t2).
Proof.
  intros H. unfold snprintf_append.
  rewrite truncate_append, length_append, length_truncate, append_assoc.
  do 2 f_equal. f_equal. lia.
Qed.

Lemma snprintf_append_nil (size : nat) (buf : string) :
  snprintf_append size buf "" = buf.
Proof. unfold snprintf_append. now rewrite truncate_nil, append_nil_r. Qed.

(** ** The loop that builds the transcode command *)

Lemma of_type_cons (t : AVMediaType) (st : AVStream) (ss : list AVStream) :
  of_type t (st :: ss)
  = if type_eqb (codec_type (codecpar st)) t
    then codecpar st :: of_type t ss else of_type t ss.
Proof. reflexivity. Qed.

Lemma subtitle_branch (par : AVCodecParameters) (buf : string) (n : Z) :
  (if negb (is_subtitle_codec_supported (codec_id par)) then
     if is_text_subtitle (codec_id par)
     then snprintf_append OPTS_BUF_SIZE buf (" -c:s:" ++ fmt_d n ++ " srt")
     else snprintf_append OPTS_BUF_SIZE buf (" -c:s:" ++ fmt_d n ++ " copy")
   else snprintf_append OPTS_BUF_SIZE buf (" -c:s:" ++ fmt_d n ++ " copy"))
  = snprintf_append OPTS_BUF_SIZE buf (codec_flag "s" n (subtitle_choice par)).
Proof.
  unfold subtitle_choice.
  destruct (is_subtitle_codec_supported (codec_id par)),
           (is_text_subtitle (codec_id par)); reflexivity.
Qed.

(** One branch of the loop body: the selector is written unless the type was
    met before, then the rest of the loop runs from the new state. *)
Ltac loop_branch had selector IH Hc Hbuf :=
  rewrite length_append in Hc;
  let E := fresh "E" in
  match goal with
  | |- context [strcat CMD_BUF_SIZE ?c selector] =>
      assert (E : (if negb had then strcat CMD_BUF_SIZE c selector else Ok c)
                  = Ok (c ++ (if had then "" else selector))%string)
        by (destruct had; cbn [negb];
            [ now rewrite append_nil_r
            | apply strcat_ok; rewrite length_append in Hc; lia ])
  end;
  rewrite E; cbn [bind];
  match goal with
  | |- context [transcode_loop _ ?b1] =>
      let b' := fresh "b'" in
      let Hrun := fresh "Hrun" in
      let Hcmd := fresh "Hcmd" in
      let Hvo := fresh "Hvo" in
      let Hao := fresh "Hao" in
      let Hso := fresh "Hso" in
      destruct (IH b1) as (b' & Hrun & Hcmd & Hvo & Hao & Hso);
      cbn [cmd v_cnt a_cnt s_cnt v_opts a_opts s_opts had_video had_audio
           had_sub] in *;
      try assumption;
      [ now apply length_snprintf_append
      | rewrite append_assoc, length_append; exact Hc
      | exists b'; split; [exact Hrun|];
        rewrite Hcmd, Hvo, Hao, Hso, append_assoc;
        rewrite snprintf_append_twice by exact Hbuf; repeat split ]
  end.

(** The state after the loop, when the selectors fit [cmd]. *)
Lemma transcode_loop_spec (ss : list AVStream) :
  forall b : Builder,
    (String.length (v_opts b) < OPTS_BUF_SIZE)%nat ->
    (String.length (a_opts b) < OPTS_BUF_SIZE)%nat ->
    (String.length (s_opts b) < OPTS_BUF_SIZE)%nat ->
    (String.length
       (cmd b ++ selectors_from (had_video b) (had_audio b) (had_sub b) ss)
     < CMD_BUF_SIZE)%nat ->
    exists b',
      transcode_loop ss b = Ok b' /\
      cmd b'
      = (cmd b ++ selectors_from (had_video b) (had_audio b) (had_sub b) ss)%string /\
      v_opts b'
      = snprintf_append OPTS_BUF_SIZE (v_opts b)
          (numbered_flags "v" video_choice (v_cnt b)
                          (of_type AVMEDIA_TYPE_VIDEO ss)) /\
      a_opts b'
      = snprintf_append OPTS_BUF_SIZE (a_opts b)
          (numbered_flags "a" audio_choice (a_cnt b)
                          (of_type AVMEDIA_TYPE_AUDIO ss)) /\
      s_opts b'
      = snprintf_append OPTS_BUF_SIZE (s_opts b)
          (numbered_flags "s" subtitle_choice (s_cnt b)
                          (of_type AVMEDIA_TYPE_SUBTITLE ss)).
Proof.
  induction ss as [|st ss IH]; intros b Hv Ha Hs Hc.
  - exists b. simpl. rewrite append_nil_r, !snprintf_append_nil. repeat split.
  - destruct b as [c nv na ns vo ao so hv ha hs].
    cbn [cmd v_cnt a_cnt s_cnt v_opts a_opts s_opts had_video had_audio had_sub]
      in *.
    rewrite !of_type_cons.
    cbn [transcode_loop selectors_from] in *.
    unfold transcode_step, is_video, is_audio, is_subtitle, is_media_stream.
    cbn [cmd v_cnt a_cnt s_cnt v_opts a_opts s_opts had_video had_audio had_sub].
    rewrite subtitle_branch.
    destruct (codec_type (codecpar st)); cbn [type_eqb AVMediaType_eq_dec
      AVMediaType_rec AVMediaType_rect orb negb bind numbered_flags] in *;
      try (apply IH; assumption).
    + loop_branch hv " -map 0:v" IH Hc Hv.
    + loop_branch ha " -map 0:a" IH Hc Ha.
    + loop_branch hs " -map 0:s" IH Hc Hs.
Qed.

Ltac overrun_branch had IH Hge :=
  destruct had; cbn [negb bind];
  [ apply IH; assumption
  | let Hfit := fresh "Hfit" in
    let Hno := fresh "Hno" in
    unfold strcat;
    match goal with
    | |- context [(?n <? CMD_BUF_SIZE)%nat] =>
        destruct (Nat.ltb_spec n CMD_BUF_SIZE) as [Hfit|Hno]; [|reflexivity]
    end;
    cbn [bind]; apply IH; cbn [cmd had_video had_audio had_sub];
    [ rewrite length_append; exact Hfit
    | rewrite append_assoc; exact Hge ] ].

(** When the selectors do not fit, a [strcat] of the loop writes past [cmd]. *)
Lemma transcode_loop_overrun (ss : list AVStream) :
  forall b : Builder,
    (String.length (cmd b) < CMD_BUF_SIZE)%nat ->
    (CMD_BUF_SIZE
     <= String.length
          (cmd b ++ selectors_from (had_video b) (had_audio b) (had_sub b) ss))%nat ->
    transcode_loop ss b = BufferOverrun.
Proof.
  induction ss as [|st ss IH]; intros b Hlt Hge.
  - simpl in Hge. rewrite append_nil_r in Hge. lia.
  - destruct b as [c nv na ns vo ao so hv ha hs].
    cbn [cmd v_cnt a_cnt s_cnt v_opts a_opts s_opts had_video had_audio had_sub]
      in *.
    cbn [transcode_loop selectors_from] in *.
    unfold transcode_step, is_video, is_audio, is_subtitle, is_media_stream.
    cbn [cmd v_cnt a_cnt s_cnt v_opts a_opts s_opts had_video had_audio had_sub].
    destruct (codec_type (codecpar st)); cbn [type_eqb AVMediaType_eq_dec
      AVMediaType_rec AVMediaType_rect orb negb bind] in *;
      try (apply IH; assumption).
    + overrun_branch hv IH Hge.
    + overrun_branch ha IH Hge.
    + overrun_branch hs IH Hge.
Qed.

(** *** The selectors are one per type, in first-seen order *)

Lemma met_cons_same (t : AVMediaType) (seen : list AVMediaType) :
  met t (t :: seen) = true.
Proof.
  unfold met. destruct (in_dec AVMediaType_eq_dec t (t :: seen)) as [|n];
    [reflexivity | exfalso; apply n; now left].
Qed.

Lemma met_cons_other (t u : AVMediaType) (seen : list AVMediaType) :
  t <> u -> met t (u :: seen) = met t seen.
Proof.
  intros Hne. unfold met.
  destruct (in_dec AVMediaType_eq_dec t (u :: seen)) as [i|n],
           (in_dec AVMediaType_eq_dec t seen) as [i'|n']; try reflexivity.
  - destruct i as [E|i]; [congruence | contradiction].
  - exfalso. apply n. now right.
Qed.

Lemma media_types_cons (st : AVStream) (ss : list AVStream) :
  media_types (st :: ss)
  = if is_media_stream (codec_type (codecpar st))
    then codec_type (codecpar st) :: media_types ss
    else media_types ss.
Proof.
  unfold media_types. cbn [filter]. unfold media at 1.
  destruct (is_media_stream (codec_type (codecpar st))); reflexivity.
Qed.

Lemma first_seen_cons (seen : list AVMediaType) (t : AVMediaType)
    (ts : list AVMediaType) :
  first_seen seen (t :: ts)
  = if met t seen then first_seen seen ts else t :: first_seen (t :: seen) ts.
Proof.
  unfold met. cbn [first_seen].
  destruct (in_dec AVMediaType_eq_dec t seen); reflexivity.
Qed.

Ltac first_seen_branch IH seen t :=
  let E := fresh "E" in
  destruct (met t seen) eqn:E;
  [ rewrite <- IH, E; reflexivity
  | cbn [map join fold_right]; fold join; rewrite <- IH;
    rewrite met_cons_same, !met_cons_other by discriminate; reflexivity ].

Lemma selectors_first_seen (ss : list AVStream) :
  forall seen : list AVMediaType,
    selectors_from (met AVMEDIA_TYPE_VIDEO seen) (met AVMEDIA_TYPE_AUDIO seen)
                   (met AVMEDIA_TYPE_SUBTITLE seen) ss
    = join (map (fun t => (" -map 0:" ++ type_letter t)%string)
                (first_seen seen (media_types ss))).
Proof.
  induction ss as [|st ss IH]; intros seen; [reflexivity|].
  rewrite media_types_cons. cbn [selectors_from].
  destruct (codec_type (codecpar st)); cbn [is_media_stream type_eqb
    AVMediaType_eq_dec AVMediaType_rec AVMediaType_rect orb];
    try apply IH; rewrite first_seen_cons.
  - first_seen_branch IH seen AVMEDIA_TYPE_VIDEO.
  - first_seen_branch IH seen AVMEDIA_TYPE_AUDIO.
  - first_seen_branch IH seen AVMEDIA_TYPE_SUBTITLE.
Qed.

Lemma selectors_map_selectors (ss : list AVStream) :
  selectors_from false false false ss = map_selectors ss.
Proof. exact (selectors_first_seen ss []). Qed.

(** At most three selectors of nine characters are written. *)
Lemma length_selectors_from (ss : list AVStream) :
  forall hv ha hs : bool,
    (String.length (selectors_from hv ha hs ss)
     <= (if hv then 0 else 9) + (if ha then 0 else 9) + (if hs then 0 else 9))%nat.
Proof.
  induction ss as [|st ss IH]; intros hv ha hs.
  - simpl. lia.
  - cbn [selectors_from].
    destruct (codec_type (codecpar st)); try apply IH;
      rewrite length_append.
    + specialize (IH true ha hs). destruct hv; simpl in *; lia.
    + specialize (IH hv true hs). destruct ha; simpl in *; lia.
    + specialize (IH hv ha true). destruct hs; simpl in *; lia.
Qed.

(** *** The whole command *)

Lemma opts_buffer_from_empty (text : string) :
  snprintf_append OPTS_BUF_SIZE "" text = snprintf OPTS_BUF_SIZE text.
Proof.
  unfold snprintf_append, snprintf. cbn [String.length append].
  now rewrite Nat.sub_0_r.
Qed.

Lemma CMD_BUF_SIZE_pos : (0 < CMD_BUF_SIZE)%nat.
Proof. unfold CMD_BUF_SIZE. lia. Qed.

Lemma OPTS_BUF_SIZE_pos : (0 < OPTS_BUF_SIZE)%nat.
Proof. unfold OPTS_BUF_SIZE. lia. Qed.

(** The command the program builds, for every path and stream list: when the
    selectors and the option buffers fit [cmd] behind the input path, the
    output name is appended within what is left of the array; when they do
    not, a [strcat] overruns the array. *)
Lemma transcode_command_exact (filepath : string) (ss : list AVStream) :
  transcode_command filepath ss
  = if (String.length (command_held filepath ss) <? CMD_BUF_SIZE)%nat
    then Ok (snprintf_append CMD_BUF_SIZE (command_held filepath ss)
               (" " ++ shell_escape_single (fixed_basename filepath)))
    else BufferOverrun.
Proof.
  unfold transcode_command, command_held, options_held.
  set (head := snprintf CMD_BUF_SIZE ("ffmpeg -i " ++ shell_escape_single filepath)).
  set (tail := (" " ++ shell_escape_single (fixed_basename filepath))%string).
  set (b0 := mkBuilder head 0 0 0 "" "" "" false false false).
  assert (Hhead : (String.length head < CMD_BUF_SIZE)%nat)
    by apply length_snprintf, CMD_BUF_SIZE_pos.
  rewrite <- selectors_map_selectors.
  destruct (Nat.ltb_spec
              (String.length (head ++ selectors_from false false false ss))
              CMD_BUF_SIZE) as [Hsel|Hsel].
  - destruct (transcode_loop_spec ss b0) as (b' & Hrun & Hc & Hv & Ha & Hs);
      try (cbn; apply OPTS_BUF_SIZE_pos); [exact Hsel|].
    cbn [b0 cmd v_cnt a_cnt s_cnt v_opts a_opts s_opts had_video had_audio
         had_sub] in Hc, Hv, Ha, Hs.
    rewrite opts_buffer_from_empty in Hv, Ha, Hs.
    fold (video_flags ss) in Hv. fold (audio_flags ss) in Ha.
    fold (subtitle_flags ss) in Hs.
    rewrite Hrun. cbn [bind]. rewrite Hc, Hv, Ha, Hs.
    set (V := snprintf OPTS_BUF_SIZE (video_flags ss)).
    set (A := snprintf OPTS_BUF_SIZE (audio_flags ss)).
    set (S := snprintf OPTS_BUF_SIZE (subtitle_flags ss)).
    set (c0 := (head ++ selectors_from false false false ss)%string) in *.
    replace (head ++ selectors_from false false false ss ++ V ++ A ++ S)%string
      with (((c0 ++ V) ++ A) ++ S)%string
      by (unfold c0; now rewrite !append_assoc).
    unfold strcat. rewrite !length_append.
    repeat match goal with
           | |- context [(?n <? CMD_BUF_SIZE)%nat] =>
               destruct (Nat.ltb_spec n CMD_BUF_SIZE); cbn [bind]
           end; try reflexivity; exfalso; rewrite ?length_append in *; lia.
  - rewrite (transcode_loop_overrun ss b0); [|exact Hhead|exact Hsel].
    cbn [bind].
    rewrite <- append_assoc, length_append.
    match goal with
    | |- context [(?n <? CMD_BUF_SIZE)%nat] =>
        destruct (Nat.ltb_spec n CMD_BUF_SIZE); [lia | reflexivity]
    end.
Qed.

Lemma contains_middle (before needle after : string) :
  contains (before ++ needle ++ after) needle.
Proof. now exists before, after. Qed.

(** C3 (amended).  When the option texts fit their 1024-byte buffers and the
    whole command fits the 8192-byte array, the transcode command is: the
    input path, one [-map 0:<letter>] per media type present in first-seen
    order, then the codec selections grouped by type -- all video streams,
    then all audio streams, then all subtitle streams -- each group in stream
    order and numbered from 0 ([copy] or [libx264] for video, [copy] or [aac]
    for audio, [copy] or [srt] for subtitles), then the output name.  For one
    MPEG4/XVID video stream followed by one AAC audio stream the command
    contains [-map 0:v -map 0:a -c:v:0 libx264 -c:a:0 copy]. *)
Theorem transcode_command_grouped_by_type :
  (forall (filepath : string) (ss : list AVStream),
     (String.length (video_flags ss) < OPTS_BUF_SIZE)%nat ->
     (String.length (audio_flags ss) < OPTS_BUF_SIZE)%nat ->
     (String.length (subtitle_flags ss) < OPTS_BUF_SIZE)%nat ->
     (String.length (transcode_text filepath ss) < CMD_BUF_SIZE)%nat ->
     transcode_command filepath ss = Ok (transcode_text filepath ss))
  /\ (forall (filepath : string) (prof : Z) (lang1 lang2 : option string)
             (tag2 prof2 : Z),
        let ss :=
          [mkStream (mkPar AVMEDIA_TYPE_VIDEO AV_CODEC_ID_MPEG4
                           (MKTAG "X" "V" "I" "D") prof) lang1;
           mkStream (mkPar AVMEDIA_TYPE_AUDIO AV_CODEC_ID_AAC tag2 prof2)
                    lang2] in
        (String.length (transcode_text filepath ss) < CMD_BUF_SIZE)%nat ->
        exists c, transcode_command filepath ss = Ok c /\
          contains c "-map 0:v -map 0:a -c:v:0 libx264 -c:a:0 copy").
Proof.
  assert (General : forall (filepath : string) (ss : list AVStream),
     (String.length (video_flags ss) < OPTS_BUF_SIZE)%nat ->
     (String.length (audio_flags ss) < OPTS_BUF_SIZE)%nat ->
     (String.length (subtitle_flags ss) < OPTS_BUF_SIZE)%nat ->
     (String.length (transcode_text filepath ss) < CMD_BUF_SIZE)%nat ->
     transcode_command filepath ss = Ok (transcode_text filepath ss)).
  { intros filepath ss Hv Ha Hs Hc.
    rewrite transcode_command_exact. unfold command_held, options_held.
    rewrite !(snprintf_fits OPTS_BUF_SIZE) by assumption.
    unfold transcode_text in Hc |- *.
    set (esc := shell_escape_single filepath) in *.
    set (out := shell_escape_single (fixed_basename filepath)) in *.
    rewrite !length_append in Hc.
    rewrite (snprintf_fits CMD_BUF_SIZE) by (rewrite length_append; lia).
    match goal with
    | |- context [(?n <? CMD_BUF_SIZE)%nat] =>
        destruct (Nat.ltb_spec n CMD_BUF_SIZE) as [Hfit|Hno]
    end.
    - rewrite snprintf_append_fits by (rewrite !length_append in *; lia).
      now rewrite !append_assoc.
    - rewrite !length_append in Hno. lia. }
  split; [exact General|].
  intros filepath prof lang1 lang2 tag2 prof2 ss Hc.
  exists (transcode_text filepath ss). split.
  - apply General; try exact Hc; apply Nat.ltb_lt; vm_compute; reflexivity.
  - unfold transcode_text.
    change (map_selectors ss ++ video_flags ss ++ audio_flags ss
            ++ subtitle_flags ss ++ " "
            ++ shell_escape_single (fixed_basename filepath))%string
      with (" " ++ "-map 0:v -map 0:a -c:v:0 libx264 -c:a:0 copy"
            ++ " " ++ shell_escape_single (fixed_basename filepath))%string.
    rewrite <- (append_assoc (shell_escape_single filepath) " ").
    rewrite <- (append_assoc "ffmpeg -i ").
    apply contains_middle.
Qed.

(** The scenario of the claim at a concrete path. *)
Lemma transcode_command_grouped_by_type_witness :
  transcode_command "/videos/clip.avi"
    [mkStream (mkPar AVMEDIA_TYPE_VIDEO AV_CODEC_ID_MPEG4
                     (MKTAG "X" "V" "I" "D") 0) None;
     mkStream (mkPar AVMEDIA_TYPE_AUDIO AV_CODEC_ID_AAC 0 1) (Some "eng")]
  = Ok "ffmpeg -i '/videos/clip.avi' -map 0:v -map 0:a -c:v:0 libx264 -c:a:0 copy 'fixed_clip.mkv'".
Proof.
  apply (proj1 transcode_command_grouped_by_type "/videos/clip.avi");
    apply Nat.ltb_lt; vm_compute; reflexivity.
Defined.

(** C3 as stated fails: with an audio stream before a video stream, the
    program writes the video selection before the audio selection, not the
    selections in stream order. *)
Lemma flags_not_in_stream_order :
  let ss :=
    [mkStream (mkPar AVMEDIA_TYPE_AUDIO AV_CODEC_ID_AAC 0 1) (Some "eng");
     mkStream (mkPar AVMEDIA_TYPE_VIDEO AV_CODEC_ID_MPEG4
                     (MKTAG "X" "V" "I" "D") 0) None] in
  transcode_command "/videos/clip.avi" ss
  = Ok "ffmpeg -i '/videos/clip.avi' -map 0:a -map 0:v -c:v:0 libx264 -c:a:0 copy 'fixed_clip.mkv'"
  /\ transcode_text_stream_order "/videos/clip.avi" ss
     = "ffmpeg -i '/videos/clip.avi' -map 0:a -map 0:v -c:a:0 copy -c:v:0 libx264 'fixed_clip.mkv'"
  /\ transcode_command "/videos/clip.avi" ss
     <> Ok (transcode_text_stream_order "/videos/clip.avi" ss).
Proof.
  cbv zeta. split; [|split].
  - vm_compute. reflexivity.
  - vm_compute. reflexivity.
  - vm_compute. discriminate.
Qed.

(** ** The verbose report and its suggestions *)

Lemma all_supported_no_transcode (container_ok : bool) (ss : list AVStream) :
  all_supported (first_pass container_ok ss) = true ->
  can_transcode (first_pass container_ok ss) = false.
Proof.
  destruct (first_pass_spec container_ok ss) as (Ha & _ & _ & Hc & _).
  rewrite Ha, Hc. clear Ha Hc. intros H.
  apply andb_true_iff in H. destruct H as [_ H].
  rewrite forallb_forall in H.
  apply not_true_is_false. intros Hex.
  apply existsb_exists in Hex. destruct Hex as [st [Hin Hst]].
  specialize (H st Hin). unfold needs_reencoding in Hst.
  destruct (media st), (stream_supported (codecpar st)); discriminate.
Qed.

Lemma print_streams_rows (ss : list AVStream) :
  forall (i : Z) (o : Output),
    In o (print_streams i ss) ->
    match o with
    | OutStream _ _ _ _ _ | OutBitmapNote _ _ => True
    | _ => False
    end.
Proof.
  induction ss as [|st ss IH]; intros i o Hin; [contradiction|].
  cbn [print_streams] in Hin.
  destruct (negb (is_media_stream (codec_type (codecpar st)))).
  - exact (IH _ _ Hin).
  - destruct Hin as [<-|Hin]; [exact I|].
    apply in_app_or in Hin. destruct Hin as [Hin|Hin]; [|exact (IH _ _ Hin)].
    destruct (negb (stream_supported (codecpar st)) && is_subtitle (codecpar st)
              && is_bitmap_subtitle (codec_id (codecpar st))).
    + destruct Hin as [<-|[]]. exact I.
    + contradiction.
Qed.

(** Where the suggestions stand in a verbose report. *)
Section Report.

Variables (filename container : string) (container_ok all : bool).
Variables (ss : list AVStream) (remux transcode : list Output).
Hypothesis remux_only : forall o, In o remux -> exists r, o = OutRemux r.
Hypothesis transcode_only :
  forall o, In o transcode -> exists t, o = OutTranscode t.

Lemma remux_in_report (r : string) :
  In (OutRemux r)
     ((OutHeader filename container container_ok
       :: print_streams 0 ss ++ [OutOverall all])
      ++ remux ++ transcode ++ [OutNewline])
  <-> In (OutRemux r) remux.
Proof.
  cbn [app In]. rewrite !in_app_iff. cbn [In].
  assert (~ In (OutRemux r) (print_streams 0 ss))
    by (intros Hp; now apply print_streams_rows in Hp).
  assert (~ In (OutRemux r) transcode)
    by (intros Hp; apply transcode_only in Hp; destruct Hp as [t E];
        discriminate).
  intuition discriminate.
Qed.

Lemma transcode_in_report (t : string) :
  In (OutTranscode t)
     ((OutHeader filename container container_ok
       :: print_streams 0 ss ++ [OutOverall all])
      ++ remux ++ transcode ++ [OutNewline])
  <-> In (OutTranscode t) transcode.
Proof.
  cbn [app In]. rewrite !in_app_iff. cbn [In].
  assert (~ In (OutTranscode t) (print_streams 0 ss))
    by (intros Hp; now apply print_streams_rows in Hp).
  assert (~ In (OutTranscode t) remux)
    by (intros Hp; apply remux_only in Hp; destruct Hp as [r E];
        discriminate).
  intuition discriminate.
Qed.

End Report.

Lemma optional_remux_only (b : bool) (r0 : string) (o : Output) :
  In o (if b then [OutRemux r0] else []) -> exists r, o = OutRemux r.
Proof. destruct b; [intros [<-|[]]; eauto | contradiction]. Qed.

Lemma optional_transcode_only (b : bool) (t0 : string) (o : Output) :
  In o (if b then [OutTranscode t0] else []) -> exists t, o = OutTranscode t.
Proof. destruct b; [intros [<-|[]]; eauto | contradiction]. Qed.

(** With the escaped input path within [escaped_input_room], no [strcat]
    overruns [cmd]. *)
Lemma transcode_command_returns (filepath : string) (ss : list AVStream) :
  (String.length (shell_escape_single filepath) <= escaped_input_room)%nat ->
  transcode_command filepath ss
  = Ok (snprintf_append CMD_BUF_SIZE (command_held filepath ss)
          (" " ++ shell_escape_single (fixed_basename filepath))).
Proof.
  intros Hroom. rewrite transcode_command_exact.
  match goal with
  | |- context [(?n <? CMD_BUF_SIZE)%nat] =>
      destruct (Nat.ltb_spec n CMD_BUF_SIZE) as [Hfit|Hno]; [reflexivity|]
  end.
  exfalso. unfold command_held, options_held in Hno.
  rewrite <- selectors_map_selectors in Hno.
  rewrite !length_append in Hno.
  pose proof (length_selectors_from ss false false false) as Hsel.
  cbv iota in Hsel.
  pose proof (length_snprintf OPTS_BUF_SIZE (video_flags ss) OPTS_BUF_SIZE_pos).
  pose proof (length_snprintf OPTS_BUF_SIZE (audio_flags ss) OPTS_BUF_SIZE_pos).
  pose proof (length_snprintf OPTS_BUF_SIZE (subtitle_flags ss) OPTS_BUF_SIZE_pos).
  assert (String.length (snprintf CMD_BUF_SIZE
                           ("ffmpeg -i " ++ shell_escape_single filepath))
          <= 10 + String.length (shell_escape_single filepath))%nat.
  { unfold snprintf. rewrite length_truncate, length_append.
    change (String.length "ffmpeg -i ") with 10%nat. lia. }
  unfold escaped_input_room, CMD_BUF_SIZE, OPTS_BUF_SIZE in *. lia.
Qed.

(** The verbose path of [check_file] on a probed file. *)
Lemma check_file_verbose (avcodec_get_name : AVCodecID -> string)
    (g : Globals) (fmt_ctx : AVFormatContext) (filepath : string)
    (show_full_path : bool) (summary : Summary) :
  has_supported_extension filepath = true ->
  brief_mode g = false ->
  let f := file_flags fmt_ctx in
  let filename := if show_full_path then filepath else get_basename filepath in
  check_file avcodec_get_name g (Probed fmt_ctx) filepath show_full_path summary
  = if skip_ok g && all_supported f
    then summary' <- count_ok summary ;; Ok ([], summary')
    else if skip_unfixable g && negb (all_supported f)
            && negb (can_transcode f) && has_unsupported_bitmap_subtitle f
    then summary' <- count_not_supported summary ;; Ok ([], summary')
    else
      transcode <-
        (if negb (all_supported f) && (has_video f || has_audio f)
            && can_transcode f
         then c <- transcode_command filepath (streams fmt_ctx) ;;
              Ok [OutTranscode c]
         else Ok []) ;;
      summary' <- (if all_supported f then count_ok summary
                   else count_not_supported summary) ;;
      Ok (((OutHeader filename (container_name fmt_ctx)
              (is_container_supported (Some (container_name fmt_ctx)))
            :: print_streams 0 (streams fmt_ctx)
            ++ [OutOverall (all_supported f)])
           ++ (if negb (all_supported f) && (has_video f || has_audio f)
               then [OutRemux (remux_command filepath)] else [])
           ++ transcode ++ [OutNewline])%list,
          summary').
Proof.
  intros Hext Hbrief f filename. unfold check_file.
  rewrite Hext, Hbrief. reflexivity.
Qed.

(** What a verbose run that returns has printed: nothing when one of the two
    skip options applies, and otherwise the report, the remux command under
    its guard and the transcode command under its own. *)
Lemma check_file_verbose_returns (avcodec_get_name : AVCodecID -> string)
    (g : Globals) (fmt_ctx : AVFormatContext) (filepath : string)
    (show_full_path : bool) (summary : Summary)
    (out : list Output) (summary' : Summary) :
  has_supported_extension filepath = true ->
  brief_mode g = false ->
  check_file avcodec_get_name g (Probed fmt_ctx) filepath show_full_path summary
  = Ok (out, summary') ->
  let f := file_flags fmt_ctx in
  let filename := if show_full_path then filepath else get_basename filepath in
  (out = [] /\
   (skip_ok g && all_supported f = true
    \/ skip_unfixable g && negb (all_supported f)
       && negb (can_transcode f) && has_unsupported_bitmap_subtitle f = true))
  \/ (skip_unfixable g && negb (all_supported f)
      && negb (can_transcode f) && has_unsupported_bitmap_subtitle f = false /\
      exists transcode,
        (if negb (all_supported f) && (has_video f || has_audio f)
            && can_transcode f
         then exists c, transcode_command filepath (streams fmt_ctx) = Ok c /\
                        transcode = [OutTranscode c]
         else transcode = []) /\
        out = ((OutHeader filename (container_name fmt_ctx)
                  (is_container_supported (Some (container_name fmt_ctx)))
                :: print_streams 0 (streams fmt_ctx)
                ++ [OutOverall (all_supported f)])
               ++ (if negb (all_supported f) && (has_video f || has_audio f)
                   then [OutRemux (remux_command filepath)] else [])
               ++ transcode ++ [OutNewline])%list).
Proof.
  intros Hext Hbrief.
  rewrite (check_file_verbose avcodec_get_name g fmt_ctx filepath
             show_full_path summary Hext Hbrief).
  cbv zeta. set (f := file_flags fmt_ctx).
  destruct (skip_ok g && all_supported f) eqn:Hok.
  { destruct (count_ok summary); cbn [bind]; try discriminate.
    intros [= <- _]. left. split; [reflexivity | now left]. }
  destruct (skip_unfixable g && negb (all_supported f)
            && negb (can_transcode f) && has_unsupported_bitmap_subtitle f)
    eqn:Hskip.
  { destruct (count_not_supported summary); cbn [bind]; try discriminate.
    intros [= <- _]. left. split; [reflexivity | now right]. }
  intros H. right. split; [reflexivity|].
  destruct (negb (all_supported f) && (has_video f || has_audio f)
            && can_transcode f).
  - destruct (transcode_command filepath (streams fmt_ctx)) as [c| |];
      cbn [bind] in H; try discriminate.
    exists [OutTranscode c]. split; [now exists c|].
    destruct (if all_supported f then count_ok summary
              else count_not_supported summary);
      cbn [bind] in H; try discriminate.
    now injection H as <- _.
  - cbn [bind] in H. exists []. split; [reflexivity|].
    destruct (if all_supported f then count_ok summary
              else count_not_supported summary);
      cbn [bind] in H; try discriminate.
    now injection H as <- _.
Qed.

(** A verbose run returns when the text [cmd] holds before the output name
    fits the array and the three counters are below [INT_MAX]. *)
Lemma check_file_verbose_total (avcodec_get_name : AVCodecID -> string)
    (g : Globals) (fmt_ctx : AVFormatContext) (filepath : string)
    (show_full_path : bool) (summary : Summary) :
  has_supported_extension filepath = true ->
  brief_mode g = false ->
  (String.length (command_held filepath (streams fmt_ctx)) < CMD_BUF_SIZE)%nat ->
  total summary < INT_MAX ->
  ok summary < INT_MAX ->
  not_supported summary < INT_MAX ->
  exists out summary',
    check_file avcodec_get_name g (Probed fmt_ctx) filepath show_full_path
               summary = Ok (out, summary').
Proof.
  intros Hext Hbrief Hfit Ht Ho Hn.
  rewrite (check_file_verbose avcodec_get_name g fmt_ctx filepath
             show_full_path summary Hext Hbrief).
  cbv zeta. rewrite transcode_command_exact.
  apply Nat.ltb_lt in Hfit. rewrite Hfit.
  rewrite (count_ok_below summary Ho Ht).
  rewrite (count_not_supported_below summary Hn Ht).
  cbn [bind].
  repeat match goal with
         | |- context [if ?b then _ else _] => destruct b; cbn [bind]
         end; do 2 eexists; reflexivity.
Qed.

(** The flags of the first pass, read on the streams. *)
Lemma media_is_type (par : AVCodecParameters) :
  is_media_stream (codec_type par) = true <->
  codec_type par = AVMEDIA_TYPE_VIDEO \/ codec_type par = AVMEDIA_TYPE_AUDIO
  \/ codec_type par = AVMEDIA_TYPE_SUBTITLE.
Proof.
  unfold is_media_stream.
  destruct (codec_type par); cbn; intuition discriminate.
Qed.

Lemma requires_reencoding_iff (st : AVStream) :
  media st && needs_reencoding (codecpar st) = true
  <-> requires_reencoding (codecpar st).
Proof.
  unfold media, requires_reencoding. split.
  - intros H. apply andb_true_iff in H. destruct H as [Hm Hn].
    now apply needs_reencoding_cases.
  - intros H.
    assert (Hm : is_media_stream (codec_type (codecpar st)) = true).
    { apply media_is_type. tauto. }
    rewrite Hm. cbn [andb]. now apply needs_reencoding_cases.
Qed.


Lemma can_transcode_streams (fmt_ctx : AVFormatContext) :
  can_transcode (file_flags fmt_ctx) = true <->
  exists st, In st (streams fmt_ctx) /\ requires_reencoding (codecpar st).
Proof.
  unfold file_flags.
  destruct (first_pass_spec
              (is_container_supported (Some (container_name fmt_ctx)))
              (streams fmt_ctx)) as (_ & _ & _ & Hc & _).
  rewrite Hc, existsb_exists. clear Hc.
  split; intros [st [Hin H]]; exists st; (split; [exact Hin|]);
    now apply requires_reencoding_iff.
Qed.

Lemma has_audio_or_video_streams (fmt_ctx : AVFormatContext) :
  has_video (file_flags fmt_ctx) || has_audio (file_flags fmt_ctx) = true <->
  exists st, In st (streams fmt_ctx) /\ audio_or_video (codecpar st).
Proof.
  unfold file_flags, audio_or_video.
  destruct (first_pass_spec
              (is_container_supported (Some (container_name fmt_ctx)))
              (streams fmt_ctx)) as (_ & Hv & Ha & _).
  rewrite Hv, Ha, orb_true_iff, !existsb_exists. clear Hv Ha.
  unfold is_video, is_audio. split.
  - intros [[st [Hin H]]|[st [Hin H]]]; exists st; (split; [exact Hin|]);
      apply type_eqb_eq in H; tauto.
  - intros [st [Hin [H|H]]]; [left|right]; exists st; (split; [exact Hin|]);
      now apply type_eqb_eq.
Qed.




(** C4 (amended).  In verbose mode, for every run on a probed file that
    returns, a transcode command is printed exactly when some stream
    requires re-encoding and the file has a video or an audio stream; the
    command printed is the one [transcode_command] builds.  The run returns
    whenever the text [cmd] holds before the output name fits the 8192-byte
    array and the counters are below [INT_MAX]. *)
Theorem transcode_offered_iff :
  forall (avcodec_get_name : AVCodecID -> string) (g : Globals)
         (fmt_ctx : AVFormatContext) (filepath : string)
         (show_full_path : bool) (summary : Summary),
    has_supported_extension filepath = true ->
    brief_mode g = false ->
    (forall (out : list Output) (summary' : Summary),
       check_file avcodec_get_name g (Probed fmt_ctx) filepath show_full_path
                  summary = Ok (out, summary') ->
       (offers_transcode out <->
          (exists st, In st (streams fmt_ctx) /\
                      requires_reencoding (codecpar st)) /\
          (exists st, In st (streams fmt_ctx) /\
                      audio_or_video (codecpar st))) /\
       (forall c, In (OutTranscode c) out ->
                  transcode_command filepath (streams fmt_ctx) = Ok c))
    /\ ((String.length (command_held filepath (streams fmt_ctx))
         < CMD_BUF_SIZE)%nat ->
        total summary < INT_MAX ->
        ok summary < INT_MAX ->
        not_supported summary < INT_MAX ->
        exists out summary',
          check_file avcodec_get_name g (Probed fmt_ctx) filepath
                     show_full_path summary = Ok (out, summary')).
Proof.
  intros name g fmt_ctx filepath show_full_path summary Hext Hbrief.
  split; [|now apply check_file_verbose_total].
  intros out summary' Hrun.
  apply (check_file_verbose_returns name g fmt_ctx filepath show_full_path
           summary out summary' Hext Hbrief) in Hrun.
  cbv zeta in Hrun. set (f := file_flags fmt_ctx) in *.
  rewrite <- can_transcode_streams, <- has_audio_or_video_streams. fold f.
  pose proof (all_supported_no_transcode
                (is_container_supported (Some (container_name fmt_ctx)))
                (streams fmt_ctx)) as Hall.
  fold (file_flags fmt_ctx) in Hall. fold f in Hall.
  destruct Hrun as [[-> Hskipped]|[_ (transcode & Htr & ->)]].
  - split; [|intros c []].
    split; [intros [c []]|]. intros [Hc _]. exfalso.
    destruct Hskipped as [H|H].
    + apply andb_true_iff in H. destruct H as [_ H].
      rewrite (Hall H) in Hc. discriminate Hc.
    + apply andb_true_iff in H. destruct H as [H _].
      apply andb_true_iff in H. destruct H as [_ H].
      apply negb_true_iff in H. congruence.
  - set (cond := negb (all_supported f) && (has_video f || has_audio f)
                 && can_transcode f) in *.
    assert (Hcond : cond = true <->
                    can_transcode f = true /\ (has_video f || has_audio f) = true).
    { unfold cond. rewrite !andb_true_iff, negb_true_iff.
      destruct (all_supported f) eqn:Ha; [|tauto].
      rewrite (Hall eq_refl). intuition discriminate. }
    assert (Hin : forall c,
              In (OutTranscode c)
                 ((OutHeader (if show_full_path then filepath
                              else get_basename filepath)
                     (container_name fmt_ctx)
                     (is_container_supported (Some (container_name fmt_ctx)))
                   :: print_streams 0 (streams fmt_ctx)
                   ++ [OutOverall (all_supported f)])
                  ++ (if negb (all_supported f) && (has_video f || has_audio f)
                      then [OutRemux (remux_command filepath)] else [])
                  ++ transcode ++ [OutNewline])%list
              <-> In (OutTranscode c) transcode).
    { intros c. apply transcode_in_report.
      intros o. apply optional_remux_only. }
    split.
    + rewrite <- Hcond. unfold offers_transcode. split.
      * intros [c Hc]. apply Hin in Hc.
        destruct cond; [reflexivity|]. subst transcode. destruct Hc.
      * intros Hc. rewrite Hc in Htr. destruct Htr as (c & _ & ->).
        exists c. apply Hin. now left.
    + intros c Hc. apply Hin in Hc. destruct cond.
      * destruct Htr as (c' & Hc' & ->). destruct Hc as [[= <-]|[]].
        exact Hc'.
      * subst transcode. destruct Hc.
Qed.

(** An AVI file with an Xvid video stream and an AAC audio stream: the run
    returns and offers a transcode command. *)
Lemma transcode_offered_iff_witness :
  let fmt_ctx :=
    mkFmt (Some "avi")
      [mkStream (mkPar AVMEDIA_TYPE_VIDEO AV_CODEC_ID_MPEG4
                       (MKTAG "X" "V" "I" "D") 0) None;
       mkStream (mkPar AVMEDIA_TYPE_AUDIO AV_CODEC_ID_AAC 0 1) None] in
  exists out summary',
    check_file (fun _ => "") (mkGlobals false false false) (Probed fmt_ctx)
               "/videos/clip.avi" false (mkSummary 0 0 0 0)
    = Ok (out, summary') /\
    offers_transcode out.
Proof.
  intros fmt_ctx.
  destruct (transcode_offered_iff (fun _ => "") (mkGlobals false false false)
              fmt_ctx "/videos/clip.avi" false (mkSummary 0 0 0 0)
              eq_refl eq_refl) as [Hrun Hreturns].
  destruct Hreturns as (out & summary' & E);
    [apply Nat.ltb_lt; vm_compute; reflexivity
    | reflexivity | reflexivity | reflexivity |].
  exists out, summary'. split; [exact E|].
  apply (proj1 (Hrun out summary' E)). split.
  - eexists. split; [left; reflexivity|]. left. split; reflexivity.
  - eexists. split; [left; reflexivity|]. left. reflexivity.
Defined.

(** C4 as stated fails: the only stream of this Matroska file is a DVB
    subtitle, which requires re-encoding, and the report offers no transcode
    command. *)
Lemma transcode_not_offered_without_audio_video :
  let fmt_ctx :=
    mkFmt (Some "matroska,webm")
      [mkStream (mkPar AVMEDIA_TYPE_SUBTITLE AV_CODEC_ID_DVB_SUBTITLE 0 0)
                (Some "eng")] in
  let out :=
    [OutHeader "subs.mkv" "matroska,webm" true;
     OutStream 0 AVMEDIA_TYPE_SUBTITLE AV_CODEC_ID_DVB_SUBTITLE "eng" false;
     OutOverall false;
     OutNewline] in
  (exists st, In st (streams fmt_ctx) /\ requires_reencoding (codecpar st)) /\
  can_transcode (file_flags fmt_ctx) = true /\
  check_file (fun _ => "") (mkGlobals false false false) (Probed fmt_ctx)
             "/media/subs.mkv" false (mkSummary 0 0 0 0)
  = Ok (out, mkSummary 1 0 1 0) /\
  ~ offers_transcode out.
Proof.
  cbv zeta. split; [|split; [reflexivity|split; [reflexivity|]]].
  - eexists. split; [left; reflexivity|].
    right. right. repeat split; reflexivity.
  - intros [c Hin]. cbn [In] in Hin.
    repeat (destruct Hin as [Hin|Hin]; [discriminate|]). exact Hin.
Qed.

(** ** The remux command *)





(** ** Subtitle selections *)

Lemma occurs_append (c : ascii) (a b : string) :
  occurs c (a ++ b) = occurs c a || occurs c b.
Proof.
  induction a as [|x a IH]; simpl; [reflexivity|].
  now rewrite IH, orb_assoc.
Qed.

Lemma occurs_truncate (c : ascii) (n : nat) (s : string) :
  occurs c s = false -> occurs c (truncate n s) = false.
Proof.
  revert n; induction s as [|x s IH]; intros n H.
  - now rewrite truncate_nil.
  - destruct n as [|n]; [reflexivity|].
    rewrite truncate_cons. simpl in *.
    apply orb_false_iff in H. destruct H as [-> H]. simpl. now apply IH.
Qed.

Lemma occurs_contains (c : ascii) (s needle : string) :
  contains s needle -> occurs c needle = true -> occurs c s = true.
Proof.
  intros [before [after ->]] H.
  rewrite !occurs_append, H. now rewrite orb_true_r.
Qed.

Lemma occurs_uint (c : ascii) (d : Decimal.uint) :
  (nat_of_ascii c < 48 \/ 57 < nat_of_ascii c)%nat ->
  occurs c (NilEmpty.string_of_uint d) = false.
Proof.
  intros Hc.
  induction d; cbn [NilEmpty.string_of_uint occurs]; try reflexivity;
    rewrite IHd, orb_false_r; apply Ascii.eqb_neq; intros <-;
    cbv in Hc; lia.
Qed.

Lemma occurs_r_fmt_d (n : Z) : occurs "r" (fmt_d n) = false.
Proof.
  unfold fmt_d.
  destruct (Z.to_int n) as [d|d]; cbn [NilEmpty.string_of_int occurs append];
    [|change (Ascii.eqb "-" "r") with false; cbn [orb]];
    apply occurs_uint; right; apply Nat.ltb_lt; reflexivity.
Qed.

Lemma occurs_r_codec_flag (letter choice : string) (n : Z) :
  occurs "r" letter = false -> occurs "r" choice = false ->
  occurs "r" (codec_flag letter n choice) = false.
Proof.
  intros Hl Hc. unfold codec_flag.
  rewrite !occurs_append, Hl, Hc, occurs_r_fmt_d. reflexivity.
Qed.

Lemma occurs_r_numbered_flags (letter : string)
    (choice : AVCodecParameters -> string) (ps : list AVCodecParameters) :
  occurs "r" letter = false ->
  (forall p, occurs "r" (choice p) = false) ->
  forall n, occurs "r" (numbered_flags letter choice n ps) = false.
Proof.
  intros Hl Hc. induction ps as [|p ps IH]; intros n; [reflexivity|].
  cbn [numbered_flags]. rewrite occurs_append, IH, orb_false_r.
  now apply occurs_r_codec_flag.
Qed.

Lemma occurs_r_selectors (ss : list AVStream) :
  forall hv ha hs, occurs "r" (selectors_from hv ha hs ss) = false.
Proof.
  induction ss as [|st ss IH]; intros hv ha hs; [reflexivity|].
  cbn [selectors_from].
  destruct (codec_type (codecpar st)); try apply IH;
    rewrite occurs_append, IH, orb_false_r.
  - now destruct hv.
  - now destruct ha.
  - now destruct hs.
Qed.

Lemma subtitle_choice_copy (par : AVCodecParameters) :
  subtitle_choice par = "copy".
Proof.
  unfold subtitle_choice.
  change (is_text_subtitle (codec_id par))
    with (is_subtitle_codec_supported (codec_id par)).
  now destruct (is_subtitle_codec_supported (codec_id par)).
Qed.

Lemma numbered_flags_ext (letter : string)
    (f g : AVCodecParameters -> string) (ps : list AVCodecParameters) :
  (forall p, f p = g p) ->
  forall n, numbered_flags letter f n ps = numbered_flags letter g n ps.
Proof.
  intros H. induction ps as [|p ps IH]; intros n; [reflexivity|].
  cbn [numbered_flags]. now rewrite H, IH.
Qed.

Lemma contains_append_l (a b needle : string) :
  contains a needle -> contains (a ++ b) needle.
Proof.
  intros [before [after ->]]. exists before, (after ++ b)%string.
  now rewrite !append_assoc.
Qed.

Lemma contains_append_r (a b needle : string) :
  contains b needle -> contains (a ++ b) needle.
Proof.
  intros [before [after ->]]. exists (a ++ before)%string, after.
  now rewrite !append_assoc.
Qed.

(** The flags of [ps] numbered from [n] hold the flag of each of them under
    its own number. *)
Lemma numbered_flags_contains (letter : string)
    (choice : AVCodecParameters -> string) (ps : list AVCodecParameters) :
  forall (n : Z) (k : nat) (d : AVCodecParameters),
    (k < List.length ps)%nat ->
    contains (numbered_flags letter choice n ps)
             (codec_flag letter (n + Z.of_nat k) (choice (nth k ps d))).
Proof.
  induction ps as [|p ps IH]; intros n k d Hk; [cbn in Hk; lia|].
  cbn [numbered_flags]. destruct k as [|k].
  - cbn [nth]. rewrite Z.add_0_r.
    apply contains_append_l. exists "", "". cbn [append].
    now rewrite append_nil_r.
  - cbn [nth]. apply contains_append_r.
    replace (n + Z.of_nat (S k)) with (n + 1 + Z.of_nat k) by lia.
    apply IH. cbn in Hk. lia.
Qed.

(** C10 (amended).  The [srt] branch needs a subtitle codec that is text and
    not supported, and the two predicates are the same: whatever the
    streams, the options the command holds (selectors and the three option
    buffers) never contain [srt], and every command the program builds is
    the input path, these options and the output name.  When the subtitle
    selections fit their 1024-byte buffer, the buffer holds one
    [-c:s:N copy] per subtitle stream, numbered from 0, and the command that
    is built contains each of them. *)
Theorem subtitle_selection_always_copy :
  (forall par : AVCodecParameters, subtitle_choice par = "copy")
  /\ (forall ss : list AVStream, subtitle_flags ss = subtitle_copy_flags ss)
  /\ (forall ss : list AVStream, ~ contains (options_held ss) "srt")
  /\ (forall (filepath : string) (ss : list AVStream) (c : string),
        transcode_command filepath ss = Ok c ->
        c = snprintf_append CMD_BUF_SIZE
              (snprintf CMD_BUF_SIZE ("ffmpeg -i " ++ shell_escape_single filepath)
               ++ options_held ss)
              (" " ++ shell_escape_single (fixed_basename filepath)))
  /\ (forall (filepath : string) (ss : list AVStream) (c : string),
        transcode_command filepath ss = Ok c ->
        (String.length (subtitle_copy_flags ss) < OPTS_BUF_SIZE)%nat ->
        c = snprintf_append CMD_BUF_SIZE
              (snprintf CMD_BUF_SIZE ("ffmpeg -i " ++ shell_escape_single filepath)
               ++ map_selectors ss
               ++ snprintf OPTS_BUF_SIZE (video_flags ss)
               ++ snprintf OPTS_BUF_SIZE (audio_flags ss)
               ++ subtitle_copy_flags ss)
              (" " ++ shell_escape_single (fixed_basename filepath))
        /\ forall n : nat,
             (n < List.length (of_type AVMEDIA_TYPE_SUBTITLE ss))%nat ->
             contains c (codec_flag "s" (Z.of_nat n) "copy")).
Proof.
  assert (Hflags : forall ss, subtitle_flags ss = subtitle_copy_flags ss).
  { intros ss. unfold subtitle_flags, subtitle_copy_flags.
    apply numbered_flags_ext. exact subtitle_choice_copy. }
  assert (Hform : forall (filepath : string) (ss : list AVStream) (c : string),
        transcode_command filepath ss = Ok c ->
        c = snprintf_append CMD_BUF_SIZE
              (snprintf CMD_BUF_SIZE ("ffmpeg -i " ++ shell_escape_single filepath)
               ++ options_held ss)
              (" " ++ shell_escape_single (fixed_basename filepath))).
  { intros filepath ss c H. rewrite transcode_command_exact in H.
    fold (command_held filepath ss).
    destruct (String.length (command_held filepath ss) <? CMD_BUF_SIZE)%nat;
      [now injection H as <- | discriminate]. }
  split; [exact subtitle_choice_copy|]. split; [exact Hflags|].
  split; [|split; [exact Hform|]].
  - intros ss H.
    apply (occurs_contains "r") in H; [|reflexivity].
    unfold options_held, snprintf in H.
    rewrite <- selectors_map_selectors, !occurs_append, occurs_r_selectors in H.
    unfold video_flags, audio_flags, subtitle_flags in H.
    rewrite !occurs_truncate in H; [discriminate| | |];
      apply occurs_r_numbered_flags; try reflexivity; intros p.
    + now rewrite subtitle_choice_copy.
    + unfold audio_choice. now destruct (is_audio_codec_supported _).
    + unfold video_choice. now destruct (is_video_codec_supported _).
  - intros filepath ss c H Hfit. apply Hform in H.
    unfold options_held in H.
    rewrite Hflags, (snprintf_fits OPTS_BUF_SIZE _ Hfit) in H.
    split; [exact H|]. intros n Hn. subst c.
    unfold snprintf_append. apply contains_append_l.
    do 4 apply contains_append_r.
    exact (numbered_flags_contains "s" (fun _ => "copy")
             (of_type AVMEDIA_TYPE_SUBTITLE ss) 0 n
             (mkPar AVMEDIA_TYPE_SUBTITLE AV_CODEC_ID_NONE 0 0) Hn).
Qed.

(** A Matroska file with an H.264 stream, a DTS stream, a DVB subtitle, an
    SRT subtitle and a PGS subtitle. *)
Lemma subtitle_selection_always_copy_witness :
  let ss :=
    [mkStream (mkPar AVMEDIA_TYPE_VIDEO AV_CODEC_ID_H264 0 100) None;
     mkStream (mkPar AVMEDIA_TYPE_AUDIO AV_CODEC_ID_DTS 0 0) (Some "eng");
     mkStream (mkPar AVMEDIA_TYPE_SUBTITLE AV_CODEC_ID_DVB_SUBTITLE 0 0) None;
     mkStream (mkPar AVMEDIA_TYPE_SUBTITLE AV_CODEC_ID_SUBRIP 0 0) None;
     mkStream (mkPar AVMEDIA_TYPE_SUBTITLE AV_CODEC_ID_HDMV_PGS_SUBTITLE 0 0)
              None] in
  let c := "ffmpeg -i '/media/film.mkv' -map 0:v -map 0:a -map 0:s -c:v:0 copy -c:a:0 aac -c:s:0 copy -c:s:1 copy -c:s:2 copy 'fixed_film.mkv'" in
  transcode_command "/media/film.mkv" ss = Ok c /\
  contains c " -c:s:0 copy" /\ contains c " -c:s:1 copy" /\
  contains c " -c:s:2 copy".
Proof.
  intros ss c.
  assert (H : transcode_command "/media/film.mkv" ss = Ok c)
    by (vm_compute; reflexivity).
  assert (Hfit : (String.length (subtitle_copy_flags ss) < OPTS_BUF_SIZE)%nat)
    by (apply Nat.ltb_lt; vm_compute; reflexivity).
  pose proof (proj2 (proj2 (proj2 (proj2 (proj2 subtitle_selection_always_copy)))
                       "/media/film.mkv" ss c H Hfit)) as Hall.
  split; [exact H|].
  split; [|split].
  - apply (Hall 0%nat). apply Nat.ltb_lt. vm_compute. reflexivity.
  - apply (Hall 1%nat). apply Nat.ltb_lt. vm_compute. reflexivity.
  - apply (Hall 2%nat). apply Nat.ltb_lt. vm_compute. reflexivity.
Defined.

(** C10 as stated fails: with eighty subtitle streams the selections take
    1030 bytes and the buffer holds 1023.  The command is built and printed;
    it has no selection for the last subtitle stream, and ends in the cut
    flag [-c:s:] and the output name. *)
Lemma subtitle_flag_cut_off :
  exists (c : string) (out : list Output) (summary' : Summary),
    transcode_command "/media/m.mkv" eighty_subtitles = Ok c /\
    check_file (fun _ => "") (mkGlobals false false false)
               (Probed (mkFmt (Some "matroska,webm") eighty_subtitles))
               "/media/m.mkv" false (mkSummary 0 0 0 0)
    = Ok (out, summary') /\
    In (OutTranscode c) out /\
    List.length (of_type AVMEDIA_TYPE_SUBTITLE eighty_subtitles) = 80%nat /\
    String.length (subtitle_copy_flags eighty_subtitles) = Z.to_nat 1030 /\
    contains c " -c:s:78 copy -c:s: 'fixed_m.mkv'" /\
    ~ contains c " -c:s:79 copy".
Proof.
  eexists. eexists. eexists.
  split; [vm_compute; reflexivity|].
  split; [vm_compute; reflexivity|].
  split; [repeat first [left; reflexivity | right]|].
  split; [vm_compute; reflexivity|].
  split; [vm_compute; reflexivity|].
  split.
  - apply found_iff. vm_compute. reflexivity.
  - intros H. apply found_iff in H. vm_compute in H. discriminate H.
Qed.

(** ** Paths that do not fit

    The hypotheses on lengths above are needed.  For a path of 2265 bytes with
    2250 single quotes the escaped path alone is longer than [cmd]: the remux
    command is cut at 8191 bytes, and building the transcode command writes
    past the end of the array. *)
Lemma long_quoted_path_does_not_fit :
  has_supported_extension long_quoted_path = true /\
  String.length long_quoted_path = Z.to_nat 2265 /\
  String.length (remux_command long_quoted_path) = Z.to_nat 8191 /\
  String.length (remux_text long_quoted_path) = Z.to_nat 9062 /\
  transcode_command long_quoted_path
    [mkStream (mkPar AVMEDIA_TYPE_VIDEO AV_CODEC_ID_MPEG4
                     (MKTAG "X" "V" "I" "D") 0) None]
  = BufferOverrun.
Proof.
  refine (conj _ (conj _ (conj _ (conj _ _)))); vm_compute; reflexivity.
Qed.

(** ** The audio classifier *)

(** X1.  An audio codec is classified supported exactly when it is AAC, AC3,
    EAC3, MP3, PCM S16LE, FLAC, Vorbis, Opus or WMAv2; for a stream of type
    audio the verdict is that of its codec alone, whatever its tag and
    profile. *)
Theorem audio_classification_exact :
  (forall id : AVCodecID,
     is_audio_codec_supported id = true <-> In id audio_allow_list)
  /\ (forall (id : AVCodecID) (tag prof : Z),
        stream_supported (mkPar AVMEDIA_TYPE_AUDIO id tag prof) = true
        <-> In id audio_allow_list).
Proof.
  assert (H : forall id, is_audio_codec_supported id = true
                         <-> In id audio_allow_list).
  { intros id. unfold is_audio_codec_supported, audio_allow_list; simpl In.
    bool_to_prop. intuition congruence. }
  split; [exact H|]. intros id tag prof. exact (H id).
Qed.

(** ** Paths *)

Lemma strrchr_none (s : string) (c : ascii) :
  strrchr s c = None <-> occurs c s = false.
Proof.
  induction s as [|a s IH]; simpl; [tauto|].
  destruct (strrchr s c) as [t|].
  - split; [discriminate|]. intros H. apply orb_false_iff in H.
    destruct H as [_ H]. apply IH in H. discriminate.
  - rewrite orb_false_iff. destruct (Ascii.eqb a c).
    + split; [discriminate | intros [H _]; discriminate].
    + split; [intros _; split; [reflexivity | now apply IH] | reflexivity].
Qed.

(** The result of [strrchr] starts at the last occurrence. *)
Lemma strrchr_some (s : string) (c : ascii) (t : string) :
  strrchr s c = Some t ->
  exists before after,
    s = (before ++ t)%string /\ t = String c after /\ occurs c after = false.
Proof.
  revert t; induction s as [|a s IH]; intros t H; simpl in H; [discriminate|].
  destruct (strrchr s c) as [u|] eqn:E.
  - injection H as <-. destruct (IH u eq_refl) as (before & after & -> & Hu & Ho).
    now exists (String a before), after.
  - destruct (Ascii.eqb a c) eqn:Ea; [|discriminate].
    injection H as <-. apply Ascii.eqb_eq in Ea. subst a.
    exists "", s. repeat split. now apply strrchr_none.
Qed.

Lemma strrchr_last (before after : string) (c : ascii) :
  occurs c after = false ->
  strrchr (before ++ String c after) c = Some (String c after).
Proof.
  intros H. induction before as [|a before IH]; simpl.
  - apply strrchr_none in H. now rewrite H, Ascii.eqb_refl.
  - simpl in IH. now rewrite IH.
Qed.

(** Appending text without [c] moves the last occurrence along. *)
Lemma strrchr_append_without (a b : string) (c : ascii) :
  occurs c b = false ->
  strrchr (a ++ b) c = option_map (fun t => (t ++ b)%string) (strrchr a c).
Proof.
  intros H. induction a as [|x a IH]; simpl.
  - now apply strrchr_none.
  - rewrite IH. destruct (strrchr a c); simpl; [reflexivity|].
    now destruct (Ascii.eqb x c).
Qed.

Lemma tolower_is (c d : ascii) :
  (nat_of_ascii d < 65 \/ 122 < nat_of_ascii d)%nat ->
  Ascii.eqb (tolower c) d = Ascii.eqb c d.
Proof.
  intros Hd. unfold tolower.
  destruct ((65 <=? nat_of_ascii c) && (nat_of_ascii c <=? 90))%nat eqn:E;
    [|reflexivity].
  apply andb_true_iff in E. destruct E as [E1 E2].
  apply Nat.leb_le in E1, E2.
  transitivity false.
  - apply Ascii.eqb_neq. intros <-.
    rewrite nat_ascii_embedding in Hd by lia. lia.
  - symmetry. apply Ascii.eqb_neq. intros <-. lia.
Qed.

Lemma occurs_lowercase (d : ascii) (s : string) :
  (nat_of_ascii d < 65 \/ 122 < nat_of_ascii d)%nat ->
  occurs d (lowercase s) = occurs d s.
Proof.
  intros Hd. induction s as [|c s IH]; simpl; [reflexivity|].
  now rewrite IH, tolower_is.
Qed.

Lemma strcasecmp_eq_lowercase (a b : string) :
  strcasecmp_eq a b = true <-> lowercase a = lowercase b.
Proof.
  revert b; induction a as [|x a IH]; intros [|y b]; simpl;
    try (split; [reflexivity || discriminate | reflexivity || discriminate]).
  rewrite andb_true_iff, Ascii.eqb_eq, IH. split.
  - intros [-> ->]. reflexivity.
  - intros H. injection H as H1 H2. now split.
Qed.

Lemma supported_extensions_shape (e : string) :
  In e supported_extensions ->
  lowercase e = e /\
  exists after, e = String "." after /\ occurs "." after = false
                /\ occurs "/" after = false.
Proof.
  unfold supported_extensions. simpl In.
  intros H.
  repeat (destruct H as [<-|H];
          [split; [reflexivity | eexists; repeat split]|]).
  contradiction.
Qed.

(** A string that is an extension up to case starts at its only dot and has
    no slash. *)
Lemma extension_up_to_case (ext : string) :
  In (lowercase ext) supported_extensions ->
  exists after, ext = String "." after /\ occurs "." after = false
                /\ occurs "/" after = false.
Proof.
  intros H. apply supported_extensions_shape in H.
  destruct H as (_ & after & E & Hdot & Hslash).
  destruct ext as [|c r]; simpl in E; [discriminate|].
  injection E as Ec Er. exists r.
  assert (Hc : Ascii.eqb (tolower c) "." = true) by (rewrite Ec; reflexivity).
  rewrite tolower_is in Hc by (left; apply Nat.ltb_lt; reflexivity).
  apply Ascii.eqb_eq in Hc. subst c after.
  rewrite occurs_lowercase in Hdot, Hslash
    by (left; apply Nat.ltb_lt; reflexivity).
  repeat split; assumption.
Qed.

Lemma has_supported_extension_iff :
  forall path : string,
    has_supported_extension path = true <->
    exists stem ext,
      path = (stem ++ ext)%string /\ In (lowercase ext) supported_extensions.
Proof.
  intros path. unfold has_supported_extension. split.
  - destruct (strrchr path ".") as [dot|] eqn:E; [|discriminate].
    intros H. apply existsb_exists in H. destruct H as (e & Hin & He).
    apply strrchr_some in E. destruct E as (before & after & -> & _ & _).
    exists before, dot. split; [reflexivity|].
    apply strcasecmp_eq_lowercase in He.
    rewrite He. fold supported_extensions in Hin.
    now rewrite (proj1 (supported_extensions_shape e Hin)).
  - intros (stem & ext & -> & Hin).
    destruct (extension_up_to_case ext Hin) as (after & -> & Hdot & _).
    rewrite (strrchr_last stem after "." Hdot).
    apply existsb_exists. exists (lowercase (String "." after)).
    split; [exact Hin|].
    apply strcasecmp_eq_lowercase.
    now rewrite (proj1 (supported_extensions_shape _ Hin)).
Qed.

(** X2.  A path passes the extension filter exactly when it ends, from its
    last dot on, in [.mkv], [.mp4], [.mov], [.webm] or [.avi] in any mix of
    upper and lower case: a path without a dot, or whose last dot lies in a
    directory name, is turned away. *)
Theorem extension_filter_exact :
  forall path : string,
    has_supported_extension path = true <->
    exists stem ext,
      path = (stem ++ ext)%string /\ In (lowercase ext) supported_extensions.
Proof. exact has_supported_extension_iff. Qed.

Lemma get_basename_append (dir name : string) :
  occurs "/" name = false ->
  get_basename (dir ++ "/" ++ name) = name.
Proof.
  intros H. unfold get_basename.
  change (dir ++ "/" ++ name)%string with (dir ++ String "/" name)%string.
  now rewrite (strrchr_last dir name "/" H).
Qed.

(** X3.  The base name of a path has no slash and is what follows the last
    slash of the path: the path is a directory part, empty or ending in a
    slash, followed by the base name; a path without a slash is its own base
    name, and [get_basename] gives back the name put behind a directory. *)
Theorem get_basename_spec :
  forall path : string,
    occurs "/" (get_basename path) = false
    /\ (exists dir, path = (dir ++ get_basename path)%string /\
                    (dir = "" \/ exists d, dir = (d ++ "/")%string))
    /\ (occurs "/" path = false -> get_basename path = path)
    /\ (forall dir, occurs "/" path = false ->
                    get_basename (dir ++ "/" ++ path) = path).
Proof.
  intros path.
  assert (Hno : occurs "/" path = false -> get_basename path = path).
  { intros H. unfold get_basename. apply strrchr_none in H. now rewrite H. }
  split; [|split; [|split; [exact Hno|]]].
  - unfold get_basename. destruct (strrchr path "/") as [t|] eqn:E.
    + apply strrchr_some in E. destruct E as (before & after & _ & -> & H).
      exact H.
    + now apply strrchr_none.
  - unfold get_basename. destruct (strrchr path "/") as [t|] eqn:E.
    + apply strrchr_some in E. destruct E as (before & after & -> & -> & H).
      exists (before ++ "/")%string. split.
      * now rewrite append_assoc.
      * right. now exists before.
    + exists "". split; [reflexivity | now left].
  - intros dir H. now apply get_basename_append.
Qed.

Lemma get_basename_append_without (stem ext : string) :
  occurs "/" ext = false ->
  get_basename (stem ++ ext) = (get_basename stem ++ ext)%string.
Proof.
  intros H. unfold get_basename.
  rewrite (strrchr_append_without stem ext "/" H).
  destruct (strrchr stem "/") as [t|] eqn:E; [|reflexivity].
  apply strrchr_some in E. destruct E as (_ & after & _ & -> & _).
  reflexivity.
Qed.

Lemma truncate_prefix (a b : string) :
  truncate (String.length a) (a ++ b) = a.
Proof.
  rewrite truncate_append, Nat.sub_diag, truncate_0, append_nil_r.
  now apply truncate_all.
Qed.

(** X4.  For a path that passes the extension filter, the name of the
    transcoded file is [fixed_], the base name without its extension, and
    [.mkv] (cut to the 4096-byte array): directories and the old extension
    are dropped, dots inside the stem are kept. *)
Theorem fixed_basename_replaces_extension :
  forall path : string,
    has_supported_extension path = true ->
    exists stem ext,
      get_basename path = (stem ++ ext)%string /\
      In (lowercase ext) supported_extensions /\
      fixed_basename path
      = snprintf PATH_BUF_SIZE ("fixed_" ++ stem ++ ".mkv").
Proof.
  intros path H. apply has_supported_extension_iff in H.
  destruct H as (stem0 & ext & -> & Hin).
  destruct (extension_up_to_case ext Hin) as (after & E & Hdot & Hslash).
  assert (Hs : occurs "/" ext = false) by (subst ext; exact Hslash).
  exists (get_basename stem0), ext.
  split; [now apply get_basename_append_without|]. split; [exact Hin|].
  unfold fixed_basename. rewrite (get_basename_append_without _ _ Hs).
  rewrite E at 1. rewrite (strrchr_last _ after "." Hdot), <- E.
  rewrite length_append, Nat.add_sub, truncate_prefix. reflexivity.
Qed.

Lemma fixed_basename_replaces_extension_witness :
  exists stem ext,
    get_basename "/media/tv/show.s01e02.MKV" = (stem ++ ext)%string /\
    In (lowercase ext) supported_extensions /\
    fixed_basename "/media/tv/show.s01e02.MKV"
    = snprintf PATH_BUF_SIZE ("fixed_" ++ stem ++ ".mkv").
Proof.
  apply (fixed_basename_replaces_extension "/media/tv/show.s01e02.MKV").
  reflexivity.
Defined.

(** ** The allocation of [shell_escape_single] *)

(** X5.  No write of [shell_escape_single] leaves the allocated block of
    [4 * strlen(input) + 4] bytes.  With [before] the characters already
    copied and [rest] those still to come, what is written so far and the
    widest next write fit: five bytes for [strcpy] of the escaped quote with
    its NUL while characters remain, two bytes for the closing quote and the
    NUL at the end. *)
Theorem shell_escape_stays_in_block :
  forall before rest : string,
    (String.length (shell_escape_loop before "'")
     + match rest with EmptyString => 2 | String _ _ => 5 end
     <= shell_escape_alloc (before ++ rest))%nat.
Proof.
  intros before rest. rewrite shell_escape_loop_spec.
  unfold shell_escape_alloc. rewrite !length_append.
  pose proof (length_quote_body before) as H.
  change (String.length "'") with 1%nat.
  destruct rest; simpl String.length; lia.
Qed.

(** X6.  The escaped token is the input's length plus two quotes plus three
    more bytes for every single quote in the input; an input without single
    quotes is only wrapped in quotes. *)
Theorem shell_escape_length :
  (forall input : string,
     String.length (shell_escape_single input)
     = (String.length input + 3 * count_char "'" input + 2)%nat)
  /\ (forall input : string,
        count_char "'" input = O ->
        shell_escape_single input = ("'" ++ input ++ "'")%string).
Proof.
  split; intros input.
  - rewrite shell_escape_single_spec. simpl. rewrite length_append. simpl.
    assert (String.length (quote_body input)
            = String.length input + 3 * count_char "'" input)%nat; [|lia].
    induction input as [|c s IH]; [reflexivity|].
    simpl quote_body. rewrite length_append, IH. unfold quote_char. simpl.
    destruct (Ascii.eqb c "'"); simpl; lia.
  - intros H. rewrite shell_escape_single_spec. do 2 f_equal.
    induction input as [|c s IH]; [reflexivity|].
    simpl in H |- *. unfold quote_char.
    destruct (Ascii.eqb c "'"); [discriminate|].
    simpl. now rewrite IH.
Qed.

Lemma shell_escape_length_witness :
  shell_escape_single "/media/film one.mkv" = "'/media/film one.mkv'".
Proof.
  apply (proj2 shell_escape_length "/media/film one.mkv"). reflexivity.
Defined.

(** ** Counting *)

Lemma forallb_negb_existsb {A : Type} (p : A -> bool) (l : list A) :
  forallb p l = negb (existsb (fun x => negb (p x)) l).
Proof.
  induction l as [|x l IH]; [reflexivity|].
  simpl. rewrite IH. now destruct (p x).
Qed.

Lemma all_supported_some_unsupported (fmt_ctx : AVFormatContext) :
  all_supported (file_flags fmt_ctx)
  = is_container_supported (Some (container_name fmt_ctx))
    && negb (some_unsupported (streams fmt_ctx)).
Proof.
  unfold file_flags.
  destruct (first_pass_spec
              (is_container_supported (Some (container_name fmt_ctx)))
              (streams fmt_ctx)) as (Ha & _).
  rewrite Ha, forallb_negb_existsb. unfold some_unsupported. clear Ha.
  do 2 f_equal.
  induction (streams fmt_ctx) as [|st ss IH]; [reflexivity|].
  simpl. rewrite IH. f_equal.
  now destruct (media st), (stream_supported (codecpar st)).
Qed.

(** What the loop of the brief mode leaves in [has_unsupported]. *)
Lemma brief_loop_verdict (codec_name : AVCodecID -> string)
    (ss : list AVStream) :
  forall (i : Z) (b b' : Brief),
    brief_loop codec_name i ss b = Ok b' ->
    has_unsupported b' = has_unsupported b || some_unsupported ss.
Proof.
  unfold some_unsupported.
  induction ss as [|st ss IH]; intros i b b' H; simpl in H.
  - injection H as <-. now rewrite orb_false_r.
  - unfold media at 1. simpl existsb.
    destruct (is_media_stream (codec_type (codecpar st))); simpl in H |- *.
    + unfold brief_snprintf in H.
      destruct (linelen b <=? CMD_BUF_SIZE)%nat; [|discriminate].
      cbn [bind] in H. apply IH in H. rewrite H. cbn [has_unsupported].
      destruct (stream_supported (codecpar st)); simpl.
      * reflexivity.
      * now rewrite orb_true_r.
    + now apply IH in H.
Qed.

Lemma check_file_counts (codec_name : AVCodecID -> string) (g : Globals)
    (probe : ProbeResult) (filepath : string) (show_full_path : bool)
    (s : Summary) (out : list Output) (s' : Summary) :
  check_file codec_name g probe filepath show_full_path s = Ok (out, s') ->
  s' = counted probe filepath s /\ steps s s'.
Proof.
  assert (Hok : forall (o : list Output) (all : bool),
    all = true ->
    (s1 <- count_ok s ;; Ok (o, s1)) = Ok (out, s') ->
    s' = (if all
          then mkSummary (total s + 1) (ok s + 1) (not_supported s) (errors s)
          else mkSummary (total s + 1) (ok s) (not_supported s + 1) (errors s))
    /\ steps s s').
  { intros o all -> H.
    destruct (count_ok s) as [s1| |] eqn:E; cbn [bind] in H; try discriminate.
    injection H as _ <-. apply count_ok_returns in E.
    destruct E as (Ho & Ht & ->). split; [reflexivity|].
    unfold steps, stays_or_steps; cbn [total ok not_supported errors]. lia. }
  assert (Hno : forall (o : list Output) (all : bool),
    all = false ->
    (s1 <- count_not_supported s ;; Ok (o, s1)) = Ok (out, s') ->
    s' = (if all
          then mkSummary (total s + 1) (ok s + 1) (not_supported s) (errors s)
          else mkSummary (total s + 1) (ok s) (not_supported s + 1) (errors s))
    /\ steps s s').
  { intros o all -> H.
    destruct (count_not_supported s) as [s1| |] eqn:E; cbn [bind] in H;
      try discriminate.
    injection H as _ <-. apply count_not_supported_returns in E.
    destruct E as (Hn & Ht & ->). split; [reflexivity|].
    unfold steps, stays_or_steps; cbn [total ok not_supported errors]. lia. }
  assert (Herr : forall o : list Output,
    (s1 <- count_error s ;; Ok (o, s1)) = Ok (out, s') ->
    s' = mkSummary (total s) (ok s) (not_supported s) (errors s + 1)
    /\ steps s s').
  { intros o H.
    destruct (count_error s) as [s1| |] eqn:E; cbn [bind] in H;
      try discriminate.
    injection H as _ <-. apply count_error_returns in E.
    destruct E as (He & ->). split; [reflexivity|].
    unfold steps, stays_or_steps; cbn [total ok not_supported errors]. lia. }
  unfold check_file, counted.
  destruct (has_supported_extension filepath); cbn [negb];
    [|intros [= _ <-]; split; [reflexivity|];
      unfold steps, stays_or_steps; tauto].
  destruct probe as [ret|ret|fmt_ctx]; try apply Herr.
  rewrite all_supported_some_unsupported.
  destruct (brief_mode g).
  - set (k := is_container_supported (Some (container_name fmt_ctx))).
    assert (Hstart :
      (if negb k
       then brief_snprintf (mkBrief "" 0 false)
              (COLOR_RED ++ "[container:" ++ container_name fmt_ctx ++ "]"
               ++ COLOR_RESET) true
       else Ok (mkBrief "" 0 false))
      = Ok (mkBrief (if k then ""
                     else truncate (CMD_BUF_SIZE - 0 - 1)
                            (COLOR_RED ++ "[container:"
                             ++ container_name fmt_ctx ++ "]" ++ COLOR_RESET))
                    (if k then 0%nat
                     else String.length
                            (COLOR_RED ++ "[container:"
                             ++ container_name fmt_ctx ++ "]" ++ COLOR_RESET))
                    (negb k))).
    { destruct k; reflexivity. }
    rewrite Hstart. cbn [bind].
    destruct (brief_loop codec_name 0 (streams fmt_ctx) _) as [b'| |] eqn:E;
      cbn [bind]; try discriminate.
    apply brief_loop_verdict in E. cbn [has_unsupported] in E. rewrite E.
    destruct (negb k || some_unsupported (streams fmt_ctx)) eqn:Hv.
    + apply Hno. destruct k, (some_unsupported (streams fmt_ctx));
        try reflexivity; discriminate Hv.
    + apply Hok. destruct k, (some_unsupported (streams fmt_ctx));
        try reflexivity; discriminate Hv.
  - fold (file_flags fmt_ctx). rewrite all_supported_some_unsupported.
    fold (file_flags fmt_ctx).
    set (f := file_flags fmt_ctx).
    set (k := is_container_supported (Some (container_name fmt_ctx))).
    set (u := some_unsupported (streams fmt_ctx)).
    destruct (skip_ok g && (k && negb u)) eqn:Hskipok.
    { apply andb_true_iff in Hskipok. destruct Hskipok as [_ Hall].
      now apply Hok. }
    destruct (skip_unfixable g && negb (k && negb u) && negb (can_transcode f)
              && has_unsupported_bitmap_subtitle f) eqn:Hskip.
    { apply andb_true_iff in Hskip. destruct Hskip as [Hskip _].
      apply andb_true_iff in Hskip. destruct Hskip as [Hskip _].
      apply andb_true_iff in Hskip. destruct Hskip as [_ Hn].
      apply negb_true_iff in Hn. now apply Hno. }
    match goal with
    | |- bind ?t _ = _ -> _ => destruct t as [tr| |]; cbn [bind]
    end; try discriminate.
    destruct (k && negb u);
      [exact (Hok _ true eq_refl) | exact (Hno _ false eq_refl)].
Qed.

Lemma steps_int_counters (s s' : Summary) :
  steps s s' -> int_counters s -> int_counters s'.
Proof. unfold steps, stays_or_steps, int_counters, INT_MIN, INT_MAX. lia. Qed.

(** X7.  What [check_file] adds to the summary depends on the file alone:
    the brief, skip-ok, skip-unfixable and full-path settings change what is
    printed, never what is counted.  A file turned away by the extension
    filter counts nowhere, a probe failure counts as one error only, and a
    probed file adds one to the total and one to either ok or not-supported
    by its verdict.  The counters are [int]s: a run whose increment would
    pass [INT_MAX] does not return, so in a run that returns every counter
    either stayed or was below [INT_MAX] and went up by one. *)
Theorem counting_ignores_modes :
  forall (name1 name2 : AVCodecID -> string) (g1 g2 : Globals)
         (probe : ProbeResult) (filepath : string) (full1 full2 : bool)
         (s : Summary) (out1 out2 : list Output) (s1 s2 : Summary),
    check_file name1 g1 probe filepath full1 s = Ok (out1, s1) ->
    check_file name2 g2 probe filepath full2 s = Ok (out2, s2) ->
    s1 = s2 /\ s1 = counted probe filepath s /\ steps s s1.
Proof.
  intros name1 name2 g1 g2 probe filepath full1 full2 s out1 out2 s1 s2 H1 H2.
  apply check_file_counts in H1, H2.
  destruct H1 as [E1 R1], H2 as [E2 _].
  split; [congruence|]. now split.
Qed.

Lemma counting_ignores_modes_witness :
  let probe :=
    Probed (mkFmt (Some "matroska,webm")
      [mkStream (mkPar AVMEDIA_TYPE_VIDEO AV_CODEC_ID_H264 0 100) None;
       mkStream (mkPar AVMEDIA_TYPE_SUBTITLE AV_CODEC_ID_HDMV_PGS_SUBTITLE 0 0)
                (Some "eng")]) in
  mkSummary 5 3 2 0 = mkSummary 5 3 2 0 /\
  mkSummary 5 3 2 0 = counted probe "/media/film.mkv" (mkSummary 4 3 1 0) /\
  steps (mkSummary 4 3 1 0) (mkSummary 5 3 2 0).
Proof.
  intros probe.
  apply (counting_ignores_modes
           sample_codec_name (fun _ => "") (mkGlobals true false false)
           (mkGlobals false false true) probe "/media/film.mkv" true false
           (mkSummary 4 3 1 0)
           [OutBriefLine "/media/film.mkv"
              (COLOR_GREEN ++ "[0:video:h264:und]" ++ COLOR_RESET ++ COLOR_RED
               ++ "[1:subtitle:hdmv_pgs_subtitle:eng]" ++ COLOR_RESET)]
           []);
    reflexivity.
Defined.

(** ** Fully supported files *)

(** X8.  In verbose mode a fully supported file is counted as ok (the two
    [int]s it increments being below [INT_MAX]) and is never offered a remux
    or a transcode command, for a path of any length: no command is built,
    so no array can be overrun.  With [--skip-ok] nothing at all is printed
    for it. *)
Theorem fully_supported_file_gets_no_suggestion :
  forall (codec_name : AVCodecID -> string) (g : Globals)
         (fmt_ctx : AVFormatContext) (filepath : string)
         (show_full_path : bool) (s : Summary),
    has_supported_extension filepath = true ->
    brief_mode g = false ->
    all_supported (file_flags fmt_ctx) = true ->
    ok s < INT_MAX ->
    total s < INT_MAX ->
    exists out,
      check_file codec_name g (Probed fmt_ctx) filepath show_full_path s
      = Ok (out, mkSummary (total s + 1) (ok s + 1) (not_supported s)
                           (errors s)) /\
      ~ offers_remux out /\ ~ offers_transcode out /\
      (skip_ok g = true -> out = []) /\
      (skip_ok g = false -> In (OutOverall true) out).
Proof.
  intros codec_name g fmt_ctx filepath show_full_path s Hext Hbrief Hall
    Ho Ht.
  rewrite (check_file_verbose codec_name g fmt_ctx filepath show_full_path s
             Hext Hbrief).
  cbv zeta. rewrite Hall, andb_true_r. cbn [negb andb].
  rewrite !andb_false_r, (count_ok_below s Ho Ht). cbn [bind].
  destruct (skip_ok g).
  - exists []. split; [reflexivity|].
    split; [intros [c []]|]. split; [intros [c []]|].
    split; [reflexivity | discriminate].
  - eexists. split; [reflexivity|].
    split; [|split; [|split; [discriminate|]]].
    + intros [c Hc].
      apply (remux_in_report _ _ _ _ _ [] []) in Hc; [exact Hc|].
      intros o [].
    + intros [c Hc].
      apply (transcode_in_report _ _ _ _ _ [] []) in Hc; [exact Hc|].
      intros o [].
    + intros _. apply in_or_app. left. right. apply in_or_app. right.
      now left.
Qed.

(** An AVI file with an H.264 and an MP3 stream. *)
Lemma fully_supported_file_gets_no_suggestion_witness :
  exists out,
    check_file (fun _ => "") (mkGlobals false false false)
      (Probed (mkFmt (Some "avi")
         [mkStream (mkPar AVMEDIA_TYPE_VIDEO AV_CODEC_ID_H264 0 100) None;
          mkStream (mkPar AVMEDIA_TYPE_AUDIO AV_CODEC_ID_MP3 0 0) None]))
      "/videos/clip.avi" false (mkSummary 0 0 0 0)
    = Ok (out, mkSummary 1 1 0 0) /\
    ~ offers_remux out /\ ~ offers_transcode out /\
    (false = true -> out = []) /\
    (false = false -> In (OutOverall true) out).
Proof.
  apply (fully_supported_file_gets_no_suggestion
           (fun _ => "") (mkGlobals false false false)
           (mkFmt (Some "avi")
              [mkStream (mkPar AVMEDIA_TYPE_VIDEO AV_CODEC_ID_H264 0 100) None;
               mkStream (mkPar AVMEDIA_TYPE_AUDIO AV_CODEC_ID_MP3 0 0) None])
           "/videos/clip.avi" false (mkSummary 0 0 0 0));
    reflexivity.
Defined.

(** ** The rows of the verbose report *)

Lemma print_streams_stream_rows (ss : list AVStream) :
  forall (k i : Z) (ty : AVMediaType) (id : AVCodecID) (lang : string)
         (sup : bool),
    In (OutStream i ty id lang sup) (print_streams k ss) <->
    exists st,
      k <= i /\ nth_error ss (Z.to_nat (i - k)) = Some st /\
      media st = true /\
      ty = codec_type (codecpar st) /\ id = codec_id (codecpar st) /\
      lang = stream_lang st /\ sup = stream_supported (codecpar st).
Proof.
  induction ss as [|st ss IH]; intros k i ty id lang sup.
  - simpl. split; [contradiction|]. intros (x & _ & H & _).
    destruct (Z.to_nat (i - k)); discriminate.
  - cbn [print_streams].
    assert (Hrest :
      In (OutStream i ty id lang sup) (print_streams (k + 1) ss) <->
      exists x,
        k < i /\ nth_error (st :: ss) (Z.to_nat (i - k)) = Some x /\
        media x = true /\
        ty = codec_type (codecpar x) /\ id = codec_id (codecpar x) /\
        lang = stream_lang x /\ sup = stream_supported (codecpar x)).
    { rewrite IH. split; intros (x & Hk & Hn & Hx); exists x.
      - split; [lia|]. split; [|exact Hx].
        replace (Z.to_nat (i - k)) with (S (Z.to_nat (i - (k + 1)))) by lia.
        exact Hn.
      - split; [lia|]. split; [|exact Hx].
        replace (Z.to_nat (i - k)) with (S (Z.to_nat (i - (k + 1)))) in Hn
          by lia.
        exact Hn. }
    assert (Hhere : forall x,
      k <= i /\ nth_error (st :: ss) (Z.to_nat (i - k)) = Some x <->
      (i = k /\ x = st) \/
      (k < i /\ nth_error (st :: ss) (Z.to_nat (i - k)) = Some x)).
    { intros x. split.
      - intros [Hk Hn]. destruct (Z.eq_dec i k) as [->|Hne].
        + left. rewrite Z.sub_diag in Hn. simpl in Hn. now injection Hn as <-.
        + right. split; [lia | exact Hn].
      - intros [[-> ->]|[Hk Hn]].
        + split; [lia|]. now rewrite Z.sub_diag.
        + split; [lia | exact Hn]. }
    fold (media st).
    destruct (media st) eqn:Hm; cbn [negb].
    + cbn [In]. rewrite in_app_iff, Hrest. split.
      * intros [E|[Hnote|(x & Hk & Hn & Hx)]].
        -- injection E as <- <- <- <- <-. exists st.
           split; [lia|]. split; [now rewrite Z.sub_diag|]. tauto.
        -- destruct (negb (stream_supported (codecpar st))
                     && is_subtitle (codecpar st)
                     && is_bitmap_subtitle (codec_id (codecpar st)));
             [destruct Hnote as [E|[]]; discriminate | contradiction].
        -- exists x. split; [lia|]. split; [exact Hn | exact Hx].
      * intros (x & Hk & Hn & Hx).
        destruct (proj1 (Hhere x) (conj Hk Hn)) as [[-> ->]|[Hlt Hn']].
        -- left. destruct Hx as (_ & -> & -> & -> & ->). reflexivity.
        -- right. right. exists x. tauto.
    + rewrite Hrest. split.
      * intros (x & Hk & Hn & Hx). exists x. split; [lia|]. tauto.
      * intros (x & Hk & Hn & Hx).
        destruct (proj1 (Hhere x) (conj Hk Hn)) as [[-> ->]|[Hlt Hn']].
        -- destruct Hx as (Hx & _). congruence.
        -- exists x. tauto.
Qed.

Lemma bitmap_note_condition (par : AVCodecParameters) :
  is_media_stream (codec_type par) = true ->
  (negb (stream_supported par) && is_subtitle par
   && is_bitmap_subtitle (codec_id par) = true
   <-> bitmap_subtitle_stream par).
Proof.
  intros Hm. split.
  - intros H. apply andb_true_iff in H. destruct H as [H Hb].
    apply andb_true_iff in H. destruct H as [_ Hs].
    split; [now apply type_eqb_eq | now apply bitmap_subtitle_iff].
  - intros H. apply bitmap_subtitle_stream_facts in H.
    destruct H as (_ & -> & -> & _ & -> & _). reflexivity.
Qed.

Lemma print_streams_notes (ss : list AVStream) :
  forall (k i : Z) (id : AVCodecID),
    In (OutBitmapNote i id) (print_streams k ss) <->
    exists st,
      k <= i /\ nth_error ss (Z.to_nat (i - k)) = Some st /\
      bitmap_subtitle_stream (codecpar st) /\ id = codec_id (codecpar st).
Proof.
  induction ss as [|st ss IH]; intros k i id.
  - simpl. split; [contradiction|]. intros (x & _ & H & _).
    destruct (Z.to_nat (i - k)); discriminate.
  - cbn [print_streams].
    assert (Hrest :
      In (OutBitmapNote i id) (print_streams (k + 1) ss) <->
      exists x,
        k < i /\ nth_error (st :: ss) (Z.to_nat (i - k)) = Some x /\
        bitmap_subtitle_stream (codecpar x) /\ id = codec_id (codecpar x)).
    { rewrite IH. split; intros (x & Hk & Hn & Hx); exists x.
      - split; [lia|]. split; [|exact Hx].
        replace (Z.to_nat (i - k)) with (S (Z.to_nat (i - (k + 1)))) by lia.
        exact Hn.
      - split; [lia|]. split; [|exact Hx].
        replace (Z.to_nat (i - k)) with (S (Z.to_nat (i - (k + 1)))) in Hn
          by lia.
        exact Hn. }
    assert (Hhere : forall x,
      k <= i -> nth_error (st :: ss) (Z.to_nat (i - k)) = Some x ->
      (i = k /\ x = st) \/
      (k < i /\ nth_error (st :: ss) (Z.to_nat (i - k)) = Some x)).
    { intros x Hk Hn. destruct (Z.eq_dec i k) as [->|Hne].
      - left. rewrite Z.sub_diag in Hn. simpl in Hn. now injection Hn as <-.
      - right. split; [lia | exact Hn]. }
    destruct (is_media_stream (codec_type (codecpar st))) eqn:Hm; cbn [negb].
    + cbn [In]. rewrite in_app_iff, Hrest.
      pose proof (bitmap_note_condition (codecpar st) Hm) as Hnote.
      split.
      * intros [E|[Hn|(x & Hk & Hn & Hx)]]; [discriminate| |].
        -- destruct (negb (stream_supported (codecpar st))
                     && is_subtitle (codecpar st)
                     && is_bitmap_subtitle (codec_id (codecpar st)));
             [|contradiction].
           destruct Hn as [E|[]]. injection E as <- <-.
           exists st. split; [lia|]. split; [now rewrite Z.sub_diag|].
           split; [now apply Hnote | reflexivity].
        -- exists x. split; [lia|]. tauto.
      * intros (x & Hk & Hn & Hb & ->).
        destruct (Hhere x Hk Hn) as [[-> ->]|[Hlt Hn']].
        -- right. left. apply Hnote in Hb. rewrite Hb. now left.
        -- right. right. exists x. tauto.
    + rewrite Hrest. split.
      * intros (x & Hk & Hn & Hx). exists x. split; [lia|]. tauto.
      * intros (x & Hk & Hn & Hb & ->).
        destruct (Hhere x Hk Hn) as [[-> ->]|[Hlt Hn']].
        -- apply bitmap_subtitle_stream_facts in Hb. destruct Hb as (Hb & _).
           congruence.
        -- exists x. tauto.
Qed.

(** X9.  The verbose report has one row per video, audio or subtitle stream:
    the row's number is the stream's position in the container (streams of
    other types are left out but keep their number), its language is the
    stream's or [und], its verdict the classifier's; and a note follows
    exactly the PGS and DVD subtitle streams. *)
Theorem report_rows_are_the_media_streams :
  forall (ss : list AVStream) (i : Z),
    (forall (ty : AVMediaType) (id : AVCodecID) (lang : string) (sup : bool),
       In (OutStream i ty id lang sup) (print_streams 0 ss) <->
       exists st,
         0 <= i /\ nth_error ss (Z.to_nat i) = Some st /\ media st = true /\
         ty = codec_type (codecpar st) /\ id = codec_id (codecpar st) /\
         lang = stream_lang st /\ sup = stream_supported (codecpar st))
    /\ (forall id : AVCodecID,
          In (OutBitmapNote i id) (print_streams 0 ss) <->
          exists st,
            0 <= i /\ nth_error ss (Z.to_nat i) = Some st /\
            bitmap_subtitle_stream (codecpar st) /\
            id = codec_id (codecpar st)).
Proof.
  intros ss i. split.
  - intros ty id lang sup. rewrite print_streams_stream_rows.
    now rewrite Z.sub_0_r.
  - intros id. rewrite print_streams_notes. now rewrite Z.sub_0_r.
Qed.

(** ** When the transcode command overruns its array *)

(** X10.  Building the transcode command writes past the 8192-byte array
    exactly when [ffmpeg -i], the escaped input path (cut to the array), the
    selectors and the three option buffers (each cut to 1023 bytes) together
    reach 8192 bytes; the decision rests on the input path and never on the
    output name, which [snprintf] cuts to the room that is left.  For an
    input path of at most 1270 bytes it never happens, whatever the
    streams, and the command is shorter than the array. *)
Theorem transcode_overrun_exact :
  forall (filepath : string) (ss : list AVStream),
    (transcode_command filepath ss = BufferOverrun <->
     (CMD_BUF_SIZE <= String.length (command_held filepath ss))%nat)
    /\ ((String.length filepath <= Z.to_nat 1270)%nat ->
        exists c, transcode_command filepath ss = Ok c /\
                  (String.length c < CMD_BUF_SIZE)%nat).
Proof.
  intros filepath ss. split.
  - rewrite transcode_command_exact.
    destruct (Nat.ltb_spec (String.length (command_held filepath ss))
                           CMD_BUF_SIZE) as [Hfit|Hno].
    + split; [discriminate | lia].
    + split; [intros _; exact Hno | reflexivity].
  - intros Hlen.
    assert (Hroom : (String.length (shell_escape_single filepath)
                     <= escaped_input_room)%nat).
    { rewrite shell_escape_single_spec. simpl. rewrite length_append. simpl.
      pose proof (length_quote_body filepath).
      unfold escaped_input_room. lia. }
    rewrite (transcode_command_returns filepath ss Hroom).
    eexists. split; [reflexivity|].
    apply length_snprintf_append.
    pose proof (transcode_command_returns filepath ss Hroom) as H.
    rewrite transcode_command_exact in H.
    destruct (Nat.ltb_spec (String.length (command_held filepath ss))
                           CMD_BUF_SIZE) as [Hfit|Hno];
      [exact Hfit | discriminate].
Qed.

Lemma transcode_overrun_exact_witness :
  exists c,
    transcode_command "/videos/clip.avi"
      [mkStream (mkPar AVMEDIA_TYPE_VIDEO AV_CODEC_ID_MPEG4
                       (MKTAG "X" "V" "I" "D") 0) None] = Ok c /\
    (String.length c < CMD_BUF_SIZE)%nat.
Proof.
  apply (proj2 (transcode_overrun_exact "/videos/clip.avi"
                  [mkStream (mkPar AVMEDIA_TYPE_VIDEO AV_CODEC_ID_MPEG4
                                   (MKTAG "X" "V" "I" "D") 0) None])).
  apply Nat.leb_le. vm_compute. reflexivity.
Defined.

(** ** Streams that are not video, audio or subtitle *)

Lemma first_pass_step_other (f : Flags) (st : AVStream) :
  media st = false -> first_pass_step f st = f.
Proof.
  unfold media, first_pass_step. now intros ->.
Qed.

Lemma transcode_step_other (b : Builder) (st : AVStream) :
  media st = false -> transcode_step b st = Ok b.
Proof.
  unfold media, transcode_step. now intros ->.
Qed.

Lemma fold_first_pass_media (ss : list AVStream) :
  forall f, fold_left first_pass_step (filter media ss) f
            = fold_left first_pass_step ss f.
Proof.
  induction ss as [|st ss IH]; intros f; [reflexivity|].
  cbn [filter fold_left]. destruct (media st) eqn:Hm.
  - cbn [fold_left]. apply IH.
  - rewrite (first_pass_step_other f st Hm). apply IH.
Qed.

Lemma transcode_loop_media (ss : list AVStream) :
  forall b, transcode_loop (filter media ss) b = transcode_loop ss b.
Proof.
  induction ss as [|st ss IH]; intros b; [reflexivity|].
  cbn [filter transcode_loop]. destruct (media st) eqn:Hm.
  - cbn [transcode_loop]. destruct (transcode_step b st); cbn [bind];
      [apply IH | reflexivity | reflexivity].
  - rewrite (transcode_step_other b st Hm). cbn [bind]. apply IH.
Qed.

(** X11.  Streams that are neither video, audio nor subtitle (data tracks,
    attachments) never weigh on a file: the outcome flags and the transcode
    command are the same with them as with them taken out. *)
Theorem other_streams_are_ignored :
  forall (iformat : option string) (ss : list AVStream) (filepath : string),
    file_flags (mkFmt iformat (filter media ss)) = file_flags (mkFmt iformat ss)
    /\ transcode_command filepath (filter media ss)
       = transcode_command filepath ss.
Proof.
  intros iformat ss filepath. split.
  - unfold file_flags, first_pass. cbn [streams container_name iformat_name].
    apply fold_first_pass_media.
  - unfold transcode_command. now rewrite transcode_loop_media.
Qed.

(** ** The order of the streams *)

Lemma first_pass_step_swap (f : Flags) (a b : AVStream) :
  first_pass_step (first_pass_step f a) b
  = first_pass_step (first_pass_step f b) a.
Proof.
  rewrite !first_pass_step_spec.
  cbn [all_supported has_video has_audio can_transcode
       has_unsupported_bitmap_subtitle].
  f_equal.
  - rewrite <- !andb_assoc. f_equal. apply andb_comm.
  - rewrite <- !orb_assoc. f_equal. apply orb_comm.
  - rewrite <- !orb_assoc. f_equal. apply orb_comm.
  - rewrite <- !orb_assoc. f_equal. apply orb_comm.
  - rewrite <- !orb_assoc. f_equal. apply orb_comm.
Qed.

Lemma fold_first_pass_permutation (ss ss' : list AVStream) :
  Permutation ss ss' ->
  forall f, fold_left first_pass_step ss f = fold_left first_pass_step ss' f.
Proof.
  induction 1 as [|x l l' _ IH|x y l|l l' l'' _ IH1 _ IH2]; intros f;
    cbn [fold_left].
  - reflexivity.
  - apply IH.
  - now rewrite first_pass_step_swap.
  - now rewrite IH1, IH2.
Qed.

(** X12.  The outcome flags of a file do not depend on the order of its
    streams: any rearrangement of the stream list gives the same
    [all_supported], [has_video], [has_audio], [can_transcode] and
    [has_unsupported_bitmap_subtitle]. *)
Theorem outcome_flags_ignore_stream_order :
  forall (iformat : option string) (ss ss' : list AVStream),
    Permutation ss ss' ->
    file_flags (mkFmt iformat ss) = file_flags (mkFmt iformat ss').
Proof.
  intros iformat ss ss' H. unfold file_flags, first_pass.
  cbn [streams container_name iformat_name].
  now apply fold_first_pass_permutation.
Qed.

Lemma outcome_flags_ignore_stream_order_witness :
  file_flags (mkFmt (Some "avi")
    [mkStream (mkPar AVMEDIA_TYPE_VIDEO AV_CODEC_ID_MPEG4
                     (MKTAG "X" "V" "I" "D") 0) None;
     mkStream (mkPar AVMEDIA_TYPE_AUDIO AV_CODEC_ID_AAC 0 1) None])
  = file_flags (mkFmt (Some "avi")
    [mkStream (mkPar AVMEDIA_TYPE_AUDIO AV_CODEC_ID_AAC 0 1) None;
     mkStream (mkPar AVMEDIA_TYPE_VIDEO AV_CODEC_ID_MPEG4
                     (MKTAG "X" "V" "I" "D") 0) None]).
Proof.
  apply outcome_flags_ignore_stream_order. apply perm_swap.
Defined.

(** ** The brief line *)

Lemma brief_loop_fits (codec_name : AVCodecID -> string) (ss : list AVStream) :
  forall (i : Z) (b : Brief),
    linelen b = String.length (line b) ->
    (String.length (line b) + String.length (stream_tags codec_name i ss)
     < CMD_BUF_SIZE)%nat ->
    brief_loop codec_name i ss b
    = Ok (mkBrief (line b ++ stream_tags codec_name i ss)
                  (String.length (line b)
                   + String.length (stream_tags codec_name i ss))
                  (has_unsupported b || some_unsupported ss)).
Proof.
  unfold some_unsupported.
  induction ss as [|st ss IH]; intros i b Hlen Hfit.
  - simpl. rewrite append_nil_r, Nat.add_0_r, orb_false_r, <- Hlen.
    now destruct b.
  - cbn [brief_loop stream_tags existsb] in *. unfold media in *.
    destruct (is_media_stream (codec_type (codecpar st))); cbn [negb andb].
    + fold (stream_tag codec_name i st).
      rewrite length_append in Hfit.
      unfold brief_snprintf. rewrite Hlen.
      destruct (Nat.leb_spec (String.length (line b)) CMD_BUF_SIZE); [|lia].
      rewrite truncate_all by lia. cbn [bind].
      rewrite IH; cbn [line linelen has_unsupported].
      * rewrite append_assoc, !length_append, Nat.add_assoc.
        do 2 f_equal.
        destruct (stream_supported (codecpar st)), (has_unsupported b);
          reflexivity.
      * now rewrite length_append.
      * rewrite length_append. lia.
    + cbn [append orb] in *. now apply IH.
Qed.

(** X13.  In brief mode, when the tags fit the 8192-byte line and the
    counters are below [INT_MAX], a fully
    supported file prints nothing and any other file prints one line: its
    name and one tag for an unsupported container followed by one tag per
    video, audio or subtitle stream, supported or not, numbered by the
    stream's position. *)
Theorem brief_line_exact :
  forall (codec_name : AVCodecID -> string) (g : Globals)
         (fmt_ctx : AVFormatContext) (filepath : string)
         (show_full_path : bool) (s : Summary),
    has_supported_extension filepath = true ->
    brief_mode g = true ->
    (String.length (brief_text codec_name fmt_ctx) < CMD_BUF_SIZE)%nat ->
    total s < INT_MAX ->
    ok s < INT_MAX ->
    not_supported s < INT_MAX ->
    check_file codec_name g (Probed fmt_ctx) filepath show_full_path s
    = Ok (if all_supported (file_flags fmt_ctx) then []
          else [OutBriefLine
                  (if show_full_path then filepath else get_basename filepath)
                  (brief_text codec_name fmt_ctx)],
          counted (Probed fmt_ctx) filepath s).
Proof.
  intros codec_name g fmt_ctx filepath show_full_path s Hext Hbrief Hfit
    Ht Ho Hn.
  unfold check_file, counted, brief_text in *.
  rewrite Hext, Hbrief. cbn [negb].
  rewrite all_supported_some_unsupported.
  set (k := is_container_supported (Some (container_name fmt_ctx))) in *.
  fold (container_tag (container_name fmt_ctx)).
  rewrite length_append in Hfit.
  assert (Hstart :
    (if negb k
     then brief_snprintf (mkBrief "" 0 false)
            (container_tag (container_name fmt_ctx)) true
     else Ok (mkBrief "" 0 false))
    = Ok (mkBrief (if k then "" else container_tag (container_name fmt_ctx))
                  (String.length
                     (if k then "" else container_tag (container_name fmt_ctx)))
                  (negb k))).
  { destruct k; [reflexivity|]. unfold brief_snprintf.
    cbn [linelen negb line append]. destruct CMD_BUF_SIZE eqn:E;
      [discriminate E|].
    cbn [Nat.leb]. rewrite truncate_all by (rewrite <- E; lia).
    reflexivity. }
  rewrite Hstart. cbn [bind].
  rewrite brief_loop_fits; cbn [line linelen has_unsupported];
    [|reflexivity|exact Hfit].
  cbn [bind].
  rewrite (count_ok_below s Ho Ht), (count_not_supported_below s Hn Ht).
  destruct k, (some_unsupported (streams fmt_ctx)); reflexivity.
Qed.

(** A Matroska file with an H.264 stream and a PGS subtitle. *)
Lemma brief_line_exact_witness :
  check_file sample_codec_name (mkGlobals true false false)
    (Probed (mkFmt (Some "matroska,webm")
       [mkStream (mkPar AVMEDIA_TYPE_VIDEO AV_CODEC_ID_H264 0 100) None;
        mkStream (mkPar AVMEDIA_TYPE_SUBTITLE AV_CODEC_ID_HDMV_PGS_SUBTITLE 0 0)
                 (Some "eng")]))
    "/media/film.mkv" false (mkSummary 0 0 0 0)
  = Ok ([OutBriefLine "film.mkv"
           (COLOR_GREEN ++ "[0:video:h264:und]" ++ COLOR_RESET ++ COLOR_RED
            ++ "[1:subtitle:hdmv_pgs_subtitle:eng]" ++ COLOR_RESET)],
        mkSummary 1 0 1 0).
Proof.
  apply (brief_line_exact sample_codec_name (mkGlobals true false false)
           (mkFmt (Some "matroska,webm")
              [mkStream (mkPar AVMEDIA_TYPE_VIDEO AV_CODEC_ID_H264 0 100) None;
               mkStream (mkPar AVMEDIA_TYPE_SUBTITLE
                               AV_CODEC_ID_HDMV_PGS_SUBTITLE 0 0)
                        (Some "eng")])
           "/media/film.mkv" false (mkSummary 0 0 0 0));
    [ reflexivity | reflexivity | apply Nat.ltb_lt; vm_compute; reflexivity
    | reflexivity | reflexivity | reflexivity ].
Defined.

(** ** The command line *)

Lemma parse_arguments_words (l : list Argument) :
  Forall plain l ->
  forall (rest : list string) (c : CommandLine),
    parse_arguments (flat_map words l ++ rest) c
    = parse_arguments rest (fold_left read_argument l c).
Proof.
  induction 1 as [|a l Ha _ IH]; intros rest c; [reflexivity|].
  cbn [flat_map fold_left]. rewrite <- app_assoc.
  destruct a as [pattern| | | | |path]; cbn [words app];
    try (cbn [parse_arguments]; cbn; apply IH).
  cbn [plain] in Ha. unfold is_option_word in Ha. cbn [existsb] in Ha.
  rewrite !orb_false_iff in Ha.
  destruct Ha as (He & Hf & Hb & Ho & Hu & _).
  cbn [parse_arguments]. rewrite He, Hf, Hb, Ho, Hu.
  cbn [read_argument]. destruct (cl_input c); apply IH.
Qed.

Lemma fold_read_argument (l : list Argument) :
  forall c : CommandLine,
    fold_left read_argument l c
    = mkCommandLine
        (cl_excludes c ++ patterns l)
        (cl_show_full_path c || given ArgFullpath l)
        (mkGlobals (brief_mode (cl_modes c) || given ArgBrief l)
                   (skip_ok (cl_modes c) || given ArgSkipOk l)
                   (skip_unfixable (cl_modes c) || given ArgSkipUnfixable l))
        (match cl_input c with
         | Some input => Some input
         | None => hd_error (paths l)
         end).
Proof.
  unfold patterns, paths, given.
  induction l as [|a l IH]; intros [ex full [b so su] input].
  - cbn. rewrite app_nil_r, !orb_false_r. now destruct input.
  - cbn [fold_left]. rewrite IH.
    destruct a; cbn [read_argument cl_excludes cl_show_full_path cl_modes
                     cl_input brief_mode skip_ok skip_unfixable flat_map
                     existsb app orb];
      rewrite ?orb_true_r, ?app_nil_r, <- ?app_assoc; try reflexivity.
    destruct input; reflexivity.
Qed.

(** X14.  The command line is read as the user means it: the values after
    each [--exclude] are collected in order (taken as they are, even when
    they look like an option), each mode is on when its option occurs
    anywhere, and the input is the first word that is neither an option nor
    an exclude value, later ones being dropped.  A last [--exclude] with no
    value is no error: it becomes the input when none was given, and is
    dropped otherwise. *)
Theorem command_line_round_trip :
  forall l : list Argument,
    Forall plain l ->
    parse_arguments (flat_map words l) no_arguments = meaning l
    /\ parse_arguments (flat_map words l ++ ["--exclude"]) no_arguments
       = mkCommandLine (patterns l) (given ArgFullpath l)
           (mkGlobals (given ArgBrief l) (given ArgSkipOk l)
                      (given ArgSkipUnfixable l))
           (match hd_error (paths l) with
            | Some input => Some input
            | None => Some "--exclude"
            end).
Proof.
  intros l Hl. split.
  - rewrite <- (app_nil_r (flat_map words l)).
    rewrite (parse_arguments_words l Hl), fold_read_argument. reflexivity.
  - rewrite (parse_arguments_words l Hl), fold_read_argument.
    cbn. now destruct (hd_error (paths l)).
Qed.

Lemma command_line_round_trip_witness :
  parse_arguments
    ["--skip-ok"; "--exclude"; "--brief"; "/media"; "--exclude"; "*/tmp";
     "/other"; "--fullpath"]
    no_arguments
  = mkCommandLine ["--brief"; "*/tmp"] true (mkGlobals false true false)
                  (Some "/media").
Proof.
  apply (proj1 (command_line_round_trip
                  [ArgSkipOk; ArgExclude "--brief"; ArgPath "/media";
                   ArgExclude "*/tmp"; ArgPath "/other"; ArgFullpath]
                  ltac:(repeat constructor))).
Defined.

(** ** The traversal *)

Lemma grows_refl (s : Summary) : grows s s.
Proof. unfold grows. lia. Qed.

Lemma grows_trans (a b c : Summary) : grows a b -> grows b c -> grows a c.
Proof. unfold grows. lia. Qed.

Lemma extends_refl (r : Report) : extends r r.
Proof.
  split; [|split].
  - exists []. now rewrite app_nil_r.
  - exists []. now rewrite app_nil_r.
  - apply grows_refl.
Qed.

Lemma extends_trans (a b c : Report) : extends a b -> extends b c -> extends a c.
Proof.
  intros ([o1 H1] & [d1 G1] & K1) ([o2 H2] & [d2 G2] & K2).
  split; [|split].
  - exists (o1 ++ o2)%list. now rewrite H2, H1, app_assoc.
  - exists (d1 ++ d2)%list. now rewrite G2, G1, app_assoc.
  - exact (grows_trans _ _ _ K1 K2).
Qed.

Lemma continues_refl (r : Report) : continues r r.
Proof. split; [apply extends_refl | tauto]. Qed.

Lemma continues_trans (a b c : Report) :
  continues a b -> continues b c -> continues a c.
Proof.
  intros [E1 R1] [E2 R2]. split; [exact (extends_trans _ _ _ E1 E2) | tauto].
Qed.

Lemma grows_counted (probe : ProbeResult) (filepath : string) (s : Summary) :
  grows s (counted probe filepath s).
Proof.
  unfold counted, grows.
  destruct (has_supported_extension filepath); [|lia].
  destruct probe as [ret|ret|fmt_ctx]; cbn; try lia.
  destruct (all_supported (file_flags fmt_ctx)); cbn; lia.
Qed.

Lemma check_into_continues (h : Host) (g : Globals) (path : string)
    (show_full_path : bool) (r r' : Report) :
  check_into h g path show_full_path r = Ok r' -> continues r r'.
Proof.
  unfold check_into.
  destruct (check_file (host_codec_name h) g (host_probe h path) path
                       show_full_path (counters r)) as [[out s']| |] eqn:E;
    cbn [bind]; try discriminate.
  intros [= <-]. apply check_file_counts in E. destruct E as [-> Hsteps].
  pose proof (steps_int_counters _ _ Hsteps) as Hrange.
  split; [split; [|split]|]; cbn [printed diagnostics counters fst snd].
  - now exists out.
  - exists []. now rewrite app_nil_r.
  - apply grows_counted.
  - exact Hrange.
Qed.

Lemma scan_entries_continues
    (recurse : string -> Report -> option (result Report))
    (h : Host) (g : Globals) (dirpath : string) (excludes : list string)
    (show_full_path : bool) :
  (forall path r r', recurse path r = Some (Ok r') -> continues r r') ->
  forall (names : list string) (r r' : Report),
    scan_entries recurse h g dirpath excludes show_full_path names r
    = Some (Ok r') ->
    continues r r'.
Proof.
  intros Hrec. induction names as [|d_name rest IH]; intros r r' H.
  - injection H as <-. apply continues_refl.
  - cbn [scan_entries] in H.
    destruct (String.eqb d_name "." || String.eqb d_name ".."); [now apply IH|].
    destruct (host_stat h _) as [[| |]|]; try now apply IH.
    + destruct (is_excluded h _ excludes); [now apply IH|].
      destruct (recurse _ r) as [[r1| |]|] eqn:E; try discriminate.
      apply (continues_trans r r1 r'); [now apply Hrec in E | now apply IH].
    + destruct (check_into h g _ show_full_path r) as [r1| |] eqn:E;
        try discriminate.
      apply (continues_trans r r1 r');
        [now apply check_into_continues in E | now apply IH].
Qed.

Lemma scan_dir_continues (fuel : nat) (h : Host) (g : Globals)
    (excludes : list string) (show_full_path : bool) :
  forall (dirpath : string) (r r' : Report),
    scan_dir fuel h g dirpath excludes show_full_path r = Some (Ok r') ->
    continues r r'.
Proof.
  induction fuel as [|fuel IH]; intros dirpath r r' H; [discriminate|].
  cbn [scan_dir] in H.
  destruct (host_readdir h dirpath) as [names|].
  - revert H. apply scan_entries_continues. intros path r1 r2. apply IH.
  - injection H as <-.
    split; [split; [|split]|]; cbn [printed diagnostics counters].
    + exists []. now rewrite app_nil_r.
    + now eexists.
    + apply grows_refl.
    + tauto.
Qed.

(** X15.  A traversal that comes back only adds: what was printed and
    reported before is still there, in front; no counter went down; the
    total grew by exactly what ok and not-supported grew together, so files
    that failed to open count as errors only; and counters that were [int]s
    are still within the range of [int], a traversal that would take one
    past [INT_MAX] not coming back with a report. *)
Theorem scan_dir_only_adds :
  forall (fuel : nat) (h : Host) (g : Globals) (dirpath : string)
         (excludes : list string) (show_full_path : bool) (r r' : Report),
    scan_dir fuel h g dirpath excludes show_full_path r = Some (Ok r') ->
    extends r r' /\
    (int_counters (counters r) -> int_counters (counters r')).
Proof.
  intros fuel h g dirpath excludes show_full_path r r'.
  apply scan_dir_continues.
Qed.

Lemma scan_dir_only_adds_witness :
  extends
    (mkReport [] [] (mkSummary 7 5 2 1))
    (mkReport [OutOpenError "b.avi" (-2)] [] (mkSummary 8 6 2 2))
  /\ (int_counters (mkSummary 7 5 2 1) -> int_counters (mkSummary 8 6 2 2)).
Proof.
  apply (scan_dir_only_adds 3 sample_host (mkGlobals false true false)
           "/media" [] false
           (mkReport [] [] (mkSummary 7 5 2 1))
           (mkReport [OutOpenError "b.avi" (-2)] [] (mkSummary 8 6 2 2))).
  vm_compute. reflexivity.
Defined.

(** At the limit: with [INT_MAX] files already counted, the traversal of
    the same tree overflows [total] and comes back with no report. *)
Lemma scan_dir_at_int_max :
  scan_dir 3 sample_host (mkGlobals false true false) "/media" [] false
           (mkReport [] [] (mkSummary INT_MAX 5 2 1))
  = Some SignedOverflow.
Proof. vm_compute. reflexivity. Qed.

Lemma scan_entries_same_recursion
    (rec1 rec2 : string -> Report -> option (result Report))
    (h : Host) (g : Globals) (dirpath : string) (excludes : list string)
    (show_full_path : bool) :
  (forall path, host_stat h path = Some IsDirectory ->
                is_excluded h path excludes = false) ->
  (forall path r, rec1 path r = rec2 path r) ->
  forall (names : list string) (r : Report),
    scan_entries rec1 h g dirpath excludes show_full_path names r
    = scan_entries rec2 h g dirpath [] show_full_path names r.
Proof.
  intros Hnone Hrec. induction names as [|d_name rest IH]; intros r;
    [reflexivity|].
  cbn [scan_entries].
  destruct (String.eqb d_name "." || String.eqb d_name ".."); [apply IH|].
  destruct (host_stat h _) as [[| |]|] eqn:E; try apply IH.
  - rewrite (Hnone _ E). cbn [is_excluded existsb]. rewrite Hrec.
    destruct (rec2 _ r) as [[r1| |]|]; try reflexivity. apply IH.
  - destruct (check_into h g _ show_full_path r); try reflexivity. apply IH.
Qed.

(** X16.  Exclusion concerns directories only: patterns that match no
    directory change nothing, however many files they match.  The traversal
    with such patterns is the traversal with no pattern at all. *)
Theorem exclusion_spares_files :
  forall (fuel : nat) (h : Host) (g : Globals) (excludes : list string)
         (show_full_path : bool),
    (forall path, host_stat h path = Some IsDirectory ->
                  is_excluded h path excludes = false) ->
    forall (dirpath : string) (r : Report),
      scan_dir fuel h g dirpath excludes show_full_path r
      = scan_dir fuel h g dirpath [] show_full_path r.
Proof.
  intros fuel h g excludes show_full_path Hnone.
  induction fuel as [|fuel IH]; intros dirpath r; [reflexivity|].
  cbn [scan_dir]. destruct (host_readdir h dirpath) as [names|];
    [|reflexivity].
  apply scan_entries_same_recursion; [exact Hnone|].
  intros path r1. apply IH.
Qed.

Lemma exclusion_spares_files_witness :
  scan_dir 3 sample_host (mkGlobals true false false) "/media"
           ["/media/a.mkv"; "/media/tmp/b.avi"] false
           (mkReport [] [] (mkSummary 0 0 0 0))
  = scan_dir 3 sample_host (mkGlobals true false false) "/media" [] false
             (mkReport [] [] (mkSummary 0 0 0 0)).
Proof.
  apply (exclusion_spares_files 3 sample_host (mkGlobals true false false)
           ["/media/a.mkv"; "/media/tmp/b.avi"] false).
  intros path H. unfold is_excluded, sample_host in H |- *.
  cbn [host_stat host_fnmatch existsb] in H |- *.
  destruct (String.eqb path "/media") eqn:E1;
    [apply String.eqb_eq in E1; subst path; reflexivity|].
  destruct (String.eqb path "/media/tmp") eqn:E2;
    [apply String.eqb_eq in E2; subst path; reflexivity|].
  destruct (String.eqb path "/media/a.mkv"); [discriminate H|].
  destruct (String.eqb path "/media/tmp/b.avi"); [discriminate H|].
  destruct (String.eqb path "/media/notes.txt"); discriminate H.
Defined.

(** X17.  An entry the loop passes over -- [.] or [..], an entry [stat]
    fails on, one that is neither a regular file nor a directory, an
    excluded directory -- leaves no trace: no line, no diagnostic, no
    count.  The loop over a listing gives what it gives over the listing
    without that entry. *)
Theorem passed_over_entries_leave_no_trace :
  forall (recurse : string -> Report -> option (result Report))
         (h : Host) (g : Globals) (dirpath : string) (excludes : list string)
         (show_full_path : bool) (d_name : string),
    passed_over h excludes dirpath d_name ->
    forall (before after : list string) (r : Report),
      scan_entries recurse h g dirpath excludes show_full_path
                   (before ++ d_name :: after) r
      = scan_entries recurse h g dirpath excludes show_full_path
                     (before ++ after) r.
Proof.
  intros recurse h g dirpath excludes show_full_path d_name Hskip before after.
  assert (Hhere : forall r,
    scan_entries recurse h g dirpath excludes show_full_path
                 (d_name :: after) r
    = scan_entries recurse h g dirpath excludes show_full_path after r).
  { intros r. cbn [scan_entries].
    destruct Hskip as [->|[->|Hskip]]; [reflexivity | reflexivity|].
    destruct (String.eqb d_name "." || String.eqb d_name ".."); [reflexivity|].
    cbv zeta in Hskip.
    destruct Hskip as [->|[->|[-> ->]]]; reflexivity. }
  induction before as [|x before IH]; intros r; [apply Hhere|].
  cbn [app scan_entries].
  destruct (String.eqb x "." || String.eqb x ".."); [apply IH|].
  destruct (host_stat h _) as [[| |]|]; try apply IH.
  - destruct (is_excluded h _ excludes); [apply IH|].
    destruct (recurse _ r) as [[r1| |]|]; try reflexivity. apply IH.
  - destruct (check_into h g _ show_full_path r); try reflexivity. apply IH.
Qed.

Lemma passed_over_entries_leave_no_trace_witness :
  scan_entries (fun path r => scan_dir 2 sample_host
                                (mkGlobals false false false) path
                                ["/media/tmp"] false r)
    sample_host (mkGlobals false false false) "/media" ["/media/tmp"] false
    (["."; ".."; "a.mkv"] ++ "tmp" :: ["notes.txt"])
    (mkReport [] [] (mkSummary 0 0 0 0))
  = scan_entries (fun path r => scan_dir 2 sample_host
                                  (mkGlobals false false false) path
                                  ["/media/tmp"] false r)
      sample_host (mkGlobals false false false) "/media" ["/media/tmp"] false
      (["."; ".."; "a.mkv"] ++ ["notes.txt"])
      (mkReport [] [] (mkSummary 0 0 0 0)).
Proof.
  apply passed_over_entries_leave_no_trace.
  right. right. right. right. split; reflexivity.
Defined.

(** ** The entry point *)

(** X18.  When [main] returns, its exit code is 0 or 1, and it is 0 exactly
    when the command line names an input that [stat] finds to be a
    directory or a regular file: what the prober says of any file, and
    directories that cannot be opened, never change it.  With exit code 1
    nothing is printed on standard output and one diagnostic is. *)
Theorem exit_code_exact :
  forall (fuel : nat) (h : Host) (argv : list string) (e : Exit),
    main fuel h argv = Some (Ok e) ->
    (exit_code e = 0 \/ exit_code e = 1)
    /\ (exit_code e = 0 <->
        exists input,
          cl_input (parse_arguments (tl argv) no_arguments) = Some input /\
          (host_stat h input = Some IsDirectory \/
           host_stat h input = Some IsRegular))
    /\ (exit_code e = 1 ->
        exit_printed e = [] /\ exit_summary e = None /\
        List.length (exit_diagnostics e) = 1%nat).
Proof.
  intros fuel h argv e. unfold main.
  destruct (Nat.ltb_spec (List.length argv) 2) as [Hshort|Hlong].
  - intros [= <-]. cbn [exit_code exit_printed exit_summary exit_diagnostics].
    split; [now right|]. split; [|now repeat split].
    split; [discriminate|]. intros (input & H & _).
    destruct argv as [|prog [|a rest]]; cbn in Hshort, H;
      [discriminate H | discriminate H | lia].
  - set (c := parse_arguments (tl argv) no_arguments).
    destruct (cl_input c) as [input|] eqn:Ein.
    + destruct (host_stat h input) as [[| |]|] eqn:Est.
      * destruct (scan_dir fuel h (cl_modes c) input (cl_excludes c)
                           (cl_show_full_path c) _) as [[r| |]|];
          try discriminate.
        intros [= <-]. cbn [finish exit_code].
        split; [now left|]. split; [|discriminate].
        split; [|reflexivity]. intros _. exists input. split; [reflexivity|].
        now left.
      * destruct (check_into h (cl_modes c) input (cl_show_full_path c) _)
          as [r| |]; try discriminate.
        intros [= <-]. cbn [finish exit_code].
        split; [now left|]. split; [|discriminate].
        split; [|reflexivity]. intros _. exists input. split; [reflexivity|].
        now right.
      * intros [= <-].
        cbn [exit_code exit_printed exit_summary exit_diagnostics].
        split; [now right|]. split; [|now repeat split].
        split; [discriminate|]. intros (x & [= <-] & [H|H]); congruence.
      * intros [= <-].
        cbn [exit_code exit_printed exit_summary exit_diagnostics].
        split; [now right|]. split; [|now repeat split].
        split; [discriminate|]. intros (x & [= <-] & [H|H]); congruence.
    + intros [= <-].
      cbn [exit_code exit_printed exit_summary exit_diagnostics].
      split; [now right|]. split; [|now repeat split].
      split; [discriminate|]. intros (x & H & _). discriminate H.
Qed.

Lemma exit_code_exact_witness :
  let e := mkExit 0 [OutOpenError "/media/tmp/b.avi" (-2)]
                  (Some (mkSummary 1 1 0 1)) [] in
  (exit_code e = 0 \/ exit_code e = 1)
  /\ (exit_code e = 0 <->
      exists input,
        cl_input (parse_arguments
                    (tl ["check_tv_compat"; "--skip-ok"; "/media"; "--fullpath"])
                    no_arguments) = Some input /\
        (host_stat sample_host input = Some IsDirectory \/
         host_stat sample_host input = Some IsRegular))
  /\ (exit_code e = 1 ->
      exit_printed e = [] /\ exit_summary e = None /\
      List.length (exit_diagnostics e) = 1%nat).
Proof.
  intros e.
  apply (exit_code_exact 3 sample_host
           ["check_tv_compat"; "--skip-ok"; "/media"; "--fullpath"] e).
  vm_compute. reflexivity.
Defined.

(** X19.  The summary that a successful run prints is consistent: the total
    is the number of files counted ok plus the number counted not supported,
    every counter lies between 0 and [INT_MAX], and files that could not be
    opened appear under errors only.  It is printed exactly when the run is
    not in brief mode. *)
Theorem printed_summary_is_consistent :
  forall (fuel : nat) (h : Host) (argv : list string) (e : Exit),
    main fuel h argv = Some (Ok e) ->
    exit_code e = 0 ->
    (brief_mode (cl_modes (parse_arguments (tl argv) no_arguments)) = true /\
     exit_summary e = None)
    \/ (brief_mode (cl_modes (parse_arguments (tl argv) no_arguments)) = false /\
        exists s,
          exit_summary e = Some s /\ total s = ok s + not_supported s /\
          0 <= ok s /\ 0 <= not_supported s /\ 0 <= errors s /\
          total s <= INT_MAX /\ errors s <= INT_MAX).
Proof.
  intros fuel h argv e. unfold main.
  destruct (List.length argv <? 2)%nat; [intros [= <-]; discriminate|].
  set (c := parse_arguments (tl argv) no_arguments).
  set (start := mkReport [] [] (mkSummary 0 0 0 0)).
  assert (Hfinish : forall r,
    continues start r ->
    (brief_mode (cl_modes c) = true /\ exit_summary (finish c r) = None)
    \/ (brief_mode (cl_modes c) = false /\
        exists s,
          exit_summary (finish c r) = Some s /\
          total s = ok s + not_supported s /\
          0 <= ok s /\ 0 <= not_supported s /\ 0 <= errors s /\
          total s <= INT_MAX /\ errors s <= INT_MAX)).
  { intros r [(_ & _ & Hg) Hrange]. unfold finish. cbn [exit_summary].
    destruct (brief_mode (cl_modes c)); [now left|]. right.
    split; [reflexivity|]. exists (counters r). split; [reflexivity|].
    assert (Hstart : int_counters (counters start))
      by (unfold int_counters, INT_MIN, INT_MAX; cbn; lia).
    apply Hrange in Hstart.
    unfold grows in Hg. unfold int_counters in Hstart. cbn in Hg. lia. }
  destruct (cl_input c) as [input|]; [|intros [= <-]; discriminate].
  destruct (host_stat h input) as [[| |]|];
    try (intros [= <-]; discriminate).
  - destruct (scan_dir fuel h (cl_modes c) input (cl_excludes c)
                       (cl_show_full_path c) start) as [[r| |]|] eqn:E;
      try discriminate.
    intros [= <-] _. apply Hfinish. now apply scan_dir_continues in E.
  - destruct (check_into h (cl_modes c) input (cl_show_full_path c) start)
      as [r| |] eqn:E; try discriminate.
    intros [= <-] _. apply Hfinish. now apply check_into_continues in E.
Qed.

Lemma printed_summary_is_consistent_witness :
  let argv := ["check_tv_compat"; "/media"; "--exclude"; "/media/tmp"] in
  let e := mkExit 0
             [OutHeader "a.mkv" "matroska,webm" true;
              OutStream 0 AVMEDIA_TYPE_VIDEO AV_CODEC_ID_H264 "und" true;
              OutStream 1 AVMEDIA_TYPE_AUDIO AV_CODEC_ID_MP3 "eng" true;
              OutOverall true; OutNewline]
             (Some (mkSummary 1 1 0 0)) [] in
  (brief_mode (cl_modes (parse_arguments (tl argv) no_arguments)) = true /\
   exit_summary e = None)
  \/ (brief_mode (cl_modes (parse_arguments (tl argv) no_arguments)) = false /\
      exists s,
        exit_summary e = Some s /\ total s = ok s + not_supported s /\
        0 <= ok s /\ 0 <= not_supported s /\ 0 <= errors s /\
        total s <= INT_MAX /\ errors s <= INT_MAX).
Proof.
  intros argv e.
  apply (printed_summary_is_consistent 3 sample_host argv e);
    vm_compute; reflexivity.
Defined.

(** ** Why a file is not fully supported *)

Lemma unsupported_stream_cases (st : AVStream) :
  media st && negb (stream_supported (codecpar st))
  = media st && needs_reencoding (codecpar st)
    || negb (stream_supported (codecpar st)) && is_subtitle (codecpar st)
       && is_bitmap_subtitle (codec_id (codecpar st)).
Proof.
  unfold media, needs_reencoding, is_media_stream, is_subtitle.
  destruct (type_eqb (codec_type (codecpar st)) AVMEDIA_TYPE_SUBTITLE);
    destruct (stream_supported (codecpar st)),
             (is_bitmap_subtitle (codec_id (codecpar st)));
    cbn; rewrite ?orb_true_r, ?orb_false_r, ?andb_true_r, ?andb_false_r;
    reflexivity.
Qed.

Lemma existsb_orb {A : Type} (p q : A -> bool) (l : list A) :
  existsb (fun x => p x || q x) l = existsb p l || existsb q l.
Proof.
  induction l as [|x l IH]; [reflexivity|].
  simpl. rewrite IH.
  destruct (p x), (q x), (existsb p l), (existsb q l); reflexivity.
Qed.

Lemma existsb_same {A : Type} (p q : A -> bool) (l : list A) :
  (forall x, p x = q x) -> existsb p l = existsb q l.
Proof.
  intros H. induction l as [|x l IH]; [reflexivity|].
  simpl. now rewrite H, IH.
Qed.

(** X20.  A probed file is fully supported exactly when its container is
    supported, nothing in it can be transcoded and it has no unsupported
    bitmap subtitle: every file that is not fully supported has a container
    problem, a stream to re-encode, or a bitmap subtitle that can only be
    copied. *)
Theorem verdict_has_a_reason :
  forall fmt_ctx : AVFormatContext,
    all_supported (file_flags fmt_ctx)
    = is_container_supported (Some (container_name fmt_ctx))
      && negb (can_transcode (file_flags fmt_ctx))
      && negb (has_unsupported_bitmap_subtitle (file_flags fmt_ctx)).
Proof.
  intros fmt_ctx. rewrite all_supported_some_unsupported.
  unfold file_flags.
  destruct (first_pass_spec
              (is_container_supported (Some (container_name fmt_ctx)))
              (streams fmt_ctx)) as (_ & _ & _ & Hc & Hb).
  rewrite Hc, Hb. unfold some_unsupported.
  rewrite (existsb_same _ _ _ unsupported_stream_cases), existsb_orb.
  rewrite negb_orb, andb_assoc. reflexivity.
Qed.
